(** * interview-prep: the counter demo component and its notifier effects

    A shallow embedding of

    - [src/store/uiReducer.ts]   : [UIState], [UIAction], [uiReducer];
    - [src/services/graphql.ts]  : [callAnilistStudio];
    - [App.tsx]                  : the component state, its three refs, the
      two [useEffect] bodies with their cleanups, the debounce timer and
      the promise handler chains.

    The component is modelled as a transition system over an explicit
    state record.  One transition is one task of the event loop: a click,
    the passage of time (which fires due timers), the settling of an
    in-flight request, or the unmounting of the component.

    React is taken as it behaves with a concurrent root: a state update
    made in a click handler, a timer callback or a promise handler is
    rendered and committed after that handler (and, for a promise, after
    the whole [then]/[catch]/[finally] chain, which runs in consecutive
    microtasks); an effect runs when its dependency differs from the one of
    the previous commit, after the cleanup its previous run returned; an
    update addressed to an unmounted component is dropped.  The counter is
    an integer, as JavaScript numbers are on the range clicks can reach. *)

From Stdlib Require Import ZArith Bool List String Lia.
From Stdlib Require Import DecimalString DecimalZ Permutation.
From stdpp Require Import base list.
Import ListNotations.

Local Open Scope Z_scope.
Set Warnings "-register-all".

(* ===================================================================== *)
(** ** store/uiReducer.ts *)
(* ===================================================================== *)

Record UIState := mkUIState { disableButtons : bool }.

Inductive UIAction :=
| TOGGLE_DISABLE
| SET_DISABLE (payload : bool).

Definition initialUIState : UIState := mkUIState false.

(** The spread [{ ...state, disableButtons: v }] copies the only field and
    overrides it. *)
Definition uiReducer (state : UIState) (action : UIAction) : UIState :=
  match action with
  | TOGGLE_DISABLE => mkUIState (negb (disableButtons state))
  | SET_DISABLE payload => mkUIState payload
  end.

(* ===================================================================== *)
(** ** services/graphql.ts *)
(* ===================================================================== *)

(** JavaScript values as far as [callAnilistStudio] looks at them: what
    [res.json()] can produce, plus [undefined] for a missing property.
    A number stands for its value; the code only tests it for truthiness. *)
Inductive JsValue :=
| VUndefined
| VNull
| VBool (b : bool)
| VNum (n : Z)
| VStr (s : string)
| VArr (items : list JsValue)
| VObj (fields : list (string * JsValue)).

(** What can be thrown and what is written to the console. *)
Inductive JsError :=
| NetworkError
| ParseError
| TypeError.

Inductive LogEntry :=
| ErrNetworkOrParsing (e : JsError)   (* 'Network or parsing error calling AniList:' *)
| ErrRequestFailed (e : JsError)      (* 'AniList request failed:' *)
| WarnCountUnsuccessful               (* '... unsuccessful response for count change' *)
| ErrCountFailed (e : JsError).       (* 'AniList call failed on count change:' *)

(** A computation that returns or throws. *)
Inductive Exc (A : Type) :=
| Ret (a : A)
| Throw (e : JsError).
Arguments Ret {A} a.
Arguments Throw {A} e.

Definition bindE {A B} (m : Exc A) (k : A -> Exc B) : Exc B :=
  match m with
  | Ret a => k a
  | Throw e => Throw e
  end.

Notation "'let!' x ':=' m 'in' k" := (bindE m (fun x => k))
  (at level 10, x name, m at level 100, k at level 200).

(** How a promise settles. *)
Inductive Settled (A : Type) :=
| Fulfilled (a : A)
| Rejected (e : JsError).
Arguments Fulfilled {A} a.
Arguments Rejected {A} e.

(** ToBoolean. *)
Definition truthy (v : JsValue) : bool :=
  match v with
  | VUndefined | VNull => false
  | VBool b => b
  | VNum n => negb (n =? 0)
  | VStr s => negb (String.eqb s EmptyString)
  | VArr _ | VObj _ => true
  end.

Fixpoint lookup_field (k : string) (fields : list (string * JsValue)) : option JsValue :=
  match fields with
  | [] => None
  | (k', v) :: rest => if String.eqb k k' then Some v else lookup_field k rest
  end.

(** [v.k] for the property names the code reads ([errors], [data],
    [Studio]): a [TypeError] on [null] and [undefined], the field of an
    object, [undefined] on everything else. *)
Definition get_prop (v : JsValue) (k : string) : Exc JsValue :=
  match v with
  | VUndefined | VNull => Throw TypeError
  | VObj fields =>
      match lookup_field k fields with
      | Some x => Ret x
      | None => Ret VUndefined
      end
  | _ => Ret VUndefined
  end.

(** [has_field v k]: the parsed value is an object with a field [k]. *)
Definition has_field (v : JsValue) (k : string) : bool :=
  match v with
  | VObj fields => match lookup_field k fields with Some _ => true | None => false end
  | _ => false
  end.

(** The outcome of [res.json()] and of [fetch]. *)
Inductive JsonOutcome :=
| JsonThrows
| JsonValue (v : JsValue).

Inductive FetchOutcome :=
| FetchThrows
| FetchResponse (ok : bool) (body : JsonOutcome).

Definition await_fetch (o : FetchOutcome) : Exc (bool * JsonOutcome) :=
  match o with
  | FetchThrows => Throw NetworkError
  | FetchResponse ok body => Ret (ok, body)
  end.

Definition await_json (b : JsonOutcome) : Exc JsValue :=
  match b with
  | JsonThrows => Throw ParseError
  | JsonValue v => Ret v
  end.

(** The body of the [try] block. *)
Definition callAnilistStudio_try (o : FetchOutcome) : Exc bool :=
  let! res := await_fetch o in
  if negb (fst res) then Ret false else
  let! json := await_json (snd res) in
  let! errors := get_prop json "errors"%string in
  if truthy errors then Ret false else
  let! data := get_prop json "data"%string in
  if truthy data
  then (let! studio := get_prop data "Studio"%string in Ret (truthy studio))
  else Ret false.

(** The [catch] block: log, then [return false].  It is a computation of
    its own: were it to throw, the promise would reject. *)
Definition callAnilistStudio_catch (err : JsError) : Exc bool * list LogEntry :=
  (Ret false, [ErrNetworkOrParsing err]).

(** An [async] function whose body is [try { ... } catch (err) { ... }]:
    the promise it returns, and what it wrote to the console. *)
Definition async_try_catch {A} (body : Exc A) (handler : JsError -> Exc A * list LogEntry)
  : Settled A * list LogEntry :=
  match body with
  | Ret a => (Fulfilled a, [])
  | Throw e =>
      match handler e with
      | (Ret a, l) => (Fulfilled a, l)
      | (Throw e', l) => (Rejected e', l)
      end
  end.

Definition callAnilistStudio (o : FetchOutcome) : Settled bool * list LogEntry :=
  async_try_catch (callAnilistStudio_try o) callAnilistStudio_catch.

(* ===================================================================== *)
(** ** App.tsx: data *)
(* ===================================================================== *)

(** A timer armed by [window.setTimeout] in the counter effect.  Its
    callback closes over the [count] of the render that armed it. *)
Record Timer := mkTimer {
  timer_id : Z;
  timer_due : Z;
  timer_count : Z
}.

(** An in-flight call of [callAnilistStudio].  The handlers chained on it
    close over the watched value of the render that issued it and over
    that run's [let mounted] variable, here an index into [mounted_vars]. *)
Inductive RequestKind :=
| ToggleReq (d : bool)
| CountReq (c : Z).

Record Request := mkRequest {
  req_id : nat;
  req_kind : RequestKind;
  req_mounted : nat
}.

(** One entry per call of [callAnilistStudio], with the caller. *)
Inductive Attempt :=
| ToggleAttempt (d : bool)
| CountAttempt (tid : Z) (c : Z).

(** The component instance and the part of the browser it talks to.

    - [count], [uiState], [isSaving]: the [useState]/[useReducer] cells;
    - [prevDisableRef], [prevCountRef], [countTimeoutRef]: the refs;
    - [dep_disable], [dep_count]: the dependency arrays of the last commit;
    - [toggle_cleanup], [count_cleanup]: the cleanup the last run of each
      effect returned, if any (the toggle cleanup closes over a [mounted]
      variable, the counter cleanup only reads [countTimeoutRef]);
    - [mounted_vars]: the store of [let mounted] variables, shared between
      an effect run, its handlers and its cleanup;
    - [timers], [inflight]: armed timers and pending requests;
    - [attempts], [console]: what has been observed so far;
    - [alive]: the component is mounted. *)
Record App := mkApp {
  count : Z;
  uiState : UIState;
  isSaving : bool;
  prevDisableRef : bool;
  prevCountRef : Z;
  countTimeoutRef : option Z;
  dep_disable : bool;
  dep_count : Z;
  toggle_cleanup : option nat;
  count_cleanup : bool;
  mounted_vars : list bool;
  timers : list Timer;
  next_timer : Z;
  inflight : list Request;
  next_req : nat;
  attempts : list Attempt;
  console : list LogEntry;
  now : Z;
  alive : bool
}.

Definition set_count (v : Z) (s : App) : App :=
  mkApp v (uiState s) (isSaving s) (prevDisableRef s) (prevCountRef s)
    (countTimeoutRef s) (dep_disable s) (dep_count s) (toggle_cleanup s)
    (count_cleanup s) (mounted_vars s) (timers s) (next_timer s)
    (inflight s) (next_req s) (attempts s) (console s) (now s) (alive s).

Definition set_uiState (v : UIState) (s : App) : App :=
  mkApp (count s) v (isSaving s) (prevDisableRef s) (prevCountRef s)
    (countTimeoutRef s) (dep_disable s) (dep_count s) (toggle_cleanup s)
    (count_cleanup s) (mounted_vars s) (timers s) (next_timer s)
    (inflight s) (next_req s) (attempts s) (console s) (now s) (alive s).

Definition set_isSaving (v : bool) (s : App) : App :=
  mkApp (count s) (uiState s) v (prevDisableRef s) (prevCountRef s)
    (countTimeoutRef s) (dep_disable s) (dep_count s) (toggle_cleanup s)
    (count_cleanup s) (mounted_vars s) (timers s) (next_timer s)
    (inflight s) (next_req s) (attempts s) (console s) (now s) (alive s).

Definition set_prevDisableRef (v : bool) (s : App) : App :=
  mkApp (count s) (uiState s) (isSaving s) v (prevCountRef s)
    (countTimeoutRef s) (dep_disable s) (dep_count s) (toggle_cleanup s)
    (count_cleanup s) (mounted_vars s) (timers s) (next_timer s)
    (inflight s) (next_req s) (attempts s) (console s) (now s) (alive s).

Definition set_prevCountRef (v : Z) (s : App) : App :=
  mkApp (count s) (uiState s) (isSaving s) (prevDisableRef s) v
    (countTimeoutRef s) (dep_disable s) (dep_count s) (toggle_cleanup s)
    (count_cleanup s) (mounted_vars s) (timers s) (next_timer s)
    (inflight s) (next_req s) (attempts s) (console s) (now s) (alive s).

Definition set_countTimeoutRef (v : option Z) (s : App) : App :=
  mkApp (count s) (uiState s) (isSaving s) (prevDisableRef s)
    (prevCountRef s) v (dep_disable s) (dep_count s) (toggle_cleanup s)
    (count_cleanup s) (mounted_vars s) (timers s) (next_timer s)
    (inflight s) (next_req s) (attempts s) (console s) (now s) (alive s).

Definition set_dep_disable (v : bool) (s : App) : App :=
  mkApp (count s) (uiState s) (isSaving s) (prevDisableRef s)
    (prevCountRef s) (countTimeoutRef s) v (dep_count s) (toggle_cleanup s)
    (count_cleanup s) (mounted_vars s) (timers s) (next_timer s)
    (inflight s) (next_req s) (attempts s) (console s) (now s) (alive s).

Definition set_dep_count (v : Z) (s : App) : App :=
  mkApp (count s) (uiState s) (isSaving s) (prevDisableRef s)
    (prevCountRef s) (countTimeoutRef s) (dep_disable s) v
    (toggle_cleanup s) (count_cleanup s) (mounted_vars s) (timers s)
    (next_timer s) (inflight s) (next_req s) (attempts s) (console s)
    (now s) (alive s).

Definition set_toggle_cleanup (v : option nat) (s : App) : App :=
  mkApp (count s) (uiState s) (isSaving s) (prevDisableRef s)
    (prevCountRef s) (countTimeoutRef s) (dep_disable s) (dep_count s) v
    (count_cleanup s) (mounted_vars s) (timers s) (next_timer s)
    (inflight s) (next_req s) (attempts s) (console s) (now s) (alive s).

Definition set_count_cleanup (v : bool) (s : App) : App :=
  mkApp (count s) (uiState s) (isSaving s) (prevDisableRef s)
    (prevCountRef s) (countTimeoutRef s) (dep_disable s) (dep_count s)
    (toggle_cleanup s) v (mounted_vars s) (timers s) (next_timer s)
    (inflight s) (next_req s) (attempts s) (console s) (now s) (alive s).

Definition set_mounted_vars (v : list bool) (s : App) : App :=
  mkApp (count s) (uiState s) (isSaving s) (prevDisableRef s)
    (prevCountRef s) (countTimeoutRef s) (dep_disable s) (dep_count s)
    (toggle_cleanup s) (count_cleanup s) v (timers s) (next_timer s)
    (inflight s) (next_req s) (attempts s) (console s) (now s) (alive s).

Definition set_timers (v : list Timer) (s : App) : App :=
  mkApp (count s) (uiState s) (isSaving s) (prevDisableRef s)
    (prevCountRef s) (countTimeoutRef s) (dep_disable s) (dep_count s)
    (toggle_cleanup s) (count_cleanup s) (mounted_vars s) v (next_timer s)
    (inflight s) (next_req s) (attempts s) (console s) (now s) (alive s).

Definition set_next_timer (v : Z) (s : App) : App :=
  mkApp (count s) (uiState s) (isSaving s) (prevDisableRef s)
    (prevCountRef s) (countTimeoutRef s) (dep_disable s) (dep_count s)
    (toggle_cleanup s) (count_cleanup s) (mounted_vars s) (timers s) v
    (inflight s) (next_req s) (attempts s) (console s) (now s) (alive s).

Definition set_inflight (v : list Request) (s : App) : App :=
  mkApp (count s) (uiState s) (isSaving s) (prevDisableRef s)
    (prevCountRef s) (countTimeoutRef s) (dep_disable s) (dep_count s)
    (toggle_cleanup s) (count_cleanup s) (mounted_vars s) (timers s)
    (next_timer s) v (next_req s) (attempts s) (console s) (now s) (alive s).

Definition set_next_req (v : nat) (s : App) : App :=
  mkApp (count s) (uiState s) (isSaving s) (prevDisableRef s)
    (prevCountRef s) (countTimeoutRef s) (dep_disable s) (dep_count s)
    (toggle_cleanup s) (count_cleanup s) (mounted_vars s) (timers s)
    (next_timer s) (inflight s) v (attempts s) (console s) (now s) (alive s).

Definition set_attempts (v : list Attempt) (s : App) : App :=
  mkApp (count s) (uiState s) (isSaving s) (prevDisableRef s)
    (prevCountRef s) (countTimeoutRef s) (dep_disable s) (dep_count s)
    (toggle_cleanup s) (count_cleanup s) (mounted_vars s) (timers s)
    (next_timer s) (inflight s) (next_req s) v (console s) (now s) (alive s).

Definition set_console (v : list LogEntry) (s : App) : App :=
  mkApp (count s) (uiState s) (isSaving s) (prevDisableRef s)
    (prevCountRef s) (countTimeoutRef s) (dep_disable s) (dep_count s)
    (toggle_cleanup s) (count_cleanup s) (mounted_vars s) (timers s)
    (next_timer s) (inflight s) (next_req s) (attempts s) v (now s)
    (alive s).

Definition set_now (v : Z) (s : App) : App :=
  mkApp (count s) (uiState s) (isSaving s) (prevDisableRef s)
    (prevCountRef s) (countTimeoutRef s) (dep_disable s) (dep_count s)
    (toggle_cleanup s) (count_cleanup s) (mounted_vars s) (timers s)
    (next_timer s) (inflight s) (next_req s) (attempts s) (console s) v
    (alive s).

Definition set_alive (v : bool) (s : App) : App :=
  mkApp (count s) (uiState s) (isSaving s) (prevDisableRef s)
    (prevCountRef s) (countTimeoutRef s) (dep_disable s) (dep_count s)
    (toggle_cleanup s) (count_cleanup s) (mounted_vars s) (timers s)
    (next_timer s) (inflight s) (next_req s) (attempts s) (console s)
    (now s) v.

(** [useState(0)], [useReducer(uiReducer, initialUIState)],
    [useState(false)], the refs initialised from them.  Timer handles are
    positive integers. *)
Definition initial_app : App :=
  mkApp 0 initialUIState false
        (disableButtons initialUIState) 0 None
        (disableButtons initialUIState) 0
        None false
        [] [] 1 [] 0%nat
        [] [] 0 true.

(* ===================================================================== *)
(** ** App.tsx: state setters, timers, requests *)
(* ===================================================================== *)

(** React drops updates addressed to an unmounted component. *)
Definition setCount (f : Z -> Z) (s : App) : App :=
  if alive s then set_count (f (count s)) s else s.

Definition setIsSaving (b : bool) (s : App) : App :=
  if alive s then set_isSaving b s else s.

Definition uiDispatch (a : UIAction) (s : App) : App :=
  if alive s then set_uiState (uiReducer (uiState s) a) s else s.

Definition handleIncrement (s : App) : App := setCount (fun prev => prev + 1) s.
Definition handleReset (s : App) : App := setCount (fun _ => 0) s.
Definition toggleDisabled (s : App) : App := uiDispatch TOGGLE_DISABLE s.

Definition console_log (e : LogEntry) (s : App) : App :=
  set_console (console s ++ [e]) s.

Definition window_clearTimeout (id : Z) (s : App) : App :=
  set_timers (List.filter (fun t => negb (timer_id t =? id)) (timers s)) s.

Definition window_setTimeout (c : Z) (delay : Z) (s : App) : Z * App :=
  let id := next_timer s in
  (id, set_next_timer (id + 1)
         (set_timers (timers s ++ [mkTimer id (now s + delay) c]) s)).

(** [if (countTimeoutRef.current)] on a [number | null]. *)
Definition ref_truthy (r : option Z) : bool :=
  match r with
  | Some n => negb (n =? 0)
  | None => false
  end.

(** [let mounted = true]: a fresh variable in the store. *)
Definition new_mounted (s : App) : nat * App :=
  (length (mounted_vars s), set_mounted_vars (mounted_vars s ++ [true]) s).

Definition read_mounted (m : nat) (s : App) : bool :=
  match mounted_vars s !! m with
  | Some b => b
  | None => false
  end.

Definition write_mounted (m : nat) (b : bool) (s : App) : App :=
  set_mounted_vars (<[m := b]> (mounted_vars s)) s.

(** The call [callAnilistStudio()]: the request goes in flight and the
    attempt is recorded. *)
Definition start_request (k : RequestKind) (m : nat) (a : Attempt) (s : App) : App :=
  set_attempts (attempts s ++ [a])
    (set_next_req (S (next_req s))
       (set_inflight (inflight s ++ [mkRequest (next_req s) k m]) s)).

(* ===================================================================== *)
(** ** App.tsx: the toggle effect, [useEffect(..., [uiState.disableButtons])] *)
(* ===================================================================== *)

(** The effect body, run for the render whose state is [s].  It leaves in
    [toggle_cleanup] the cleanup it returns. *)
Definition toggle_effect (s : App) : App :=
  let d := disableButtons (uiState s) in
  if Bool.eqb (prevDisableRef s) d then
    set_toggle_cleanup None (set_prevDisableRef d s)
  else
    let (m, s1) := new_mounted s in
    let s2 := setIsSaving true s1 in
    let s3 := start_request (ToggleReq d) m (ToggleAttempt d) s2 in
    set_toggle_cleanup (Some m) s3.

(** [() => { mounted = false; }] *)
Definition toggle_cleanup_run (m : nat) (s : App) : App :=
  write_mounted m false s.

(** [.then(success => ...)] *)
Definition toggle_then (m : nat) (success : bool) (s : App) : App :=
  if negb (read_mounted m s) then s
  else if negb success then uiDispatch (SET_DISABLE (prevDisableRef s)) s
  else s.

(** [.catch(err => ...)] *)
Definition toggle_catch (err : JsError) (s : App) : App :=
  uiDispatch (SET_DISABLE (prevDisableRef s)) (console_log (ErrRequestFailed err) s).

(** [.finally(() => ...)]; [d] is the [uiState.disableButtons] of the
    render that ran the effect. *)
Definition toggle_finally (m : nat) (d : bool) (s : App) : App :=
  let s1 := if read_mounted m s then setIsSaving false s else s in
  set_prevDisableRef d s1.

(* ===================================================================== *)
(** ** App.tsx: the counter effect, [useEffect(..., [count])] *)
(* ===================================================================== *)

Definition debounce_delay : Z := 300.

(** The function handed to [window.setTimeout], for the timer [tid] armed
    by the render with [count = c].  It returns the [mounted] variable its
    returned arrow function would clear. *)
Definition count_timeout_callback (tid : Z) (c : Z) (s : App) : App * nat :=
  let (m, s1) := new_mounted s in
  let s2 := setIsSaving true s1 in
  let s3 := start_request (CountReq c) m (CountAttempt tid c) s2 in
  (s3, m).

Definition count_effect (s : App) : App :=
  let c := count s in
  if prevCountRef s =? c then
    set_count_cleanup false (set_prevCountRef c s)
  else
    let s1 := match countTimeoutRef s with
              | Some id => if ref_truthy (Some id) then window_clearTimeout id s else s
              | None => s
              end in
    let (id, s2) := window_setTimeout c debounce_delay s1 in
    set_count_cleanup true (set_countTimeoutRef (Some id) s2).

(** The cleanup the effect returns. *)
Definition count_cleanup_run (s : App) : App :=
  match countTimeoutRef s with
  | Some id =>
      if ref_truthy (Some id)
      then set_countTimeoutRef None (window_clearTimeout id s)
      else s
  | None => s
  end.

(** [.then(success => ...)] *)
Definition count_then (m : nat) (success : bool) (s : App) : App :=
  if negb (read_mounted m s) then s
  else if negb success then console_log WarnCountUnsuccessful s
  else s.

(** [.catch(err => ...)] *)
Definition count_catch (err : JsError) (s : App) : App :=
  console_log (ErrCountFailed err) s.

(** [.finally(() => ...)]; [c] is the [count] of the render that armed the
    timer. *)
Definition count_finally (m : nat) (c : Z) (s : App) : App :=
  let s1 := if read_mounted m s then setIsSaving false s else s in
  set_prevCountRef c s1.

(* ===================================================================== *)
(** ** The runtime: commits, timers, promises, events *)
(* ===================================================================== *)

(** [p.then(f).catch(g).finally(h)] for handlers that do not throw: [f] on
    fulfilment, [g] on rejection, then [h]. *)
Definition promise_chain {A} (p : Settled A)
    (f : A -> App -> App) (g : JsError -> App -> App) (h : App -> App)
    (s : App) : App :=
  h (match p with
     | Fulfilled a => f a s
     | Rejected e => g e s
     end).

Definition settle_request (q : Request) (p : Settled bool) (s : App) : App :=
  match req_kind q with
  | ToggleReq d =>
      promise_chain p (toggle_then (req_mounted q)) toggle_catch
                    (toggle_finally (req_mounted q) d) s
  | CountReq c =>
      promise_chain p (count_then (req_mounted q)) count_catch
                    (count_finally (req_mounted q) c) s
  end.

(** The commit that follows a render: for each effect whose dependency
    changed, first the cleanup of its previous run, then (after all
    cleanups) its body.  The effects only set [isSaving], which is no
    dependency, so the render they schedule runs no effect. *)
Definition commit (s : App) : App :=
  if negb (alive s) then s else
  let d_changed := negb (Bool.eqb (dep_disable s) (disableButtons (uiState s))) in
  let c_changed := negb (dep_count s =? count s) in
  let s1 := if d_changed
            then match toggle_cleanup s with
                 | Some m => toggle_cleanup_run m s
                 | None => s
                 end
            else s in
  let s2 := if c_changed
            then (if count_cleanup s1 then count_cleanup_run s1 else s1)
            else s1 in
  let s3 := if d_changed
            then set_dep_disable (disableButtons (uiState s2)) (toggle_effect s2)
            else s2 in
  let s4 := if c_changed
            then set_dep_count (count s3) (count_effect s3)
            else s3 in
  s4.

(** The first commit runs both effects. *)
Definition mount : App := count_effect (toggle_effect initial_app).

(** Unmounting runs the cleanups that are registered. *)
Definition unmount (s : App) : App :=
  if negb (alive s) then s else
  let s1 := match toggle_cleanup s with
            | Some m => toggle_cleanup_run m s
            | None => s
            end in
  let s2 := if count_cleanup s1 then count_cleanup_run s1 else s1 in
  set_alive false (set_count_cleanup false (set_toggle_cleanup None s2)).

(** A timer fires: it leaves the timer list, its callback runs (what the
    callback returns is dropped by [setTimeout]), and the scheduled render
    commits. *)
Definition fire_timer (t : Timer) (s : App) : App :=
  if existsb (fun t' => timer_id t' =? timer_id t) (timers s) then
    let s1 := set_now (Z.max (now s) (timer_due t)) (window_clearTimeout (timer_id t) s) in
    commit (fst (count_timeout_callback (timer_id t) (timer_count t) s1))
  else s.

Fixpoint insert_by_due (t : Timer) (l : list Timer) : list Timer :=
  match l with
  | [] => [t]
  | t' :: rest =>
      if timer_due t <? timer_due t' then t :: l else t' :: insert_by_due t rest
  end.

Definition sort_by_due (l : list Timer) : list Timer :=
  fold_right insert_by_due [] (rev l).

(** [dt] time units pass: the timers due by then fire, earliest first. *)
Definition elapse (dt : Z) (s : App) : App :=
  if dt <? 0 then s else
  let target := now s + dt in
  let due := sort_by_due (List.filter (fun t => timer_due t <=? target) (timers s)) in
  set_now target (fold_left (fun s' t => fire_timer t s') due s).

Definition find_request (id : nat) (s : App) : option Request :=
  List.find (fun q => Nat.eqb (req_id q) id) (inflight s).

Definition remove_request (id : nat) (s : App) : App :=
  set_inflight (List.filter (fun q => negb (Nat.eqb (req_id q) id)) (inflight s)) s.

(** The promise of the request [id] settles as [p], the call having logged
    [l] on its way: the handler chain runs and the scheduled render
    commits. *)
Definition deliver (id : nat) (r : Settled bool * list LogEntry) (s : App) : App :=
  match find_request id s with
  | None => s
  | Some q =>
      let (p, l) := r in
      commit (settle_request q p (set_console (console s ++ l) (remove_request id s)))
  end.

(** A request settles: [callAnilistStudio] turns the outcome of its
    [fetch] into the promise the handlers are chained on. *)
Definition settle (id : nat) (o : FetchOutcome) (s : App) : App :=
  deliver id (callAnilistStudio o) s.

(** The four buttons, the clock, the network and the parent.  The
    increment, reset and "Count Animes" buttons carry
    [disabled={uiState.disableButtons}]. *)
Inductive Event :=
| ClickIncrement
| ClickReset
| ClickToggle
| ClickCountAnimes
| Elapse (dt : Z)
| Settle (id : nat) (o : FetchOutcome)
| Unmount.

Definition step (e : Event) (s : App) : App :=
  match e with
  | ClickIncrement =>
      if alive s && negb (disableButtons (uiState s)) then commit (handleIncrement s) else s
  | ClickReset =>
      if alive s && negb (disableButtons (uiState s)) then commit (handleReset s) else s
  | ClickToggle =>
      if alive s then commit (toggleDisabled s) else s
  | ClickCountAnimes =>
      if alive s && negb (disableButtons (uiState s)) then commit (toggleDisabled s) else s
  | Elapse dt => elapse dt s
  | Settle id o => settle id o s
  | Unmount => unmount s
  end.

Definition run (evs : list Event) (s : App) : App :=
  fold_left (fun s' e => step e s') evs s.

(** Some fetch outcomes. *)
Definition studio_json : JsValue :=
  VObj [("data"%string,
         VObj [("Studio"%string,
                VObj [("id"%string, VNum 10); ("name"%string, VStr "Studio"%string)])])].

Definition fetch_ok : FetchOutcome := FetchResponse true (JsonValue studio_json).
Definition fetch_http_error : FetchOutcome := FetchResponse false JsonThrows.


(* ===================================================================== *)
(** ** Specification-side definitions *)
(* ===================================================================== *)

(** The spec's reading of success: the response is ok, the parsed JSON has
    no [errors] field, and [data] with a [Studio] payload is present
    (there, and not [null]). *)
Definition present (v : JsValue) : bool :=
  match v with
  | VUndefined | VNull => false
  | _ => true
  end.

Definition payload_present (json : JsValue) : bool :=
  match get_prop json "data" with
  | Ret data =>
      present data
      && match get_prop data "Studio" with
         | Ret studio => present studio
         | Throw _ => false
         end
  | Throw _ => false
  end.

Definition success_as_specified (o : FetchOutcome) : bool :=
  match o with
  | FetchResponse true (JsonValue json) =>
      negb (has_field json "errors") && payload_present json
  | _ => false
  end.

(** What the code tests: [errors] absent or falsy, [data] truthy,
    [data.Studio] truthy. *)
Definition success_condition (o : FetchOutcome) : Prop :=
  exists json errors data studio,
    o = FetchResponse true (JsonValue json)
    /\ get_prop json "errors" = Ret errors /\ truthy errors = false
    /\ get_prop json "data" = Ret data /\ truthy data = true
    /\ get_prop data "Studio" = Ret studio /\ truthy studio = true.

(** A response whose [errors] field is present but falsy. *)
Definition fetch_null_errors : FetchOutcome :=
  FetchResponse true
    (JsonValue (VObj [("errors"%string, VNull);
                      ("data"%string,
                       VObj [("Studio"%string, VObj [("id"%string, VNum 10)])])])).


(** The dependency arrays of the last commit hold the current values. *)
Definition deps_committed (s : App) : Prop :=
  dep_disable s = disableButtons (uiState s) /\ dep_count s = count s.

(** At most one timer is armed, and it is the one [countTimeoutRef] names,
    under a registered cleanup. *)
Definition timers_tracked (s : App) : Prop :=
  timers s = [] \/
  exists t, timers s = [t]
            /\ countTimeoutRef s = Some (timer_id t)
            /\ count_cleanup s = true
            /\ alive s = true
            /\ 0 < timer_id t < next_timer s.

(** A timer that has fired is no longer armed, and handles are not reused. *)
Definition attempts_fired (s : App) : Prop :=
  forall id v, In (CountAttempt id v) (attempts s) ->
    id < next_timer s /\ forall t, In t (timers s) -> timer_id t <> id.

Definition requests_fresh (s : App) : Prop :=
  forall q, In q (inflight s) -> (req_id q < next_req s)%nat.

Record Inv (s : App) : Prop := mkInv {
  inv_deps : deps_committed s;
  inv_next_timer : 0 < next_timer s;
  inv_timers : timers_tracked s;
  inv_attempts : attempts_fired s;
  inv_requests : requests_fresh s
}.

(** The timer handle [id] has been issued, is not armed and has not fired. *)
Definition cancelled (id : Z) (s : App) : Prop :=
  id < next_timer s
  /\ (forall t, In t (timers s) -> timer_id t <> id)
  /\ (forall v, ~ In (CountAttempt id v) (attempts s)).

(** The two buttons that change the counter. *)
Inductive CountClick :=
| BtnIncrement
| BtnReset.

Definition click_event (c : CountClick) : Event :=
  match c with
  | BtnIncrement => ClickIncrement
  | BtnReset => ClickReset
  end.

Definition click_value (c : CountClick) (n : Z) : Z :=
  match c with
  | BtnIncrement => n + 1
  | BtnReset => 0
  end.

(** A burst of counter changes: each click comes less than the debounce
    delay after the previous one and does change the counter. *)
Fixpoint rapid (n : Z) (l : list (Z * CountClick)) : bool :=
  match l with
  | [] => true
  | (dt, c) :: rest =>
      (0 <=? dt) && (dt <? debounce_delay)
      && negb (click_value c n =? n)
      && rapid (click_value c n) rest
  end.

Fixpoint rapid_run (l : list (Z * CountClick)) (s : App) : App :=
  match l with
  | [] => s
  | (dt, c) :: rest => rapid_run rest (step (click_event c) (step (Elapse dt) s))
  end.

(** Exactly one call of [callAnilistStudio] was added to [old], by the
    counter path, for the value [v]. *)
Definition one_count_attempt (v : Z) (old new : list Attempt) : Prop :=
  exists tid, new = old ++ [CountAttempt tid v].

(** The part of [Inv] that does not mention the dependency arrays; it also
    holds between a state update and the commit that follows. *)
Definition Core (s : App) : Prop :=
  0 < next_timer s /\ timers_tracked s /\ attempts_fired s /\ requests_fresh s.

(** What one transition may do to timers and attempts: handles only grow,
    a timer is either kept or new, and a call of [callAnilistStudio] by the
    counter path comes from a timer that was armed. *)
Definition advances (s s' : App) : Prop :=
  next_timer s <= next_timer s'
  /\ (forall t, In t (timers s') -> In t (timers s) \/ next_timer s <= timer_id t)
  /\ (forall a, In a (attempts s') ->
        In a (attempts s)
        \/ (exists d, a = ToggleAttempt d)
        \/ (exists t, In t (timers s) /\ a = CountAttempt (timer_id t) (timer_count t))).

(** The state right after a counter change: no timer if the counter is
    back at the value [prevCountRef] holds, else one timer for the current
    value, due a full delay from now. *)
Definition freshly_armed (s : App) : Prop :=
  (timers s = [] /\ prevCountRef s = count s)
  \/ (exists id, timers s = [mkTimer id (now s + debounce_delay) (count s)]
                 /\ prevCountRef s <> count s).

(** Scenarios. *)

(** Three quick toggles: the first attempt is still in flight, its effect
    has been torn down, and the flag is [true]. *)
Definition three_toggles : App := run [ClickToggle; ClickToggle; ClickToggle] mount.

(** The counter is 1 and its notification is in flight when the counter
    changes to 2. *)
Definition superseded_in_flight : App :=
  run [ClickIncrement; Elapse 300; ClickIncrement] mount.


(* ===================================================================== *)
(** ** Further definitions: calls per transition, toggle rounds *)
(* ===================================================================== *)

(** The timer handles of the counter attempts, in order. *)
Fixpoint attempt_timers (l : list Attempt) : list Z :=
  match l with
  | [] => []
  | ToggleAttempt _ :: rest => attempt_timers rest
  | CountAttempt tid _ :: rest => tid :: attempt_timers rest
  end.

(** What one transition adds to the list of attempts: nothing, one call by
    the toggle effect, or one call by the callback of an armed timer. *)
Definition one_call (s s' : App) : Prop :=
  attempts s' = attempts s
  \/ (exists d, attempts s' = attempts s ++ [ToggleAttempt d])
  \/ (exists t, In t (timers s)
                /\ attempts s' = attempts s ++ [CountAttempt (timer_id t) (timer_count t)]).

(** The request issued last settles with the outcome [o]. *)
Definition settle_latest (o : FetchOutcome) (s : App) : App :=
  match rev (inflight s) with
  | q :: _ => step (Settle (req_id q) o) s
  | [] => s
  end.

(** A click on the toggle button, answered before anything else happens. *)
Definition toggle_round (o : FetchOutcome) (s : App) : App :=
  settle_latest o (step ClickToggle s).

(** The toggle effect is waiting for the answer to the attempt it issued
    for the current flag. *)
Definition awaiting_toggle (s : App) : Prop :=
  alive s = true
  /\ prevDisableRef s = negb (disableButtons (uiState s))
  /\ exists older id m,
       inflight s = older ++ [mkRequest id (ToggleReq (disableButtons (uiState s))) m]
       /\ (forall q, In q older -> (req_id q < id)%nat)
       /\ read_mounted m s = true
       /\ toggle_cleanup s = Some m.

(* ===================================================================== *)
(** ** store/uiReducer.ts as used by [useReducer]: a history of actions *)
(* ===================================================================== *)

Definition dispatch_all (actions : list UIAction) (state : UIState) : UIState :=
  fold_left uiReducer actions state.

(* ===================================================================== *)
(** ** components/Button.tsx *)
(* ===================================================================== *)

(** [`${n}`] for an integer [n]. *)
Definition template_number (n : Z) : string :=
  NilEmpty.string_of_int (Z.to_int n).

(** [`${v}`] for a [string | undefined]. *)
Definition template_string (v : option string) : string :=
  match v with
  | Some s => s
  | None => "undefined"
  end.

Module ButtonTsx.

Inductive ButtonType :=
| primary
| secondary
| danger.

Definition type_key (t : ButtonType) : string :=
  match t with
  | primary => "primary"
  | secondary => "secondary"
  | danger => "danger"
  end.

(** [ButtonProps], with [H] the type of the click handler; an optional prop
    that is left out is [None]. *)
Record ButtonProps (H : Type) := mkButtonProps {
  text : string;
  onClick : H;
  type : option ButtonType;
  disabled : option bool;
  ariaLabel : option string
}.
Arguments mkButtonProps {H}.
Arguments text {H}.
Arguments onClick {H}.
Arguments type {H}.
Arguments disabled {H}.
Arguments ariaLabel {H}.

(** The [<button>] element the component returns. *)
Record ButtonElement (H : Type) := mkButtonElement {
  className : string;
  el_onClick : H;
  el_disabled : bool;
  aria_label : string;
  aria_disabled : bool;
  children : string
}.
Arguments mkButtonElement {H}.
Arguments className {H}.
Arguments el_onClick {H}.
Arguments el_disabled {H}.
Arguments aria_label {H}.
Arguments aria_disabled {H}.
Arguments children {H}.

(** [a || b] on strings: the empty string is falsy. *)
Definition or_else (a : option string) (b : string) : string :=
  match a with
  | Some s => if String.eqb s EmptyString then b else s
  | None => b
  end.

(** The component; [styles] is the imported CSS module. *)
Definition Button {H : Type} (styles : string -> option string)
    (props : ButtonProps H) : ButtonElement H :=
  let type := match type props with Some t => t | None => primary end in
  let disabled := match disabled props with Some d => d | None => false end in
  let buttonClass :=
    (template_string (styles "button") ++ " "
       ++ template_string (styles (type_key type)))%string in
  mkButtonElement buttonClass (onClick props) disabled
    (or_else (ariaLabel props) ("Button: " ++ text props)%string)
    disabled
    (text props).

End ButtonTsx.

(* ===================================================================== *)
(** ** App.tsx: what the component renders *)
(* ===================================================================== *)

(** The four [<Button>] elements of the JSX, in order, with the handlers
    they are given. *)
Definition App_buttons (s : App) : list (ButtonTsx.ButtonProps (App -> App)) :=
  let d := disableButtons (uiState s) in
  [ ButtonTsx.mkButtonProps
      ("Increment (" ++ template_number (count s) ++ ")")%string
      handleIncrement (Some ButtonTsx.primary) (Some d)
      (Some ("Increment counter. Current count: " ++ template_number (count s))%string);
    ButtonTsx.mkButtonProps
      "Reset Counter"%string
      handleReset (Some ButtonTsx.secondary) (Some d)
      (Some "Reset counter to zero"%string);
    ButtonTsx.mkButtonProps
      (if d then "Enable Buttons" else "Disable Buttons")%string
      toggleDisabled (Some (if d then ButtonTsx.primary else ButtonTsx.danger)) None
      (Some (if d then "Enable all buttons" else "Disable all buttons")%string);
    ButtonTsx.mkButtonProps
      "Count Animes Buttons"%string
      toggleDisabled (Some ButtonTsx.primary) (Some d)
      None ].

Definition App_render (styles : string -> option string) (s : App)
  : list (ButtonTsx.ButtonElement (App -> App)) :=
  List.map (ButtonTsx.Button styles) (App_buttons s).

(** A click on a rendered button of the mounted component: a disabled
    [<button>] dispatches no click; otherwise the handler runs and the
    render it schedules commits. *)
Definition click_button (b : ButtonTsx.ButtonElement (App -> App)) (s : App) : App :=
  if alive s && negb (ButtonTsx.el_disabled b)
  then commit (ButtonTsx.el_onClick b s)
  else s.

(* ===================================================================== *)
(** ** examples/HooksExample.tsx *)
(* ===================================================================== *)

Module HooksExample.

(** The two [useState] cells, [document.title], and the dependency of the
    last run of the effect. *)
Record State := mkState {
  count : Z;
  name : string;
  title : string;
  dep_count : Z
}.

Inductive Event :=
| ClickIncrement
| ClickDecrement
| ClickReset
| ChangeName (value : string).

(** [document.title = `Count: ${count}`] *)
Definition effect (s : State) : State :=
  mkState (count s) (name s) ("Count: " ++ template_number (count s))%string (count s).

Definition commit (s : State) : State :=
  if dep_count s =? count s then s else effect s.

(** The first commit runs the effect, whatever the title was. *)
Definition mount (title0 : string) : State :=
  effect (mkState 0 "Guest" title0 0).

Definition setCount (f : Z -> Z) (s : State) : State :=
  mkState (f (count s)) (name s) (title s) (dep_count s).

Definition setName (v : string) (s : State) : State :=
  mkState (count s) v (title s) (dep_count s).

Definition step (e : Event) (s : State) : State :=
  match e with
  | ClickIncrement => commit (setCount (fun c => c + 1) s)
  | ClickDecrement => commit (setCount (fun c => c - 1) s)
  | ClickReset => commit (setCount (fun _ => 0) s)
  | ChangeName v => commit (setName v s)
  end.

Definition run (evs : list Event) (s : State) : State :=
  fold_left (fun s' e => step e s') evs s.

End HooksExample.

(* ===================================================================== *)
(** ** examples/CounterReducer.tsx *)
(* ===================================================================== *)

Module CounterReducer.

Record State := mkState { count : Z }.

Inductive Action :=
| increment
| decrement
| reset.

(** [count] is a JavaScript number.  From the initial state it only takes
    integer values; an integer-valued double is held here as the integer it
    denotes.  [round_double] is the rounding of IEEE 754 binary64 (to
    nearest, ties to even) that [+] and [-] apply to their exact result:
    an integer of magnitude at most 2^53 is kept, a larger one is rounded
    to 53 significant bits. *)
Definition round_double (z : Z) : Z :=
  let a := Z.abs z in
  if a <=? 2 ^ 53 then z
  else
    let ulp := 2 ^ (Z.log2 a - 52) in
    let q := a / ulp in
    let r := a mod ulp in
    let q' :=
      if 2 * r <? ulp then q
      else if ulp <? 2 * r then q + 1
      else if Z.even q then q else q + 1 in
    Z.sgn z * (q' * ulp).

Definition reducer (state : State) (action : Action) : State :=
  match action with
  | increment => mkState (round_double (count state + 1))
  | decrement => mkState (round_double (count state - 1))
  | reset => mkState 0
  end.

(** [useReducer(reducer, { count: 0 })] *)
Definition initial : State := mkState 0.

Definition dispatch_all (actions : list Action) (state : State) : State :=
  fold_left reducer actions state.

Definition Action_eq_dec (a b : Action) : {a = b} + {a <> b}.
Proof. decide equality. Defined.

(** How often [a] was dispatched. *)
Definition dispatched (a : Action) (actions : list Action) : Z :=
  Z.of_nat (count_occ Action_eq_dec actions a).

End CounterReducer.

(* ===================================================================== *)
(** ** Superseded timers *)
(* ===================================================================== *)

(** What is armed after a transition that supersedes the armed timer. *)
Definition timers_after_superseding (e : Event) (s : App) : list Timer :=
  match e with
  | Unmount => []
  | _ =>
      if prevCountRef s =? count (step e s) then []
      else [mkTimer (next_timer s) (now s + debounce_delay) (count (step e s))]
  end.

(** [s'] has the component state (but for [isSaving]), the console and the
    mounted status of [s]. *)
Definition same_state (s s' : App) : Prop :=
  uiState s' = uiState s /\ count s' = count s /\ console s' = console s
  /\ alive s' = alive s.

(* ===================================================================== *)
(** ** Bursts of counter changes among other events *)
(* ===================================================================== *)

Definition is_count_attempt (a : Attempt) : bool :=
  match a with
  | CountAttempt _ _ => true
  | ToggleAttempt _ => false
  end.

(** The calls of [callAnilistStudio] made by the counter path, in order. *)
Definition count_attempts (l : list Attempt) : list Attempt :=
  List.filter is_count_attempt l.

(** The events [evs], run from [s], continue a burst: the component is not
    unmounted and, whatever else happens, the time passed since the last
    change of the counter stays below the debounce delay.  [since] is the
    time passed since the last change and [g] the value [prevCountRef] held
    when that change was made (the value the effect of that change compares
    the counter with); the result is what they are after [evs]. *)
Fixpoint burst (since g : Z) (evs : list Event) (s : App) : option (Z * Z) :=
  match evs with
  | [] => Some (since, g)
  | e :: rest =>
      match e with
      | Unmount => None
      | Elapse dt =>
          if (0 <=? dt) && (since + dt <? debounce_delay)
          then burst (since + dt) g rest (step e s)
          else None
      | _ =>
          if count (step e s) =? count s
          then burst since g rest (step e s)
          else burst 0 (prevCountRef s) rest (step e s)
      end
  end.

(** During a burst: [since] time units after the last change of the
    counter, made when [prevCountRef] held [g], no timer is armed if the
    counter went back to [g], and else one timer is armed for the current
    value, due a full delay after that change. *)
Definition burst_armed (since g : Z) (s : App) : Prop :=
  0 <= since < debounce_delay
  /\ ((g = count s /\ timers s = [])
      \/ (g <> count s
          /\ exists id, timers s = [mkTimer id (now s - since + debounce_delay) (count s)])).

(* ===================================================================== *)
(** ** Torn-down toggle effects *)
(* ===================================================================== *)

(** The part of the state the teardown of the toggle effect is about: the
    store of [mounted] variables, the requests in flight, the registered
    cleanup, and whether the component is mounted. *)
Definition toggle_view (s : App) : list bool * list Request * option nat * bool :=
  (mounted_vars s, inflight s, toggle_cleanup s, alive s).

(** Every [mounted] variable in use has been allocated; a toggle request
    whose variable still holds [true] was issued by the run of the effect
    whose cleanup is registered; an unmounted component has no cleanup
    registered. *)
Definition tracked (vars : list bool) (reqs : list Request) (cl : option nat)
    (al : bool) : Prop :=
  (forall m, cl = Some m -> (m < length vars)%nat)
  /\ (forall q, In q reqs -> (req_mounted q < length vars)%nat)
  /\ (forall q d, In q reqs -> req_kind q = ToggleReq d ->
        vars !! req_mounted q = Some true -> cl = Some (req_mounted q))
  /\ (al = false -> cl = None).

Definition mounted_tracked (s : App) : Prop :=
  tracked (mounted_vars s) (inflight s) (toggle_cleanup s) (alive s).

(** The [mounted] variable [m] has been set to [false] by a cleanup. *)
Definition torn_down (m : nat) (s : App) : Prop :=
  mounted_vars s !! m = Some false.

(** The event [e] tears the running toggle effect down: it unmounts the
    component, or it changes the flag (so that the effect is run again,
    after the cleanup of its previous run). *)
Definition tears_down (e : Event) (s : App) : Prop :=
  e = Unmount
  \/ disableButtons (uiState (step e s)) <> disableButtons (uiState s).

(** The store of [mounted] variables after the registered cleanup (if any)
    has run. *)
Definition cleared (cl : option nat) (vars : list bool) : list bool :=
  match cl with
  | Some m => <[m := false]> vars
  | None => vars
  end.

(** What one transition does to the [mounted] variables, the requests in
    flight and the registered cleanup. *)
Inductive view_step (s s' : App) : Prop :=
| view_kept :
    (** requests may leave, nothing else happens *)
    mounted_vars s' = mounted_vars s ->
    (forall q, In q (inflight s') -> In q (inflight s)) ->
    toggle_cleanup s' = toggle_cleanup s ->
    alive s' = alive s -> uiState s' = uiState s ->
    view_step s s'
| view_count_request (id : nat) (c : Z) :
    (** a timer fired *)
    mounted_vars s' = mounted_vars s ++ [true] ->
    inflight s' = inflight s ++ [mkRequest id (CountReq c) (length (mounted_vars s))] ->
    toggle_cleanup s' = toggle_cleanup s ->
    alive s' = alive s -> uiState s' = uiState s ->
    view_step s s'
| view_rerun_skip :
    (** the flag changed: cleanup, then the effect returns early *)
    mounted_vars s' = cleared (toggle_cleanup s) (mounted_vars s) ->
    (forall q, In q (inflight s') -> In q (inflight s)) ->
    toggle_cleanup s' = None -> alive s' = true ->
    view_step s s'
| view_rerun_request (id : nat) (d : bool) (reqs : list Request) :
    (** the flag changed: cleanup, then the effect issues a request *)
    mounted_vars s' = cleared (toggle_cleanup s) (mounted_vars s) ++ [true] ->
    (forall q, In q reqs -> In q (inflight s)) ->
    inflight s' = reqs ++ [mkRequest id (ToggleReq d)
                             (length (cleared (toggle_cleanup s) (mounted_vars s)))] ->
    toggle_cleanup s' = Some (length (cleared (toggle_cleanup s) (mounted_vars s))) ->
    alive s' = true ->
    view_step s s'
| view_unmount :
    mounted_vars s' = cleared (toggle_cleanup s) (mounted_vars s) ->
    inflight s' = inflight s ->
    toggle_cleanup s' = None -> alive s' = false -> uiState s' = uiState s ->
    view_step s s'.
(* ===================================================================== *)
(** * Properties of [uiReducer] *)
(* ===================================================================== *)

Section Reducer.

Variable state : UIState.

Lemma uiReducer_toggle_twice :
  uiReducer (uiReducer state TOGGLE_DISABLE) TOGGLE_DISABLE = state.
Proof. destruct state as [b]; cbn; now rewrite negb_involutive. Qed.

Lemma uiReducer_set_post (payload : bool) :
  disableButtons (uiReducer state (SET_DISABLE payload)) = payload.
Proof. reflexivity. Qed.

Lemma uiReducer_set_twice (payload : bool) :
  uiReducer (uiReducer state (SET_DISABLE payload)) (SET_DISABLE payload)
  = uiReducer state (SET_DISABLE payload).
Proof. reflexivity. Qed.

End Reducer.

(** C10. [uiReducer] is a function on [UIState] (total and pure by
    construction) for which two [TOGGLE_DISABLE]s restore the original
    [disableButtons] (indeed the original state), and [SET_DISABLE] is
    idempotent and leaves [disableButtons] equal to its payload, from every
    starting state. *)
Theorem uiReducer_toggle_involution_set_idempotent :
  forall (state : UIState) (payload : bool),
    disableButtons (uiReducer (uiReducer state TOGGLE_DISABLE) TOGGLE_DISABLE)
      = disableButtons state
    /\ uiReducer (uiReducer state TOGGLE_DISABLE) TOGGLE_DISABLE = state
    /\ uiReducer (uiReducer state (SET_DISABLE payload)) (SET_DISABLE payload)
       = uiReducer state (SET_DISABLE payload)
    /\ disableButtons (uiReducer state (SET_DISABLE payload)) = payload.
Proof.
  intros state payload.
  rewrite uiReducer_toggle_twice.
  repeat split.
Qed.

(* ===================================================================== *)
(** * Properties of [callAnilistStudio] *)
(* ===================================================================== *)

(** The try block never returns [true] by another route. *)
Lemma callAnilistStudio_try_true (o : FetchOutcome) :
  callAnilistStudio_try o = Ret true <-> success_condition o.
Proof.
  unfold callAnilistStudio_try, success_condition. split.
  - destruct o as [|ok body]; cbn; [discriminate|].
    destruct ok; cbn; [|discriminate].
    destruct body as [|json]; cbn; [discriminate|].
    destruct (get_prop json "errors") as [errors|] eqn:He; cbn; [|discriminate].
    destruct (truthy errors) eqn:Te; [discriminate|].
    destruct (get_prop json "data") as [data|] eqn:Hd; cbn; [|discriminate].
    destruct (truthy data) eqn:Td; [|discriminate].
    destruct (get_prop data "Studio") as [studio|] eqn:Hs; cbn; [|discriminate].
    intros H. exists json, errors, data, studio.
    repeat split; try assumption. congruence.
  - intros (json & errors & data & studio & -> & He & Te & Hd & Td & Hs & Ts).
    cbn. rewrite He. cbn. rewrite Te, Hd. cbn. rewrite Td, Hs. cbn. now rewrite Ts.
Qed.

(** The promise of [callAnilistStudio] is always fulfilled. *)
Lemma callAnilistStudio_fulfilled (o : FetchOutcome) :
  exists b l, callAnilistStudio o = (Fulfilled b, l).
Proof.
  unfold callAnilistStudio, async_try_catch.
  destruct (callAnilistStudio_try o) as [b|e].
  - now exists b, [].
  - cbn. now exists false, [ErrNetworkOrParsing e].
Qed.

Lemma callAnilistStudio_true (o : FetchOutcome) :
  fst (callAnilistStudio o) = Fulfilled true <-> success_condition o.
Proof.
  rewrite <- callAnilistStudio_try_true.
  unfold callAnilistStudio, async_try_catch.
  destruct (callAnilistStudio_try o) as [b|e]; cbn; split; congruence.
Qed.

(** C5, as stated, fails: a 200 response whose JSON carries
    ["errors": null] has an [errors] field, and the call returns [true]. *)
Lemma callAnilistStudio_null_errors_counterexample :
  success_as_specified fetch_null_errors = false
  /\ callAnilistStudio fetch_null_errors = (Fulfilled true, []).
Proof. split; reflexivity. Qed.

(** A value one property of which can be read lets every property be
    read. *)
Lemma get_prop_readable (v : JsValue) (k k' : string) (x : JsValue) :
  get_prop v k = Ret x -> exists y, get_prop v k' = Ret y.
Proof.
  destruct v; cbn; try discriminate; intros _; try (eexists; reflexivity).
  destruct (lookup_field k' fields); eexists; reflexivity.
Qed.

(** C5, amended.  [callAnilistStudio] never rejects and logs at most one
    line.  It returns [true] exactly when the response is ok,
    [json.errors] is absent or falsy, and [json.data] and
    [json.data.Studio] are truthy, and then logs nothing.  A non-ok
    response, a truthy [errors], a falsy [data], or a truthy [data] with a
    falsy [Studio] return [false] with nothing logged.  A failure of
    [fetch], a failure of [res.json()], and a [null] body (reading
    [json.errors] is then a [TypeError]) are each logged once and return
    [false]. *)
Theorem callAnilistStudio_boolean_outcome :
  forall o : FetchOutcome,
    (exists b l, callAnilistStudio o = (Fulfilled b, l) /\ (length l <= 1)%nat)
    /\ (fst (callAnilistStudio o) = Fulfilled true <-> success_condition o)
    /\ (success_condition o -> callAnilistStudio o = (Fulfilled true, []))
    /\ (forall body, o = FetchResponse false body ->
          callAnilistStudio o = (Fulfilled false, []))
    /\ (forall json errors,
          o = FetchResponse true (JsonValue json) ->
          get_prop json "errors" = Ret errors -> truthy errors = true ->
          callAnilistStudio o = (Fulfilled false, []))
    /\ (forall json data,
          o = FetchResponse true (JsonValue json) ->
          get_prop json "data" = Ret data -> truthy data = false ->
          callAnilistStudio o = (Fulfilled false, []))
    /\ (forall json data studio,
          o = FetchResponse true (JsonValue json) ->
          get_prop json "data" = Ret data -> truthy data = true ->
          get_prop data "Studio" = Ret studio -> truthy studio = false ->
          callAnilistStudio o = (Fulfilled false, []))
    /\ (o = FetchThrows ->
          callAnilistStudio o = (Fulfilled false, [ErrNetworkOrParsing NetworkError]))
    /\ (o = FetchResponse true JsonThrows ->
          callAnilistStudio o = (Fulfilled false, [ErrNetworkOrParsing ParseError]))
    /\ (o = FetchResponse true (JsonValue VNull) ->
          callAnilistStudio o = (Fulfilled false, [ErrNetworkOrParsing TypeError])).
Proof.
  intros o.
  split.
  { unfold callAnilistStudio, async_try_catch.
    destruct (callAnilistStudio_try o) as [b|e]; cbn.
    - exists b, []. split; [reflexivity | cbn; lia].
    - exists false, [ErrNetworkOrParsing e]. split; [reflexivity | cbn; lia]. }
  split; [apply callAnilistStudio_true|].
  split.
  { intros H. apply callAnilistStudio_try_true in H.
    unfold callAnilistStudio, async_try_catch. now rewrite H. }
  split; [intros body ->; reflexivity|].
  split.
  { intros json errors -> He Te.
    unfold callAnilistStudio, callAnilistStudio_try. cbn.
    rewrite He. cbn. now rewrite Te. }
  split.
  { intros json data -> Hd Td.
    unfold callAnilistStudio, callAnilistStudio_try. cbn.
    destruct (get_prop_readable json "data" "errors" data Hd) as [errors ->]. cbn.
    destruct (truthy errors); [reflexivity|].
    rewrite Hd. cbn. now rewrite Td. }
  split.
  { intros json data studio -> Hd Td Hs Ts.
    unfold callAnilistStudio, callAnilistStudio_try. cbn.
    destruct (get_prop_readable json "data" "errors" data Hd) as [errors ->]. cbn.
    destruct (truthy errors); [reflexivity|].
    rewrite Hd. cbn. rewrite Td, Hs. cbn. now rewrite Ts. }
  split; [intros ->; reflexivity|].
  split; intros ->; reflexivity.
Qed.

Lemma callAnilistStudio_boolean_outcome_witness :
  callAnilistStudio fetch_ok = (Fulfilled true, [])
  /\ callAnilistStudio fetch_http_error = (Fulfilled false, [])
  /\ callAnilistStudio
       (FetchResponse true
          (JsonValue (VObj [("data"%string, VObj [("Studio"%string, VNull)])])))
     = (Fulfilled false, []).
Proof.
  split; [|split].
  - apply (proj1 (proj2 (proj2 (callAnilistStudio_boolean_outcome fetch_ok)))).
    exists studio_json, VUndefined,
      (VObj [("Studio"%string,
              VObj [("id"%string, VNum 10); ("name"%string, VStr "Studio"%string)])]),
      (VObj [("id"%string, VNum 10); ("name"%string, VStr "Studio"%string)]).
    repeat split; reflexivity.
  - apply (proj1 (proj2 (proj2 (proj2
             (callAnilistStudio_boolean_outcome fetch_http_error)))) JsonThrows).
    reflexivity.
  - apply (proj1 (proj2 (proj2 (proj2 (proj2 (proj2 (proj2
             (callAnilistStudio_boolean_outcome
                (FetchResponse true
                   (JsonValue (VObj [("data"%string,
                                      VObj [("Studio"%string, VNull)])]))))))))))
            (VObj [("data"%string, VObj [("Studio"%string, VNull)])])
            (VObj [("Studio"%string, VNull)]) VNull);
      reflexivity.
Defined.

(* ===================================================================== *)
(** * How a commit unfolds *)
(* ===================================================================== *)

(** Nothing to do when no dependency changed. *)
Lemma commit_unchanged (s : App) :
  deps_committed s -> commit s = s.
Proof.
  intros [Hd Hc]. unfold commit.
  destruct (alive s); cbn; [|reflexivity].
  rewrite Hd, Hc, Bool.eqb_reflx, Z.eqb_refl. reflexivity.
Qed.

(** Only [count] changed: the counter cleanup, then the counter effect. *)
Lemma commit_count_changed (s : App) :
  alive s = true ->
  dep_disable s = disableButtons (uiState s) ->
  dep_count s <> count s ->
  commit s =
    let s2 := if count_cleanup s then count_cleanup_run s else s in
    set_dep_count (count s2) (count_effect s2).
Proof.
  intros Ha Hd Hc. unfold commit.
  rewrite Ha, Hd, Bool.eqb_reflx. cbn.
  destruct (Z.eqb_spec (dep_count s) (count s)); [contradiction|]. reflexivity.
Qed.

(** Only [disableButtons] changed: the toggle cleanup, then the toggle
    effect. *)
Lemma commit_disable_changed (s : App) :
  alive s = true ->
  dep_disable s <> disableButtons (uiState s) ->
  dep_count s = count s ->
  commit s =
    let s1 := match toggle_cleanup s with
              | Some m => toggle_cleanup_run m s
              | None => s
              end in
    set_dep_disable (disableButtons (uiState s1)) (toggle_effect s1).
Proof.
  intros Ha Hd Hc. unfold commit. rewrite Ha. cbn.
  destruct (Bool.eqb (dep_disable s) (disableButtons (uiState s))) eqn:E.
  - apply Bool.eqb_prop in E. contradiction.
  - cbn. rewrite Hc, Z.eqb_refl. cbn.
    destruct (toggle_cleanup s); reflexivity.
Qed.
Lemma filter_other_id (t : Timer) :
  List.filter (fun t' => negb (timer_id t' =? timer_id t)) [t] = [].
Proof. cbn. now rewrite Z.eqb_refl. Qed.

(** Closing an [Inv] goal on an explicit state from the facts about the
    state it was built from. *)
Ltac inv_fields :=
  unfold deps_committed, timers_tracked, attempts_fired, requests_fresh in *;
  cbn in *.

Ltac solve_attempts Hat :=
  let id := fresh "id" in let v := fresh "v" in let Hin := fresh "Hin" in
  intros id v Hin;
  try (apply in_app_or in Hin; destruct Hin as [Hin | [Hin | []]]; [|discriminate Hin]);
  let Hne := fresh "Hne" in
  destruct (Hat id v Hin) as [? Hne];
  split; [lia | cbn; first [ exact Hne | intros ? [<- | []]; cbn; lia | intros ? [] ]].

Ltac solve_requests Hrq :=
  first
    [ exact Hrq
    | let q := fresh "q" in let Hin := fresh "Hin" in
      intros q Hin;
      first
        [ apply in_app_or in Hin; destruct Hin as [Hin | [<- | []]];
          [ specialize (Hrq q Hin); lia | cbn; lia ]
        | apply List.filter_In in Hin; destruct Hin as [Hin _];
          specialize (Hrq q Hin); lia ] ].

Ltac solve_inv Hat Hrq :=
  inv_fields;
  constructor; inv_fields;
  [ split; reflexivity
  | lia
  | first [ left; reflexivity
          | right; eexists; repeat split; cbn; try reflexivity; lia ]
  | solve_attempts Hat
  | solve_requests Hrq ].

Lemma count_change_commit (s : App) :
  alive s = true ->
  dep_disable s = disableButtons (uiState s) ->
  dep_count s <> count s ->
  0 < next_timer s -> timers_tracked s -> attempts_fired s -> requests_fresh s ->
  let s' := commit s in
  Inv s'
  /\ timers s' = (if prevCountRef s =? count s then []
                  else [mkTimer (next_timer s) (now s + debounce_delay) (count s)])
  /\ count s' = count s /\ uiState s' = uiState s /\ isSaving s' = isSaving s
  /\ prevCountRef s' = prevCountRef s /\ prevDisableRef s' = prevDisableRef s
  /\ attempts s' = attempts s /\ inflight s' = inflight s /\ next_req s' = next_req s
  /\ console s' = console s /\ mounted_vars s' = mounted_vars s
  /\ now s' = now s /\ alive s' = true
  /\ next_timer s <= next_timer s'.
Proof.
  intros Ha Hd Hc Hn Ht Hat Hrq s'. subst s'.
  rewrite commit_count_changed by assumption.
  destruct Ht as [Ht | (t & Ht & Hr & Hcl & _ & Hid)].
  - destruct s. cbn in *. subst.
    unfold count_cleanup_run, count_effect, window_setTimeout, window_clearTimeout. cbn.
    destruct count_cleanup0, countTimeoutRef0 as [r|]; cbn;
      repeat match goal with
             | |- context [negb (?x =? 0)] => destruct (x =? 0); cbn
             end;
      destruct (Z.eqb_spec prevCountRef0 count0); cbn;
      (split; [solve_inv Hat Hrq | repeat split; subst; try reflexivity; lia]).
  - destruct s. cbn in *. subst.
    unfold count_cleanup_run, count_effect, window_setTimeout, window_clearTimeout. cbn.
    destruct (Z.eqb_spec (timer_id t) 0); [lia|]. cbn.
    rewrite Z.eqb_refl. cbn.
    destruct (Z.eqb_spec prevCountRef0 count0); cbn;
      (split; [solve_inv Hat Hrq | repeat split; subst; try reflexivity; lia]).
Qed.

Lemma read_new_mounted (vars : list bool) :
  (vars ++ [true]) !! length vars = Some true.
Proof. apply list_lookup_middle. reflexivity. Qed.

Lemma disable_change_commit (s : App) :
  alive s = true ->
  dep_disable s <> disableButtons (uiState s) ->
  dep_count s = count s ->
  0 < next_timer s -> timers_tracked s -> attempts_fired s -> requests_fresh s ->
  let s' := commit s in
  let d := disableButtons (uiState s) in
  let m := length (mounted_vars s) in
  Inv s'
  /\ timers s' = timers s /\ next_timer s' = next_timer s
  /\ count s' = count s /\ uiState s' = uiState s
  /\ prevCountRef s' = prevCountRef s /\ prevDisableRef s' = prevDisableRef s
  /\ console s' = console s /\ now s' = now s /\ alive s' = true
  /\ (if Bool.eqb (prevDisableRef s) d
      then attempts s' = attempts s /\ inflight s' = inflight s
           /\ isSaving s' = isSaving s /\ toggle_cleanup s' = None
      else attempts s' = attempts s ++ [ToggleAttempt d]
           /\ inflight s' = inflight s ++ [mkRequest (next_req s) (ToggleReq d) m]
           /\ isSaving s' = true /\ toggle_cleanup s' = Some m
           /\ read_mounted m s' = true).
Proof.
  intros Ha Hd Hc Hn Ht Hat Hrq s' d m. subst s' d m.
  rewrite commit_disable_changed by assumption.
  assert (Hlen : forall k, length (<[k:=false]> (mounted_vars s)) = length (mounted_vars s))
    by (intros; apply length_insert).
  unfold toggle_effect, toggle_cleanup_run, write_mounted, new_mounted, read_mounted,
    setIsSaving, start_request.
  destruct Ht as [Ht | (t & Ht & Hr & Hcl & _ & Hid)];
    destruct s; cbn in *; subst;
    destruct toggle_cleanup0 as [k|]; cbn;
    destruct (Bool.eqb prevDisableRef0 (disableButtons uiState0)) eqn:E; cbn;
    try apply Bool.eqb_prop in E;
    (split; [solve_inv Hat Hrq
            | repeat split; try reflexivity; try (symmetry; exact E);
              try first [ now rewrite read_new_mounted
                    | now rewrite ?Hlen
                    | rewrite <- (Hlen k) at 1; now rewrite read_new_mounted ] ]).
Qed.

Lemma Inv_Core (s : App) : Inv s -> Core s.
Proof. intros [? ? ? ? ?]. unfold Core. tauto. Qed.

Lemma Core_Inv (s : App) : Core s -> deps_committed s -> Inv s.
Proof. intros (? & ? & ? & ?) ?. constructor; assumption. Qed.

(** [Core] only reads the timer and request bookkeeping. *)
Lemma Core_transfer (s s' : App) :
  timers s' = timers s -> next_timer s' = next_timer s ->
  countTimeoutRef s' = countTimeoutRef s -> count_cleanup s' = count_cleanup s ->
  alive s' = alive s -> attempts s' = attempts s ->
  (forall q, In q (inflight s') -> In q (inflight s)) -> next_req s' = next_req s ->
  Core s -> Core s'.
Proof.
  intros Ht Hn Hr Hc Ha Hat Hq Hnr (C1 & C2 & C3 & C4).
  unfold Core, timers_tracked, attempts_fired, requests_fresh in *.
  rewrite Ht, Hn, Hr, Hc, Ha, Hat, Hnr.
  split; [assumption|]. split; [assumption|]. split; [assumption|].
  intros q Hin. apply C4, Hq, Hin.
Qed.

(** A commit after an update of at most one watched value restores [Inv]. *)
Lemma commit_Inv (s : App) :
  Core s ->
  (alive s = false -> deps_committed s) ->
  (dep_disable s = disableButtons (uiState s) \/ dep_count s = count s) ->
  Inv (commit s).
Proof.
  intros HC Hdead Hone.
  destruct (alive s) eqn:Ha.
  - destruct (Bool.bool_dec (dep_disable s) (disableButtons (uiState s))) as [Hd|Hd];
      destruct (Z.eq_dec (dep_count s) (count s)) as [Hc|Hc].
    + rewrite commit_unchanged by (split; assumption).
      apply Core_Inv; [assumption | split; assumption].
    + destruct HC as (? & ? & ? & ?).
      now apply count_change_commit.
    + destruct HC as (? & ? & ? & ?).
      now apply disable_change_commit.
    + destruct Hone; contradiction.
  - unfold commit. rewrite Ha. cbn.
    apply Core_Inv; [assumption | now apply Hdead].
Qed.

(* ===================================================================== *)
(** * The invariant along every execution *)
(* ===================================================================== *)

Lemma mount_Inv : Inv mount.
Proof.
  constructor; cbv; try tauto; intros; tauto.
Qed.

Ltac transfer_core H :=
  apply (Core_transfer _ _) with (9 := H); try reflexivity; try (intros ? ?; assumption).

Lemma click_count_Inv (s : App) (f : Z -> Z) :
  Inv s -> Inv (commit (setCount f s)).
Proof.
  intros HI. pose proof (Inv_Core _ HI) as HC. destruct (inv_deps _ HI) as [Hd Hc].
  unfold setCount. destruct (alive s) eqn:Ha.
  - apply commit_Inv.
    + transfer_core HC.
    + cbn. congruence.
    + left. exact Hd.
  - rewrite commit_unchanged by (split; assumption). exact HI.
Qed.

Lemma click_toggle_Inv (s : App) :
  Inv s -> Inv (commit (toggleDisabled s)).
Proof.
  intros HI. pose proof (Inv_Core _ HI) as HC. destruct (inv_deps _ HI) as [Hd Hc].
  unfold toggleDisabled, uiDispatch. destruct (alive s) eqn:Ha.
  - apply commit_Inv.
    + transfer_core HC.
    + cbn. congruence.
    + right. exact Hc.
  - rewrite commit_unchanged by (split; assumption). exact HI.
Qed.

Ltac unfold_handlers :=
  unfold settle_request, promise_chain,
    toggle_then, toggle_catch, toggle_finally,
    count_then, count_catch, count_finally,
    uiDispatch, setIsSaving, console_log, read_mounted, remove_request.

Ltac break_ifs :=
  repeat match goal with
         | |- context [match ?x with _ => _ end] =>
             match type of x with
             | sumbool _ _ => fail 1
             | _ => destruct x eqn:?; cbn
             end
         end.

(** The handler chains leave the timer and request bookkeeping alone. *)
Lemma settle_request_Core (q : Request) (p : Settled bool) (l : list LogEntry) (s : App) :
  Core s ->
  Core (settle_request q p (set_console (console s ++ l) (remove_request (req_id q) s))).
Proof.
  intros HC.
  apply (Core_transfer _ _) with (9 := HC);
    unfold_handlers; destruct s; cbn; break_ifs; try reflexivity.
  all: intros q' Hin; apply List.filter_In in Hin; tauto.
Qed.

Lemma settle_request_count (q : Request) (p : Settled bool) (s : App) :
  count (settle_request q p s) = count s
  /\ dep_count (settle_request q p s) = dep_count s
  /\ dep_disable (settle_request q p s) = dep_disable s
  /\ alive (settle_request q p s) = alive s
  /\ (alive s = false -> uiState (settle_request q p s) = uiState s).
Proof.
  unfold_handlers; destruct s; cbn; break_ifs; repeat split; congruence.
Qed.

Lemma find_request_id (id : nat) (s : App) (q : Request) :
  find_request id s = Some q -> req_id q = id /\ In q (inflight s).
Proof.
  unfold find_request. intros H. apply List.find_some in H as [Hin Heq].
  apply Nat.eqb_eq in Heq. tauto.
Qed.

Lemma settle_Inv (id : nat) (o : FetchOutcome) (s : App) :
  Inv s -> Inv (settle id o s).
Proof.
  intros HI. unfold settle, deliver.
  destruct (find_request id s) as [q|] eqn:Hf; [|exact HI].
  apply find_request_id in Hf as [<- _].
  destruct (callAnilistStudio o) as [p l].
  pose proof (Inv_Core _ HI) as HC. destruct (inv_deps _ HI) as [Hd Hc].
  set (s1 := set_console (console s ++ l) (remove_request (req_id q) s)).
  destruct (settle_request_count q p s1) as (E1 & E2 & E3 & E4 & E5).
  apply commit_Inv.
  - apply settle_request_Core, HC.
  - rewrite E4. intros Ha. split.
    + rewrite E3, (E5 Ha). exact Hd.
    + rewrite E1, E2. exact Hc.
  - right. rewrite E1, E2. exact Hc.
Qed.

(** The timer that is armed fires: one attempt for the value it closed
    over, and no timer left. *)
Lemma fire_timer_spec (s : App) (t : Timer) :
  Inv s -> timers s = [t] ->
  let s' := fire_timer t s in
  Inv s'
  /\ timers s' = []
  /\ attempts s' = attempts s ++ [CountAttempt (timer_id t) (timer_count t)]
  /\ inflight s' = inflight s ++ [mkRequest (next_req s) (CountReq (timer_count t))
                                            (length (mounted_vars s))]
  /\ read_mounted (length (mounted_vars s)) s' = true
  /\ isSaving s' = true
  /\ count s' = count s /\ uiState s' = uiState s
  /\ prevCountRef s' = prevCountRef s /\ prevDisableRef s' = prevDisableRef s
  /\ next_timer s' = next_timer s /\ alive s' = true
  /\ now s' = Z.max (now s) (timer_due t).
Proof.
  intros HI Ht s'. subst s'.
  destruct HI as [[Hd Hc] Hn Htr Hat Hrq].
  destruct Htr as [Htr | (t' & Htr & Hr & Hcl & Ha & Hid)]; [congruence|].
  assert (t' = t) by congruence. subst t'. clear Htr.
  unfold fire_timer. rewrite Ht. cbn [existsb]. rewrite Z.eqb_refl. cbn [orb].
  rewrite commit_unchanged.
  2:{ unfold count_timeout_callback, new_mounted, setIsSaving, start_request,
        window_clearTimeout.
      destruct s; cbn in *. destruct alive0; split; cbn; assumption. }
  unfold count_timeout_callback, new_mounted, setIsSaving, start_request,
    window_clearTimeout, read_mounted.
  destruct s; cbn in *. subst. cbn. rewrite Z.eqb_refl. cbn.
  rewrite read_new_mounted.
  split; [|repeat split; reflexivity].
  inv_fields. constructor; inv_fields.
  - split; reflexivity.
  - lia.
  - left; reflexivity.
  - intros id v Hin. apply in_app_or in Hin. destruct Hin as [Hin | [Hin | []]].
    + destruct (Hat id v Hin). split; [lia | intros ? []].
    + injection Hin as <- <-. split; [lia | intros ? []].
  - solve_requests Hrq.
Qed.

Lemma elapse_negative (dt : Z) (s : App) : dt < 0 -> elapse dt s = s.
Proof. intros H. unfold elapse. destruct (Z.ltb_spec dt 0); [reflexivity|lia]. Qed.

Lemma elapse_no_timer (dt : Z) (s : App) :
  0 <= dt -> timers s = [] -> elapse dt s = set_now (now s + dt) s.
Proof.
  intros H Ht. unfold elapse. destruct (Z.ltb_spec dt 0); [lia|].
  rewrite Ht. reflexivity.
Qed.

Lemma elapse_before_due (dt : Z) (s : App) (t : Timer) :
  0 <= dt -> timers s = [t] -> now s + dt < timer_due t ->
  elapse dt s = set_now (now s + dt) s.
Proof.
  intros H Ht Hdue. unfold elapse. destruct (Z.ltb_spec dt 0); [lia|].
  rewrite Ht. cbn. destruct (Z.leb_spec (timer_due t) (now s + dt)); [lia|]. reflexivity.
Qed.

Lemma elapse_fires (dt : Z) (s : App) (t : Timer) :
  0 <= dt -> timers s = [t] -> timer_due t <= now s + dt ->
  elapse dt s = set_now (now s + dt) (fire_timer t s).
Proof.
  intros H Ht Hdue. unfold elapse. destruct (Z.ltb_spec dt 0); [lia|].
  rewrite Ht. cbn. destruct (Z.leb_spec (timer_due t) (now s + dt)); [|lia]. reflexivity.
Qed.

Lemma set_now_Inv (n : Z) (s : App) : Inv s -> Inv (set_now n s).
Proof.
  intros HI. apply Core_Inv.
  - apply (Core_transfer _ _) with (9 := Inv_Core _ HI); try reflexivity; auto.
  - exact (inv_deps _ HI).
Qed.

Lemma elapse_Inv (dt : Z) (s : App) : Inv s -> Inv (elapse dt s).
Proof.
  intros HI.
  destruct (Z.lt_ge_cases dt 0) as [Hneg|Hpos].
  - now rewrite elapse_negative.
  - destruct (inv_timers _ HI) as [Ht | (t & Ht & _)].
    + rewrite elapse_no_timer by assumption. now apply set_now_Inv.
    + destruct (Z.lt_ge_cases (now s + dt) (timer_due t)).
      * rewrite (elapse_before_due dt s t) by assumption. now apply set_now_Inv.
      * rewrite (elapse_fires dt s t) by assumption.
        apply set_now_Inv. now apply fire_timer_spec.
Qed.

Lemma unmount_Inv (s : App) : Inv s -> Inv (unmount s).
Proof.
  intros HI. unfold unmount. destruct (alive s) eqn:Ha; cbn; [|exact HI].
  destruct HI as [[Hd Hc] Hn Htr Hat Hrq].
  unfold toggle_cleanup_run, write_mounted, count_cleanup_run, window_clearTimeout,
    ref_truthy.
  destruct Htr as [Htr | (t & Htr & Hr & Hcl & _ & Hid)];
    destruct s; cbn in *; subst; cbn.
  - destruct toggle_cleanup0, count_cleanup0, countTimeoutRef0 as [r|]; cbn;
      repeat match goal with
             | |- context [negb (?x =? 0)] => destruct (x =? 0); cbn
             end;
      solve_inv Hat Hrq.
  - destruct toggle_cleanup0; cbn;
      (destruct (Z.eqb_spec (timer_id t) 0); [lia|]); cbn; rewrite Z.eqb_refl; cbn;
      constructor; inv_fields;
      [ split; reflexivity | lia | left; reflexivity
      | intros id v Hin; destruct (Hat id v Hin); split; [lia | intros ? []]
      | exact Hrq
      | split; reflexivity | lia | left; reflexivity
      | intros id v Hin; destruct (Hat id v Hin); split; [lia | intros ? []]
      | exact Hrq ].
Qed.

Theorem step_Inv (e : Event) (s : App) : Inv s -> Inv (step e s).
Proof.
  intros HI. destruct e; cbn.
  - destruct (alive s && negb (disableButtons (uiState s))); [|exact HI].
    now apply click_count_Inv.
  - destruct (alive s && negb (disableButtons (uiState s))); [|exact HI].
    now apply click_count_Inv.
  - destruct (alive s); [|exact HI]. now apply click_toggle_Inv.
  - destruct (alive s && negb (disableButtons (uiState s))); [|exact HI].
    now apply click_toggle_Inv.
  - now apply elapse_Inv.
  - now apply settle_Inv.
  - now apply unmount_Inv.
Qed.

Lemma run_app (evs1 evs2 : list Event) (s : App) :
  run (evs1 ++ evs2) s = run evs2 (run evs1 s).
Proof. unfold run. apply fold_left_app. Qed.

Theorem run_Inv (evs : list Event) (s : App) : Inv s -> Inv (run evs s).
Proof.
  revert s. induction evs as [|e evs IH]; intros s HI; cbn; [exact HI|].
  apply IH, step_Inv, HI.
Qed.

(* ===================================================================== *)
(** * What a transition may add *)
(* ===================================================================== *)

Lemma advances_refl (s : App) : advances s s.
Proof. unfold advances. split; [lia|]. split; intros; tauto. Qed.

Lemma advances_same (s s' : App) :
  next_timer s' = next_timer s -> timers s' = timers s -> attempts s' = attempts s ->
  advances s s'.
Proof.
  intros E1 E2 E3. unfold advances. rewrite E1, E2, E3.
  split; [lia|]. split; intros; tauto.
Qed.

Lemma advances_commit_count (s0 s : App) :
  next_timer s0 = next_timer s -> timers s0 = timers s -> attempts s0 = attempts s ->
  Core s0 -> alive s0 = true ->
  dep_disable s0 = disableButtons (uiState s0) ->
  advances s (commit s0).
Proof.
  intros E1 E2 E3 (Hn & Ht & Hat & Hrq) Ha Hd.
  destruct (Z.eq_dec (dep_count s0) (count s0)) as [Hc|Hc].
  - rewrite commit_unchanged by (split; assumption). now apply advances_same.
  - destruct (count_change_commit s0 Ha Hd Hc Hn Ht Hat Hrq)
      as (_ & T & _ & _ & _ & _ & _ & A & _ & _ & _ & _ & _ & _ & N).
    unfold advances. rewrite T, A, <- E1, <- E3.
    split; [exact N|]. split.
    + intros t Hin. right.
      destruct (prevCountRef s0 =? count s0); [destruct Hin|].
      destruct Hin as [<- | []]. cbn. lia.
    + intros; tauto.
Qed.

Lemma advances_commit_disable (s0 s : App) :
  next_timer s0 = next_timer s -> timers s0 = timers s -> attempts s0 = attempts s ->
  Core s0 -> (alive s0 = false -> dep_disable s0 = disableButtons (uiState s0)) ->
  dep_count s0 = count s0 ->
  advances s (commit s0).
Proof.
  intros E1 E2 E3 (Hn & Ht & Hat & Hrq) Hdead Hc.
  destruct (Bool.bool_dec (dep_disable s0) (disableButtons (uiState s0))) as [Hd|Hd].
  - rewrite commit_unchanged by (split; assumption). now apply advances_same.
  - assert (Ha : alive s0 = true).
    { destruct (alive s0); [reflexivity|]. now specialize (Hdead eq_refl). }
    destruct (disable_change_commit s0 Ha Hd Hc Hn Ht Hat Hrq)
      as (_ & T & N & _ & _ & _ & _ & _ & _ & _ & A).
    unfold advances. rewrite T, N, E1, E2.
    split; [lia|]. split; [intros; tauto|].
    intros a Hin.
    destruct (Bool.eqb (prevDisableRef s0) (disableButtons (uiState s0))).
    + destruct A as (A & _). rewrite A, E3 in Hin. tauto.
    + destruct A as (A & _). rewrite A, E3 in Hin.
      apply in_app_or in Hin. destruct Hin as [Hin | [<- | []]]; [tauto|].
      right. left. eexists. reflexivity.
Qed.

Lemma settle_request_frame (q : Request) (p : Settled bool) (l : list LogEntry) (s : App) :
  let s' := settle_request q p (set_console (console s ++ l) (remove_request (req_id q) s)) in
  next_timer s' = next_timer s /\ timers s' = timers s /\ attempts s' = attempts s.
Proof.
  unfold_handlers; destruct s; cbn; break_ifs; repeat split; reflexivity.
Qed.

Lemma step_advances (e : Event) (s : App) : Inv s -> advances s (step e s).
Proof.
  intros HI. pose proof (Inv_Core _ HI) as HC. destruct (inv_deps _ HI) as [Hd Hc].
  destruct e; cbn.
  - destruct (alive s && negb (disableButtons (uiState s))) eqn:E;
      [|apply advances_refl].
    apply andb_prop in E as [Ha _].
    unfold handleIncrement, setCount. rewrite Ha.
    apply advances_commit_count; try reflexivity; assumption.
  - destruct (alive s && negb (disableButtons (uiState s))) eqn:E;
      [|apply advances_refl].
    apply andb_prop in E as [Ha _].
    unfold handleReset, setCount. rewrite Ha.
    apply advances_commit_count; try reflexivity; assumption.
  - destruct (alive s) eqn:Ha; [|apply advances_refl].
    unfold toggleDisabled, uiDispatch. rewrite Ha.
    apply advances_commit_disable; try reflexivity; try assumption.
    cbn. congruence.
  - destruct (alive s && negb (disableButtons (uiState s))) eqn:E;
      [|apply advances_refl].
    apply andb_prop in E as [Ha _].
    unfold toggleDisabled, uiDispatch. rewrite Ha.
    apply advances_commit_disable; try reflexivity; try assumption.
    cbn. congruence.
  - destruct (Z.lt_ge_cases dt 0) as [Hneg|Hpos].
    { rewrite elapse_negative by assumption. apply advances_refl. }
    destruct (inv_timers _ HI) as [Ht | (t & Ht & _)].
    { rewrite elapse_no_timer by assumption. now apply advances_same. }
    destruct (Z.lt_ge_cases (now s + dt) (timer_due t)).
    { rewrite (elapse_before_due dt s t) by assumption. now apply advances_same. }
    rewrite (elapse_fires dt s t) by assumption.
    destruct (fire_timer_spec s t HI Ht)
      as (_ & T & A & _ & _ & _ & _ & _ & _ & _ & N & _).
    unfold advances. cbn. rewrite T, A, N.
    split; [lia|]. split; [intros ? []|].
    intros a Hin. apply in_app_or in Hin. destruct Hin as [Hin | [<- | []]]; [tauto|].
    right. right. exists t. rewrite Ht. split; [now left | reflexivity].
  - unfold settle, deliver.
    destruct (find_request id s) as [q|] eqn:Hf; [|apply advances_refl].
    apply find_request_id in Hf as [<- _].
    destruct (callAnilistStudio o) as [p l].
    set (s1 := set_console (console s ++ l) (remove_request (req_id q) s)).
    destruct (settle_request_count q p s1) as (E1 & E2 & E3 & E4 & E5).
    destruct (settle_request_frame q p l s) as (F1 & F2 & F3).
    apply advances_commit_disable; try assumption.
    + now apply settle_request_Core.
    + rewrite E4, E3. intros Ha. rewrite (E5 Ha). exact Hd.
    + rewrite E1, E2. exact Hc.
  - unfold unmount. destruct (alive s) eqn:Ha; cbn; [|apply advances_refl].
    unfold advances, toggle_cleanup_run, write_mounted, count_cleanup_run,
      window_clearTimeout, ref_truthy.
    destruct s; cbn in *.
    destruct toggle_cleanup0, count_cleanup0, countTimeoutRef0 as [r|]; cbn;
      try destruct (r =? 0); cbn;
      (split; [lia|]; split; [|intros; tauto]);
      intros t Hin; try (apply List.filter_In in Hin); tauto.
Qed.

(* ===================================================================== *)
(** * Counter changes and the pending timer *)
(* ===================================================================== *)

(** What a click on an enabled counter button runs. *)
Lemma count_click_enabled (s : App) (c : CountClick) :
  alive s = true -> disableButtons (uiState s) = false ->
  step (click_event c) s = commit (set_count (click_value c (count s)) s).
Proof.
  intros Ha Hen.
  destruct c; cbn; rewrite Ha, Hen; cbn;
    unfold handleIncrement, handleReset, setCount; now rewrite Ha.
Qed.

(** A click that changes nothing is no transition at all. *)
Lemma count_click_blocked (s : App) (c : CountClick) :
  Inv s ->
  alive s && negb (disableButtons (uiState s)) = false ->
  step (click_event c) s = s.
Proof. intros _ H. destruct c; cbn; now rewrite H. Qed.

(** The commit that follows a change of [count] to [v]. *)
Lemma count_changed_spec (s : App) (v : Z) :
  Inv s -> alive s = true -> v <> count s ->
  let s' := commit (set_count v s) in
  Inv s'
  /\ count s' = v
  /\ timers s' = (if prevCountRef s =? v then []
                  else [mkTimer (next_timer s) (now s + debounce_delay) v])
  /\ attempts s' = attempts s /\ inflight s' = inflight s
  /\ prevCountRef s' = prevCountRef s /\ uiState s' = uiState s
  /\ isSaving s' = isSaving s
  /\ now s' = now s /\ alive s' = true.
Proof.
  intros HI Ha Hv s'. subst s'.
  destruct HI as [[Hd Hc] Hn Ht Hat Hrq].
  assert (Hc' : dep_count (set_count v s) <> count (set_count v s)) by (cbn; congruence).
  destruct (count_change_commit (set_count v s) Ha Hd Hc' Hn Ht Hat Hrq)
    as (I & T & C & U & S & P & _ & A & F & _ & _ & _ & N & L & _).
  cbn in *. tauto.
Qed.

Lemma count_click_changes (s : App) (c : CountClick) :
  Inv s -> count (step (click_event c) s) <> count s ->
  alive s = true /\ disableButtons (uiState s) = false
  /\ click_value c (count s) <> count s.
Proof.
  intros HI Hne.
  destruct (alive s && negb (disableButtons (uiState s))) eqn:E.
  - apply andb_prop in E as [Ha Hen]. apply negb_true_iff in Hen.
    split; [assumption|]. split; [assumption|].
    intros Heq. apply Hne.
    rewrite count_click_enabled by assumption. rewrite Heq.
    rewrite commit_unchanged; [destruct s; reflexivity|].
    destruct (inv_deps _ HI). destruct s; cbn in *. split; assumption.
  - rewrite count_click_blocked in Hne by assumption. contradiction.
Qed.

(** Once cancelled, a timer handle never yields an attempt. *)
Lemma cancelled_step (e : Event) (s : App) (id : Z) :
  Inv s -> cancelled id s -> cancelled id (step e s).
Proof.
  intros HI (Hlt & Hnt & Hna).
  destruct (step_advances e s HI) as (N & T & A).
  split; [lia|]. split.
  - intros t Hin. destruct (T t Hin) as [Hold | Hnew]; [now apply Hnt | lia].
  - intros v Hin. destruct (A _ Hin) as [Hold | [[d Hd] | (t & Ht & Heq)]].
    + exact (Hna v Hold).
    + discriminate Hd.
    + injection Heq as Heq _. exact (Hnt t Ht (eq_sym Heq)).
Qed.

Lemma cancelled_run (evs : list Event) (s : App) (id : Z) :
  Inv s -> cancelled id s -> cancelled id (run evs s).
Proof.
  revert s. induction evs as [|e evs IH]; intros s HI Hc; cbn; [exact Hc|].
  apply IH; [now apply step_Inv | now apply cancelled_step].
Qed.

(** An armed timer has not fired. *)
Lemma armed_not_fired (s : App) (t : Timer) :
  Inv s -> In t (timers s) ->
  timers s = [t] /\ timer_id t < next_timer s
  /\ forall v, ~ In (CountAttempt (timer_id t) v) (attempts s).
Proof.
  intros HI Hin.
  destruct (inv_timers _ HI) as [Ht | (t' & Ht & _ & _ & _ & Hid)].
  - rewrite Ht in Hin. destruct Hin.
  - rewrite Ht in Hin. destruct Hin as [<- | []].
    split; [assumption|]. split; [lia|].
    intros v Hv. destruct (inv_attempts _ HI _ _ Hv) as [_ Hne].
    apply (Hne t'); [rewrite Ht; now left | reflexivity].
Qed.

Lemma unmount_timers (s : App) : Inv s -> timers (unmount s) = [].
Proof.
  intros HI.
  pose proof (unmount_Inv s HI) as HU.
  destruct (inv_timers _ HU) as [Ht | (t & _ & _ & _ & Ha & _)]; [exact Ht|].
  exfalso. revert Ha. unfold unmount.
  destruct (alive s) eqn:Hs; cbn; [discriminate|].
  destruct (inv_timers _ HI) as [Ht | (t' & _ & _ & _ & Ha' & _)]; congruence.
Qed.

Lemma unmount_attempts (s : App) : attempts (unmount s) = attempts s.
Proof.
  unfold unmount, toggle_cleanup_run, write_mounted, count_cleanup_run,
    window_clearTimeout.
  destruct s; cbn. break_ifs; reflexivity.
Qed.

Lemma unmount_next_timer (s : App) : next_timer (unmount s) = next_timer s.
Proof.
  unfold unmount, toggle_cleanup_run, write_mounted, count_cleanup_run,
    window_clearTimeout.
  destruct s; cbn. break_ifs; reflexivity.
Qed.

(** The general form of C6, from any state that satisfies the invariant. *)
Lemma superseded_timer_never_fires (s : App) (t : Timer) (e : Event) :
  Inv s -> In t (timers s) ->
  e = Unmount
  \/ ((e = ClickIncrement \/ e = ClickReset) /\ count (step e s) <> count s) ->
  timers (step e s) = timers_after_superseding e s
  /\ timer_id t < next_timer s
  /\ forall evs v, ~ In (CountAttempt (timer_id t) v) (attempts (run evs (step e s))).
Proof.
  intros HI Hin He.
  destruct (armed_not_fired s t HI Hin) as (Ht & Hlt & Hnf).
  assert (Hcan : cancelled (timer_id t) (step e s)
                 /\ timers (step e s) = timers_after_superseding e s).
  { destruct He as [-> | [He Hne]].
    - unfold cancelled. cbn. rewrite unmount_timers by assumption.
      split; [|reflexivity].
      split; [now rewrite unmount_next_timer|].
      split; [intros ? []|]. now rewrite unmount_attempts.
    - assert (exists c, e = click_event c) as [c ->]
        by (destruct He as [-> | ->]; [now exists BtnIncrement | now exists BtnReset]).
      destruct (count_click_changes s c HI Hne) as (Ha & Hen & Hv).
      assert (Hnew : timers_after_superseding (click_event c) s
                     = if prevCountRef s =? count (step (click_event c) s) then []
                       else [mkTimer (next_timer s) (now s + debounce_delay)
                               (count (step (click_event c) s))])
        by (destruct c; reflexivity).
      rewrite Hnew. clear Hnew.
      rewrite count_click_enabled in * by assumption.
      destruct (count_changed_spec s _ HI Ha Hv)
        as (I' & C & T & A & _ & _ & _ & _ & _ & _).
      pose proof (step_advances (click_event c) s HI) as (N & _ & _).
      rewrite count_click_enabled in N by assumption.
      unfold cancelled. rewrite C, T, A.
      split; [|reflexivity].
      split; [lia|]. split; [|exact Hnf].
      intros t' Hin'.
      destruct (prevCountRef s =? click_value c (count s)); [destruct Hin'|].
      destruct Hin' as [<- | []]. cbn. lia. }
  destruct Hcan as [Hcan Hnew].
  split; [exact Hnew|]. split; [exact Hlt|].
  intros evs v.
  destruct (cancelled_run evs (step e s) (timer_id t) (step_Inv e s HI) Hcan)
    as (_ & _ & Hna).
  apply Hna.
Qed.

(** C6, as stated, fails: the armed timer is cancelled by a counter change
    but not replaced when the new value is the one [prevCountRef] holds.
    After one increment a timer is armed for 1; the reset back to 0 (the
    value of [prevCountRef]) cancels it and arms none. *)
Lemma timer_cancelled_without_replacement_counterexample :
  let s := run [ClickIncrement] mount in
  timers s = [mkTimer 1 300 1]
  /\ count (step ClickReset s) <> count s
  /\ timers (step ClickReset s) = [].
Proof.
  cbv zeta. split; [vm_compute; reflexivity|].
  split; [vm_compute; discriminate | vm_compute; reflexivity].
Qed.

(** C6, amended.  In every execution from the initial mount at most one
    timer is armed.  An armed timer that is superseded (by an unmount, or by
    a click that changes the counter) is cancelled by that transition.
    After an unmount no timer is armed; after a counter change exactly one
    new timer (with a fresh handle, due a full delay later, for the new
    value) replaces it, unless the new value equals the one held in
    [prevCountRef], in which case no timer is armed.  The cancelled timer
    never yields a call of [callAnilistStudio], whatever happens next. *)
Theorem pending_timer_invariant :
  forall (evs : list Event),
    let s := run evs mount in
    (length (timers s) <= 1)%nat
    /\ forall (t : Timer) (e : Event),
         In t (timers s) ->
         e = Unmount
         \/ ((e = ClickIncrement \/ e = ClickReset) /\ count (step e s) <> count s) ->
         timers (step e s) = timers_after_superseding e s
         /\ timer_id t < next_timer s
         /\ forall evs' v,
              ~ In (CountAttempt (timer_id t) v) (attempts (run evs' (step e s))).
Proof.
  intros evs s.
  assert (HI : Inv s) by (apply run_Inv, mount_Inv).
  split.
  - destruct (inv_timers _ HI) as [-> | (t & -> & _)]; cbn; lia.
  - intros t e. now apply superseded_timer_never_fires.
Qed.

Lemma pending_timer_invariant_witness :
  let s := run [ClickIncrement] mount in
  let t := mkTimer 1 300 1 in
  In t (timers s)
  /\ timers (step ClickIncrement s) = [mkTimer 2 300 2]
  /\ timers (step ClickReset s) = []
  /\ ~ In (CountAttempt 1 1)
         (attempts (run [Elapse 300; Settle 0 fetch_ok; Unmount] (step ClickIncrement s))).
Proof.
  cbv zeta.
  pose proof (pending_timer_invariant [ClickIncrement]) as [_ H].
  assert (Hinc : count (step ClickIncrement (run [ClickIncrement] mount))
                 <> count (run [ClickIncrement] mount))
    by (vm_compute; discriminate).
  assert (Hreset : count (step ClickReset (run [ClickIncrement] mount))
                   <> count (run [ClickIncrement] mount))
    by (vm_compute; discriminate).
  split; [now left|].
  split.
  { exact (proj1 (H (mkTimer 1 300 1) ClickIncrement (or_introl eq_refl)
                    (or_intror (conj (or_introl eq_refl) Hinc)))). }
  split.
  { exact (proj1 (H (mkTimer 1 300 1) ClickReset (or_introl eq_refl)
                    (or_intror (conj (or_intror eq_refl) Hreset)))). }
  exact (proj2 (proj2 (H (mkTimer 1 300 1) ClickIncrement (or_introl eq_refl)
                         (or_intror (conj (or_introl eq_refl) Hinc))))
           [Elapse 300; Settle 0 fetch_ok; Unmount] 1).
Defined.

(* ===================================================================== *)
(** * The debounce *)
(* ===================================================================== *)

(** An effective click on an enabled button leaves the component freshly
    armed, with no attempt made. *)
Lemma count_click_arms (s : App) (c : CountClick) :
  Inv s -> alive s = true -> disableButtons (uiState s) = false ->
  click_value c (count s) <> count s ->
  let s' := step (click_event c) s in
  Inv s' /\ alive s' = true /\ disableButtons (uiState s') = false
  /\ freshly_armed s'
  /\ count s' = click_value c (count s)
  /\ attempts s' = attempts s /\ prevCountRef s' = prevCountRef s.
Proof.
  intros HI Ha Hen Hv s'. subst s'.
  rewrite count_click_enabled by assumption.
  destruct (count_changed_spec s _ HI Ha Hv)
    as (I' & C & T & A & _ & P & U & _ & N & L).
  split; [assumption|]. split; [assumption|]. split; [now rewrite U|].
  split; [|tauto].
  unfold freshly_armed. rewrite T, P, C, N.
  destruct (Z.eqb_spec (prevCountRef s) (click_value c (count s))).
  - left. tauto.
  - right. eexists. split; [reflexivity | assumption].
Qed.

(** Less than the delay after a change, nothing fires. *)
Lemma elapse_freshly_armed (s : App) (dt : Z) :
  freshly_armed s -> 0 <= dt < debounce_delay ->
  elapse dt s = set_now (now s + dt) s.
Proof.
  intros [[Ht _] | (id & Ht & _)] Hdt.
  - apply elapse_no_timer; [lia | assumption].
  - eapply elapse_before_due; [lia | exact Ht | cbn; lia].
Qed.

Lemma rapid_run_spec (rest : list (Z * CountClick)) :
  forall s : App,
    Inv s -> alive s = true -> disableButtons (uiState s) = false ->
    freshly_armed s -> rapid (count s) rest = true ->
    let s' := rapid_run rest s in
    Inv s' /\ alive s' = true /\ disableButtons (uiState s') = false
    /\ freshly_armed s'
    /\ attempts s' = attempts s /\ prevCountRef s' = prevCountRef s.
Proof.
  induction rest as [|[dt c] rest IH]; intros s HI Ha Hen Hf Hr; cbn.
  - tauto.
  - cbn in Hr.
    apply andb_prop in Hr as [Hr Hrest]. apply andb_prop in Hr as [Hr Hne].
    apply andb_prop in Hr as [Hlo Hhi].
    apply Z.leb_le in Hlo. apply Z.ltb_lt in Hhi.
    apply negb_true_iff, Z.eqb_neq in Hne.
    rewrite (elapse_freshly_armed s dt) by (assumption || lia).
    set (s1 := set_now (now s + dt) s).
    assert (HI1 : Inv s1) by now apply set_now_Inv.
    destruct (count_click_arms s1 c HI1 Ha Hen Hne) as (I2 & A2 & E2 & F2 & C2 & T2 & P2).
    assert (Hrest' : rapid (count (step (click_event c) s1)) rest = true)
      by (rewrite C2; exact Hrest).
    destruct (IH _ I2 A2 E2 F2 Hrest') as (I3 & A3 & E3 & F3 & T3 & P3).
    repeat (split; [assumption|]).
    split; [now rewrite T3, T2 | now rewrite P3, P2].
Qed.

(** After the last change of a burst: nothing before the delay has passed,
    and from then on one attempt for the current value, unless that value
    is the one [prevCountRef] holds. *)
Lemma elapse_after_burst (s : App) (d : Z) :
  Inv s -> freshly_armed s ->
  (0 <= d < debounce_delay -> attempts (elapse d s) = attempts s)
  /\ (debounce_delay <= d ->
      if count s =? prevCountRef s
      then attempts (elapse d s) = attempts s
      else one_count_attempt (count s) (attempts s) (attempts (elapse d s))).
Proof.
  intros HI Hf. split.
  - intros Hd. now rewrite elapse_freshly_armed.
  - intros Hd. unfold debounce_delay in Hd.
    destruct Hf as [[Ht Hp] | (id & Ht & Hp)].
    + rewrite elapse_no_timer by (assumption || lia).
      destruct (Z.eqb_spec (count s) (prevCountRef s)); [reflexivity | congruence].
    + destruct (Z.eqb_spec (count s) (prevCountRef s)); [congruence|].
      erewrite elapse_fires; [| lia | exact Ht | cbn; unfold debounce_delay; lia].
      destruct (fire_timer_spec s _ HI Ht) as (_ & _ & A & _).
      exists id. cbn in *. exact A.
Qed.

(** C1, as stated, fails: increment, then reset within the window, brings
    the counter back to the value [prevCountRef] holds; the pending timer
    is cancelled, the effect returns early, and no attempt fires at all. *)
Lemma debounce_back_to_notified_value_counterexample :
  let s := run [ClickIncrement; Elapse 100; ClickReset; Elapse 300] mount in
  rapid (click_value BtnIncrement (count mount)) [(100, BtnReset)] = true
  /\ s = step (Elapse 300) (rapid_run [(100, BtnReset)] (step (click_event BtnIncrement) mount))
  /\ count s = 0
  /\ attempts s = []
  /\ ~ one_count_attempt (count s) (attempts mount) (attempts s).
Proof.
  cbv zeta.
  split; [vm_compute; reflexivity|].
  split; [vm_compute; reflexivity|].
  split; [vm_compute; reflexivity|].
  split; [vm_compute; reflexivity|].
  intros [tid H]. vm_compute in H. discriminate H.
Qed.

(** A burst that consists of counter clicks and time passing only: a
    first click that changes the counter, then clicks that each change it
    and each come less than 300 after the previous one.  Here
    [prevCountRef] is not assigned during the burst, so the value the final
    counter is compared with is the one [prevCountRef] held before the
    burst. *)
Lemma debounce_burst_of_clicks :
  forall (s : App) (c0 : CountClick) (rest : list (Z * CountClick)) (d : Z),
    Inv s -> alive s = true -> disableButtons (uiState s) = false ->
    click_value c0 (count s) <> count s ->
    rapid (click_value c0 (count s)) rest = true ->
    let s' := rapid_run rest (step (click_event c0) s) in
    (0 <= d < debounce_delay -> attempts (step (Elapse d) s') = attempts s)
    /\ (debounce_delay <= d ->
        if count s' =? prevCountRef s
        then attempts (step (Elapse d) s') = attempts s
        else one_count_attempt (count s') (attempts s) (attempts (step (Elapse d) s'))).
Proof.
  intros s c0 rest d HI Ha Hen Hv Hr s'.
  destruct (count_click_arms s c0 HI Ha Hen Hv) as (I1 & A1 & E1 & F1 & C1 & T1 & P1).
  assert (Hr' : rapid (count (step (click_event c0) s)) rest = true)
    by (rewrite C1; exact Hr).
  destruct (rapid_run_spec rest _ I1 A1 E1 F1 Hr') as (I2 & _ & _ & F2 & T2 & P2).
  fold s' in I2, F2, T2, P2.
  destruct (elapse_after_burst s' d I2 F2) as [Hbefore Hafter].
  cbn [step]. rewrite <- T1, <- T2, <- P1, <- P2.
  split; assumption.
Qed.

(** The scenario of the specification: 0, 1, 2, 3 within 100 units each. *)
Example debounce_burst_of_clicks_scenario :
  let s' := rapid_run [(100, BtnIncrement); (100, BtnIncrement)] (step ClickIncrement mount) in
  attempts (step (Elapse 299) s') = []
  /\ one_count_attempt 3 [] (attempts (step (Elapse 300) s')).
Proof.
  cbv zeta.
  pose proof (debounce_burst_of_clicks
                mount BtnIncrement [(100, BtnIncrement); (100, BtnIncrement)]) as H.
  split.
  - refine (proj1 (H 299 mount_Inv eq_refl eq_refl _ eq_refl) _).
    + cbn. lia.
    + unfold debounce_delay. lia.
  - refine (proj2 (H 300 mount_Inv eq_refl eq_refl _ eq_refl) _).
    + cbn. lia.
    + unfold debounce_delay. lia.
Defined.

(* ===================================================================== *)
(** * The toggle notifier *)
(* ===================================================================== *)

Lemma same_state_refl (s : App) : same_state s s.
Proof. unfold same_state. tauto. Qed.

Lemma same_state_trans (s1 s2 s3 : App) :
  same_state s1 s2 -> same_state s2 s3 -> same_state s1 s3.
Proof. unfold same_state. intros (-> & -> & -> & ->) (-> & -> & -> & ->). tauto. Qed.

Lemma toggle_cleanup_same_state (s : App) :
  same_state s (match toggle_cleanup s with
                | Some m => toggle_cleanup_run m s
                | None => s
                end).
Proof.
  unfold same_state, toggle_cleanup_run, write_mounted.
  destruct (toggle_cleanup s); [destruct s; cbn|]; tauto.
Qed.

Lemma count_cleanup_same_state (s : App) :
  same_state s (if count_cleanup s then count_cleanup_run s else s).
Proof.
  unfold same_state, count_cleanup_run, window_clearTimeout, ref_truthy.
  destruct (count_cleanup s); [|tauto].
  destruct (countTimeoutRef s) as [id|]; [|tauto].
  destruct (negb (id =? 0)); [|tauto].
  destruct s; cbn. tauto.
Qed.

Lemma toggle_effect_same_state (s : App) (d : bool) :
  same_state s (set_dep_disable d (toggle_effect s)).
Proof.
  unfold same_state, toggle_effect, new_mounted, setIsSaving, start_request.
  destruct (Bool.eqb (prevDisableRef s) (disableButtons (uiState s)));
    [destruct s; cbn; tauto|].
  destruct s as [? ? ? ? ? ? ? ? ? ? ? ? ? ? ? ? ? ? []]; cbn; tauto.
Qed.

Lemma count_effect_same_state (s : App) (c : Z) :
  same_state s (set_dep_count c (count_effect s)).
Proof.
  unfold same_state, count_effect, window_setTimeout, window_clearTimeout, ref_truthy.
  destruct (prevCountRef s =? count s); [destruct s; cbn; tauto|].
  destruct (countTimeoutRef s) as [id|]; [destruct (negb (id =? 0))|];
    destruct s; cbn; tauto.
Qed.

Lemma commit_same_state (s : App) : same_state s (commit s).
Proof.
  unfold commit.
  destruct (negb (alive s)); [apply same_state_refl|].
  destruct (negb (Bool.eqb (dep_disable s) (disableButtons (uiState s))));
    destruct (negb (dep_count s =? count s));
    repeat first
      [ apply same_state_refl
      | eapply same_state_trans; [|apply count_effect_same_state]
      | eapply same_state_trans; [|apply toggle_effect_same_state]
      | eapply same_state_trans; [|apply count_cleanup_same_state]
      | eapply same_state_trans; [|apply toggle_cleanup_same_state] ].
Qed.

(** A commit never touches the component state other than [isSaving]. *)
Lemma commit_state (s : App) :
  uiState (commit s) = uiState s /\ count (commit s) = count s
  /\ console (commit s) = console s.
Proof. destruct (commit_same_state s) as (? & ? & ? & _). tauto. Qed.

Lemma find_new_request (l : list Request) (q : Request) :
  (forall q', In q' l -> (req_id q' < req_id q)%nat) ->
  List.find (fun q' => Nat.eqb (req_id q') (req_id q)) (l ++ [q]) = Some q.
Proof.
  induction l as [|q0 l IH]; intros Hfresh; cbn.
  - now rewrite Nat.eqb_refl.
  - destruct (Nat.eqb_spec (req_id q0) (req_id q)) as [E|_].
    + specialize (Hfresh q0 (or_introl eq_refl)). lia.
    + apply IH. intros q' Hin. apply Hfresh. now right.
Qed.

(** The store of [mounted] variables is not touched on the way to the
    handlers. *)
Lemma read_mounted_delivery (m : nat) (id : nat) (l : list LogEntry) (s : App) :
  read_mounted m (set_console (console s ++ l) (remove_request id s)) = read_mounted m s.
Proof. reflexivity. Qed.

(** The chain of a toggle request whose effect is still live. *)
Lemma toggle_chain_live (s : App) (id : nat) (d : bool) (m : nat) (b : bool)
    (l : list LogEntry) :
  alive s = true -> read_mounted m s = true ->
  let s' := settle_request (mkRequest id (ToggleReq d) m) (Fulfilled b)
              (set_console (console s ++ l) (remove_request id s)) in
  uiState s' = (if b then uiState s else mkUIState (prevDisableRef s))
  /\ isSaving s' = false
  /\ prevDisableRef s' = d.
Proof.
  intros Ha Hm. rewrite <- (read_mounted_delivery m id l) in Hm.
  unfold settle_request, promise_chain, toggle_then, toggle_finally. cbn [req_kind req_mounted].
  rewrite Hm. cbn [negb].
  assert (Hm' : forall a, read_mounted m
                  (uiDispatch a (set_console (console s ++ l) (remove_request id s))) = true).
  { intros a. unfold uiDispatch. cbn. rewrite Ha. exact Hm. }
  destruct b; cbn [negb]; rewrite ?Hm', ?Hm;
    unfold uiDispatch, setIsSaving; repeat (progress (cbn; rewrite ?Ha));
    repeat split; reflexivity.
Qed.

(** The chain of a toggle request whose effect has been torn down: a
    fulfilled promise changes neither [uiState] nor [isSaving]. *)
Lemma toggle_chain_torn_down (s : App) (id : nat) (d : bool) (m : nat) (b : bool)
    (l : list LogEntry) :
  read_mounted m s = false ->
  let s' := settle_request (mkRequest id (ToggleReq d) m) (Fulfilled b)
              (set_console (console s ++ l) (remove_request id s)) in
  uiState s' = uiState s /\ isSaving s' = isSaving s /\ count s' = count s.
Proof.
  intros Hm. rewrite <- (read_mounted_delivery m id l) in Hm.
  unfold settle_request, promise_chain, toggle_then, toggle_finally. cbn [req_kind req_mounted].
  rewrite Hm. cbn [negb]. rewrite Hm. repeat split; reflexivity.
Qed.

(** The rollback when nothing comes between the click and the answer.
    From a state in which [prevDisableRef] holds the current flag (as after
    the mount, or after a notification that succeeded), a click on the
    toggle button issues one attempt; when that attempt settles next, with
    [false] the flag is back at its pre-toggle value, and with [true] the
    flag keeps its post-toggle value. *)
Lemma toggle_rollback_settled_first :
  forall (s : App) (o : FetchOutcome) (b : bool),
    Inv s -> alive s = true ->
    prevDisableRef s = disableButtons (uiState s) ->
    fst (callAnilistStudio o) = Fulfilled b ->
    let pre := disableButtons (uiState s) in
    let s1 := step ClickToggle s in
    let s2 := step (Settle (next_req s) o) s1 in
    attempts s1 = attempts s ++ [ToggleAttempt (negb pre)]
    /\ disableButtons (uiState s1) = negb pre
    /\ disableButtons (uiState s2) = (if b then negb pre else pre).
Proof.
  intros s o b HI Ha Hprev Hres pre s1 s2.
  destruct HI as [[Hd Hc] Hn Ht Hat Hrq].
  assert (Hpre : disableButtons (uiState s) = pre) by reflexivity.
  assert (E1 : s1 = commit (set_uiState (mkUIState (negb pre)) s)).
  { subst s1. cbn. rewrite Ha. unfold toggleDisabled, uiDispatch. now rewrite Ha. }
  assert (E2 : s2 = settle (next_req s) o s1) by reflexivity.
  clearbody s2 s1 pre.
  set (s0 := set_uiState (mkUIState (negb pre)) s) in E1.
  assert (Hd0 : dep_disable s0 <> disableButtons (uiState s0)).
  { cbn. rewrite Hd, Hpre. destruct pre; discriminate. }
  destruct (disable_change_commit s0 Ha Hd0 Hc Hn Ht Hat Hrq)
    as (I1 & _ & _ & _ & U1 & _ & P1 & _ & _ & A1 & R1).
  rewrite <- E1 in I1, U1, P1, A1, R1.
  assert (Hneq : Bool.eqb (prevDisableRef s0) (disableButtons (uiState s0)) = false).
  { cbn. rewrite Hprev, Hpre. destruct pre; reflexivity. }
  rewrite Hneq in R1. destruct R1 as (At & In1 & _ & _ & M1).
  cbn in At, In1, U1, P1, M1.
  split; [exact At|]. split; [now rewrite U1|].
  rewrite E2. unfold settle, deliver, find_request.
  set (q := mkRequest (next_req s) (ToggleReq (negb pre)) (length (mounted_vars s))) in *.
  rewrite In1.
  change (next_req s) with (req_id q) at 1.
  rewrite find_new_request by exact Hrq.
  destruct (callAnilistStudio o) as [p l]. cbn in Hres. subst p.
  change (next_req s) with (req_id q).
  destruct (commit_state
              (settle_request q (Fulfilled b)
                 (set_console (console s1 ++ l) (remove_request (req_id q) s1))))
    as (-> & _ & _).
  assert (Eq : uiState (settle_request q (Fulfilled b)
                          (set_console (console s1 ++ l) (remove_request (req_id q) s1)))
               = if b then uiState s1 else mkUIState (prevDisableRef s1))
    by exact (proj1 (toggle_chain_live s1 (req_id q) (negb pre)
                       (length (mounted_vars s)) b l A1 M1)).
  rewrite Eq, U1, P1, Hprev, Hpre. now destruct b.
Qed.

(** The scenario of the specification: the flag is [true], a toggle to
    [false] is answered by a failure, and the flag is [true] again. *)
Example toggle_rollback_settled_first_scenario :
  let s := run [ClickToggle; Settle 0 fetch_ok] mount in
  disableButtons (uiState s) = true
  /\ disableButtons (uiState (step ClickToggle s)) = false
  /\ disableButtons (uiState (step (Settle 1 fetch_http_error) (step ClickToggle s))) = true
  /\ disableButtons (uiState (step (Settle 1 fetch_ok) (step ClickToggle s))) = false.
Proof.
  cbv zeta.
  assert (HI : Inv (run [ClickToggle; Settle 0 fetch_ok] mount))
    by (apply run_Inv, mount_Inv).
  pose proof (toggle_rollback_settled_first _ fetch_http_error false HI
                eq_refl eq_refl eq_refl) as (_ & H1 & H2).
  pose proof (toggle_rollback_settled_first _ fetch_ok true HI
                eq_refl eq_refl eq_refl) as (_ & _ & H3).
  split; [reflexivity|]. split; [exact H1|]. split; [exact H2 | exact H3].
Defined.

(** C2, at the failing input.  The flag is [false] and the attempt of an
    earlier toggle, torn down since, is still in flight.  The user toggles
    the flag to [true]; the effect issues the attempt for [true].  The
    earlier attempt settles first: its [.then] is guarded by [mounted], but
    its [.finally] assigns the flag value of its own render ([true]) to
    [prevDisableRef] outside the guard.  The attempt of the toggle then
    returns failure, and its [.then] dispatches [SET_DISABLE] with
    [prevDisableRef.current], which is now the post-toggle value: once the
    attempt has settled (no request is left in flight) the flag is [true],
    not its pre-toggle value [false]. *)
Theorem toggle_rollback_lost_after_stale_settle :
  let s0 := run [ClickToggle; ClickToggle] mount in
  let s1 := step ClickToggle s0 in
  let s2 := step (Settle 0 fetch_ok) s1 in
  let s3 := step (Settle 1 fetch_http_error) s2 in
  (disableButtons (uiState s0) = false /\ prevDisableRef s0 = false
   /\ inflight s0 = [mkRequest 0 (ToggleReq true) 0]
   /\ read_mounted 0 s0 = false)
  /\ (disableButtons (uiState s1) = true
      /\ attempts s1 = attempts s0 ++ [ToggleAttempt true]
      /\ inflight s1 = inflight s0 ++ [mkRequest 1 (ToggleReq true) 1]
      /\ read_mounted 1 s1 = true)
  /\ (disableButtons (uiState s2) = true /\ prevDisableRef s2 = true
      /\ inflight s2 = [mkRequest 1 (ToggleReq true) 1]
      /\ read_mounted 1 s2 = true)
  /\ callAnilistStudio fetch_http_error = (Fulfilled false, [])
  /\ (disableButtons (uiState s3) = true
      /\ inflight s3 = [] /\ attempts s3 = attempts s1 /\ isSaving s3 = false).
Proof.
  cbv zeta.
  repeat match goal with |- _ /\ _ => split end; vm_compute; reflexivity.
Qed.

(** The rollback is itself a change of the flag, and [.finally] has by
    then stored the post-toggle value in [prevDisableRef]: the effect runs
    again and issues a second attempt, for the rolled-back value. *)
Example rollback_notifies_again :
  let s := run [ClickToggle; Settle 0 fetch_http_error] mount in
  disableButtons (uiState s) = false
  /\ prevDisableRef s = true
  /\ attempts s = [ToggleAttempt true; ToggleAttempt false]
  /\ inflight s = [mkRequest 1 (ToggleReq false) 1].
Proof. cbv zeta. repeat split; vm_compute; reflexivity. Qed.

(** A superseding toggle tears the running effect down: its [mounted]
    variable reads [false] from then on. *)
Lemma toggle_teardown_clears_mounted (s : App) (m : nat) :
  Inv s -> alive s = true -> toggle_cleanup s = Some m ->
  (m < length (mounted_vars s))%nat ->
  read_mounted m (step ClickToggle s) = false.
Proof.
  intros HI Ha Hcl Hm.
  destruct (inv_deps _ HI) as [Hd Hc].
  cbn. rewrite Ha. unfold toggleDisabled, uiDispatch. rewrite Ha.
  rewrite commit_disable_changed; cbn; try assumption.
  2:{ rewrite Hd. destruct (disableButtons (uiState s)); discriminate. }
  rewrite Hcl.
  assert (Hread : forall vars' : list bool,
             (<[m:=false]> (mounted_vars s) ++ vars') !! m = Some false).
  { intros vars'. rewrite lookup_app_l by (rewrite length_insert; exact Hm).
    now apply list_lookup_insert_eq. }
  unfold toggle_effect, toggle_cleanup_run, write_mounted, new_mounted, read_mounted,
    setIsSaving, start_request.
  destruct s; cbn in *.
  destruct (Bool.eqb prevDisableRef0 (negb (disableButtons uiState0))); cbn.
  - specialize (Hread []). rewrite app_nil_r in Hread. now rewrite Hread.
  - destruct alive0; cbn; now rewrite Hread.
Qed.

(** For the promises [callAnilistStudio] does produce, the result of a
    toggle attempt whose effect was torn down changes neither the flag nor
    [isSaving] nor the counter. *)
Lemma toggle_late_result_ignored (s : App) (id : nat) (q : Request) (d : bool)
    (o : FetchOutcome) :
  Inv s -> find_request id s = Some q -> req_kind q = ToggleReq d ->
  read_mounted (req_mounted q) s = false ->
  let s' := step (Settle id o) s in
  uiState s' = uiState s /\ isSaving s' = isSaving s /\ count s' = count s.
Proof.
  intros HI Hf Hk Hm s'. subst s'. cbn [step]. unfold settle, deliver. rewrite Hf.
  apply find_request_id in Hf as [<- _].
  destruct (callAnilistStudio_fulfilled o) as (b & l & ->).
  destruct (inv_deps _ HI) as [Hd Hc].
  destruct (settle_request_count q (Fulfilled b)
              (set_console (console s ++ l) (remove_request (req_id q) s)))
    as (E1 & E2 & E3 & _ & _).
  destruct q as [qid k m]. cbn in Hk, Hm. subst k. cbn [req_id] in *.
  destruct (toggle_chain_torn_down s qid d m b l Hm) as (U & S & C).
  rewrite commit_unchanged; [tauto|].
  split; [now rewrite E3, U | now rewrite E2, C].
Qed.

(** The [.catch] handler of the toggle effect is the one handler without a
    [mounted] guard: handed a rejected promise after the teardown it would
    dispatch [SET_DISABLE] and flip the flag from [true] to [false].  No
    execution reaches it: [callAnilistStudio] never rejects, and [deliver]
    is only ever applied to what [callAnilistStudio] returns. *)
Example toggle_catch_handler_unguarded :
  find_request 0 three_toggles = Some (mkRequest 0 (ToggleReq true) 0)
  /\ read_mounted 0 three_toggles = false
  /\ disableButtons (uiState three_toggles) = true
  /\ disableButtons (uiState (deliver 0 (Rejected NetworkError, []) three_toggles)) = false
  /\ console (deliver 0 (Rejected NetworkError, []) three_toggles)
     = [ErrRequestFailed NetworkError]
  /\ disableButtons (uiState (deliver 0 (Fulfilled false, []) three_toggles)) = true.
Proof. repeat split; vm_compute; reflexivity. Qed.

(* ===================================================================== *)
(** * The counter notifier: what a settled request does *)
(* ===================================================================== *)

(** C4, at the failing input.  The arrow function the timer callback
    returns is dropped by [setTimeout], so the [mounted] variable of the
    request for the superseded value 1 still reads [true] after the counter
    effect was torn down, and the late result sets [isSaving] to [false],
    also while the request for the new value is in flight. *)
Lemma stale_count_result_sets_isSaving :
  find_request 0 superseded_in_flight = Some (mkRequest 0 (CountReq 1) 0)
  /\ count superseded_in_flight = 2
  /\ read_mounted 0 superseded_in_flight = true
  /\ isSaving superseded_in_flight = true
  /\ isSaving (step (Settle 0 fetch_ok) superseded_in_flight) = false
  /\ (let s := step (Elapse 300) superseded_in_flight in
      inflight s = [mkRequest 0 (CountReq 1) 0; mkRequest 1 (CountReq 2) 1]
      /\ isSaving s = true
      /\ inflight (step (Settle 0 fetch_http_error) s) = [mkRequest 1 (CountReq 2) 1]
      /\ isSaving (step (Settle 0 fetch_http_error) s) = false).
Proof. cbv zeta. repeat split; vm_compute; reflexivity. Qed.

(** The cancelling half of the teardown does hold: the counter effect's
    cleanup leaves no timer armed. *)
Lemma count_cleanup_cancels (s : App) :
  Inv s -> count_cleanup s = true -> timers (count_cleanup_run s) = [].
Proof.
  intros HI Hcl.
  unfold count_cleanup_run, window_clearTimeout, ref_truthy.
  destruct (inv_timers _ HI) as [Ht | (t & Ht & Hr & _ & _ & Hid)].
  - destruct (countTimeoutRef s) as [r|]; [|exact Ht].
    destruct (r =? 0); cbn; [exact Ht | now rewrite Ht].
  - rewrite Hr. destruct (Z.eqb_spec (timer_id t) 0); [lia|]. cbn.
    rewrite Ht. apply filter_other_id.
Qed.

(** The chain of a counter request, whatever its promise. *)
Lemma count_chain_frame (s : App) (id : nat) (c : Z) (m : nat) (p : Settled bool)
    (l : list LogEntry) :
  let s' := settle_request (mkRequest id (CountReq c) m) p
              (set_console (console s ++ l) (remove_request id s)) in
  count s' = count s /\ uiState s' = uiState s
  /\ prevDisableRef s' = prevDisableRef s
  /\ timers s' = timers s /\ attempts s' = attempts s
  /\ dep_count s' = dep_count s /\ dep_disable s' = dep_disable s
  /\ prevCountRef s' = c
  /\ isSaving s' = (if alive s && read_mounted m s then false else isSaving s)
  /\ console s' = console s ++ l ++
       match p with
       | Fulfilled true => []
       | Fulfilled false => if read_mounted m s then [WarnCountUnsuccessful] else []
       | Rejected e => [ErrCountFailed e]
       end.
Proof.
  assert (Hc : forall l' x, read_mounted m (set_console l' x) = read_mounted m x)
    by reflexivity.
  assert (Hrm : forall x, read_mounted m (remove_request id x) = read_mounted m x)
    by reflexivity.
  unfold settle_request, promise_chain, count_then, count_catch, count_finally,
    console_log.
  cbn [req_kind req_mounted].
  destruct (read_mounted m s) eqn:Hr, (alive s) eqn:Ha, p as [[|]|e];
    rewrite ?Hc, ?Hrm, ?Hr; cbn [negb andb];
    rewrite ?Hc, ?Hrm, ?Hr;
    unfold setIsSaving; cbn; rewrite ?Ha; cbn;
    rewrite <- ?app_assoc, ?app_nil_r; repeat split; reflexivity.
Qed.

(** C8.  When the promise of a counter request settles as a failure
    ([false], or a rejection), the counter, the flag, the timers and the
    list of attempts are what they were: nothing is rolled back and nothing
    is retried.  The failure is written to the console, and [isSaving] is
    cleared (when the component is mounted and the request's [mounted]
    variable reads [true]).  [step (Settle id o) s] is
    [deliver id (callAnilistStudio o) s]. *)
Theorem counter_failure_only_logged :
  forall (s : App) (id : nat) (q : Request) (c : Z)
         (p : Settled bool) (l : list LogEntry),
    Inv s -> find_request id s = Some q -> req_kind q = CountReq c ->
    p <> Fulfilled true ->
    let s' := deliver id (p, l) s in
    count s' = count s
    /\ uiState s' = uiState s
    /\ prevDisableRef s' = prevDisableRef s
    /\ timers s' = timers s
    /\ attempts s' = attempts s
    /\ isSaving s' = (if alive s && read_mounted (req_mounted q) s then false
                      else isSaving s)
    /\ console s' = console s ++ l ++
         match p with
         | Fulfilled _ =>
             if read_mounted (req_mounted q) s then [WarnCountUnsuccessful] else []
         | Rejected e => [ErrCountFailed e]
         end.
Proof.
  intros s id q c p l HI Hf Hk Hp s'. subst s'.
  unfold deliver. rewrite Hf.
  apply find_request_id in Hf as [<- _].
  destruct q as [qid k m]. cbn in Hk. subst k. cbn [req_id req_mounted].
  destruct (count_chain_frame s qid c m p l)
    as (C & U & P & T & A & Dc & Dd & _ & S & L).
  destruct (inv_deps _ HI) as [Hd Hc].
  rewrite commit_unchanged.
  2:{ split; [now rewrite Dd, U | now rewrite Dc, C]. }
  repeat (split; [assumption|]).
  rewrite L. destruct p as [[|]|e]; [contradiction | reflexivity | reflexivity].
Qed.

Lemma counter_failure_only_logged_witness :
  let s := run [ClickIncrement; Elapse 300] mount in
  let s' := step (Settle 0 fetch_http_error) s in
  count s' = 1 /\ uiState s' = uiState s /\ isSaving s' = false
  /\ console s' = [WarnCountUnsuccessful].
Proof.
  cbv zeta.
  assert (HI : Inv (run [ClickIncrement; Elapse 300] mount))
    by (apply run_Inv, mount_Inv).
  pose proof (counter_failure_only_logged _ 0%nat (mkRequest 0 (CountReq 1) 0) 1
                (Fulfilled false) [] HI eq_refl eq_refl ltac:(discriminate))
    as (C & U & _ & _ & _ & S & L).
  split; [exact C|]. split; [exact U|]. split; [exact S | exact L].
Defined.

(* ===================================================================== *)
(** * The first run of the effects *)
(* ===================================================================== *)

(** C7.  The mount issues no call of [callAnilistStudio] and arms no
    timer; more generally a run of either effect that finds its ref equal
    to the watched value issues no call, arms no timer and registers no
    cleanup. *)
Theorem initial_mount_skips_notification :
  (attempts mount = [] /\ timers mount = [] /\ inflight mount = []
   /\ isSaving mount = false)
  /\ (forall s : App,
        prevDisableRef s = disableButtons (uiState s) ->
        attempts (toggle_effect s) = attempts s
        /\ inflight (toggle_effect s) = inflight s
        /\ timers (toggle_effect s) = timers s
        /\ isSaving (toggle_effect s) = isSaving s
        /\ toggle_cleanup (toggle_effect s) = None)
  /\ (forall s : App,
        prevCountRef s = count s ->
        attempts (count_effect s) = attempts s
        /\ inflight (count_effect s) = inflight s
        /\ timers (count_effect s) = timers s
        /\ isSaving (count_effect s) = isSaving s
        /\ count_cleanup (count_effect s) = false).
Proof.
  split; [repeat split; reflexivity|].
  split.
  - intros s H. unfold toggle_effect. rewrite H, Bool.eqb_reflx.
    repeat split; reflexivity.
  - intros s H. unfold count_effect. rewrite H, Z.eqb_refl.
    repeat split; reflexivity.
Qed.

Lemma initial_mount_skips_notification_witness :
  attempts (toggle_effect initial_app) = []
  /\ timers (count_effect (toggle_effect initial_app)) = [].
Proof.
  destruct initial_mount_skips_notification as (_ & Ht & Hc).
  split.
  - exact (proj1 (Ht initial_app eq_refl)).
  - exact (proj1 (proj2 (proj2 (Hc (toggle_effect initial_app) eq_refl)))).
Defined.

(* ===================================================================== *)
(** * The [.catch] handler of the toggle effect *)
(* ===================================================================== *)

Lemma callAnilistStudio_log (o : FetchOutcome) (e : JsError) :
  ~ In (ErrRequestFailed e) (snd (callAnilistStudio o)).
Proof.
  unfold callAnilistStudio, async_try_catch.
  destruct (callAnilistStudio_try o); cbn; [tauto|].
  intros [H | []]. discriminate H.
Qed.

Lemma fulfilled_chain_console (q : Request) (b : bool) (s : App) (e : JsError) :
  In (ErrRequestFailed e) (console (settle_request q (Fulfilled b) s)) ->
  In (ErrRequestFailed e) (console s).
Proof.
  unfold_handlers. destruct q as [qid [d|c] m], s; cbn; break_ifs; cbn;
    intros H; try assumption;
    apply in_app_or in H; destruct H as [H | [H | []]];
    first [assumption | discriminate H].
Qed.

Lemma fire_timer_console (t : Timer) (s : App) :
  console (fire_timer t s) = console s.
Proof.
  unfold fire_timer.
  destruct (existsb _ _); [|reflexivity].
  destruct (commit_state
              (fst (count_timeout_callback (timer_id t) (timer_count t)
                      (set_now (Z.max (now s) (timer_due t))
                         (window_clearTimeout (timer_id t) s)))))
    as (_ & _ & ->).
  unfold count_timeout_callback, new_mounted, setIsSaving, start_request.
  destruct s; cbn. break_ifs; reflexivity.
Qed.

Lemma elapse_console (dt : Z) (s : App) : console (elapse dt s) = console s.
Proof.
  unfold elapse. destruct (dt <? 0); [reflexivity|]. cbn.
  generalize (sort_by_due (List.filter (fun t => timer_due t <=? now s + dt) (timers s))).
  intros due. revert s. induction due as [|t due IH]; intros s; cbn; [reflexivity|].
  rewrite IH. apply fire_timer_console.
Qed.

Lemma unmount_console (s : App) : console (unmount s) = console s.
Proof.
  unfold unmount, toggle_cleanup_run, write_mounted, count_cleanup_run,
    window_clearTimeout.
  destruct s; cbn. break_ifs; reflexivity.
Qed.

Lemma step_catch_unreached (ev : Event) (s : App) (e : JsError) :
  In (ErrRequestFailed e) (console (step ev s)) -> In (ErrRequestFailed e) (console s).
Proof.
  destruct ev; cbn.
  - destruct (alive s && negb (disableButtons (uiState s))); [|tauto].
    destruct (commit_state (handleIncrement s)) as (_ & _ & ->).
    unfold handleIncrement, setCount. destruct (alive s); tauto.
  - destruct (alive s && negb (disableButtons (uiState s))); [|tauto].
    destruct (commit_state (handleReset s)) as (_ & _ & ->).
    unfold handleReset, setCount. destruct (alive s); tauto.
  - destruct (alive s); [|tauto].
    destruct (commit_state (toggleDisabled s)) as (_ & _ & ->).
    unfold toggleDisabled, uiDispatch. destruct (alive s); tauto.
  - destruct (alive s && negb (disableButtons (uiState s))); [|tauto].
    destruct (commit_state (toggleDisabled s)) as (_ & _ & ->).
    unfold toggleDisabled, uiDispatch. destruct (alive s); tauto.
  - now rewrite elapse_console.
  - unfold settle, deliver.
    destruct (find_request id s) as [q|]; [|tauto].
    destruct (callAnilistStudio_fulfilled o) as (b & l & Hcall).
    pose proof (callAnilistStudio_log o e) as Hlog.
    rewrite Hcall in *. cbn in Hlog.
    destruct (commit_state
                (settle_request q (Fulfilled b)
                   (set_console (console s ++ l) (remove_request id s))))
      as (_ & _ & ->).
    intros H. apply fulfilled_chain_console in H. cbn in H.
    apply in_app_or in H. tauto.
  - now rewrite unmount_console.
Qed.

(** C9.  The promise of [callAnilistStudio] is fulfilled with a boolean
    for every outcome of [fetch] and of [res.json()], never rejected; and in
    no execution from the initial mount does the [.catch] handler of the
    toggle effect run (its message never reaches the console). *)
Theorem callAnilistStudio_never_rejects :
  (forall o : FetchOutcome, exists b l, callAnilistStudio o = (Fulfilled b, l))
  /\ (forall (evs : list Event) (e : JsError),
        ~ In (ErrRequestFailed e) (console (run evs mount))).
Proof.
  split; [exact callAnilistStudio_fulfilled|].
  intros evs e.
  assert (H : forall s, In (ErrRequestFailed e) (console (run evs s)) ->
                        In (ErrRequestFailed e) (console s)).
  { induction evs as [|ev evs IH]; intros s Hin; cbn in *; [exact Hin|].
    apply IH in Hin. now apply step_catch_unreached in Hin. }
  intros Hin. apply H in Hin. exact Hin.
Qed.

(* ===================================================================== *)
(** * Further properties of the component *)
(* ===================================================================== *)

Lemma commit_alive (s : App) : alive (commit s) = alive s.
Proof. apply commit_same_state. Qed.

Lemma fire_timer_state (t : Timer) (s : App) :
  count (fire_timer t s) = count s /\ uiState (fire_timer t s) = uiState s
  /\ alive (fire_timer t s) = alive s.
Proof.
  unfold fire_timer.
  destruct (existsb _ _); [|tauto].
  set (s1 := fst (count_timeout_callback _ _ _)).
  destruct (commit_state s1) as (-> & -> & _). rewrite commit_alive.
  subst s1. unfold count_timeout_callback, new_mounted, setIsSaving, start_request.
  destruct s; cbn. break_ifs; repeat split; reflexivity.
Qed.

Lemma elapse_state (dt : Z) (s : App) :
  count (elapse dt s) = count s /\ uiState (elapse dt s) = uiState s
  /\ alive (elapse dt s) = alive s.
Proof.
  unfold elapse. destruct (dt <? 0); [tauto|]. cbn.
  generalize (sort_by_due (List.filter (fun t => timer_due t <=? now s + dt) (timers s))).
  intros due. revert s. induction due as [|t due IH]; intros s; cbn; [tauto|].
  destruct (IH (fire_timer t s)) as (-> & -> & ->). apply fire_timer_state.
Qed.

Lemma unmount_state (s : App) :
  count (unmount s) = count s /\ uiState (unmount s) = uiState s
  /\ isSaving (unmount s) = isSaving s.
Proof.
  unfold unmount, toggle_cleanup_run, write_mounted, count_cleanup_run,
    window_clearTimeout.
  destruct s; cbn. break_ifs; repeat split; reflexivity.
Qed.

(** The counter moves only by the two counter buttons, and only while they
    are enabled. *)
Lemma step_count (e : Event) (s : App) :
  count (step e s) = count s
  \/ (disableButtons (uiState s) = false
      /\ (count (step e s) = count s + 1 \/ count (step e s) = 0)).
Proof.
  destruct e; cbn.
  - destruct (alive s) eqn:Ha, (disableButtons (uiState s)) eqn:Hd; cbn; try tauto.
    right. split; [reflexivity|]. left.
    destruct (commit_state (handleIncrement s)) as (_ & -> & _).
    unfold handleIncrement, setCount. now rewrite Ha.
  - destruct (alive s) eqn:Ha, (disableButtons (uiState s)) eqn:Hd; cbn; try tauto.
    right. split; [reflexivity|]. right.
    destruct (commit_state (handleReset s)) as (_ & -> & _).
    unfold handleReset, setCount. now rewrite Ha.
  - left. destruct (alive s) eqn:Ha; [|reflexivity].
    destruct (commit_state (toggleDisabled s)) as (_ & -> & _).
    unfold toggleDisabled, uiDispatch. now rewrite Ha.
  - left. destruct (alive s && negb (disableButtons (uiState s))) eqn:E; [|reflexivity].
    destruct (commit_state (toggleDisabled s)) as (_ & -> & _).
    unfold toggleDisabled, uiDispatch. destruct (alive s); reflexivity.
  - left. apply elapse_state.
  - left. unfold settle, deliver.
    destruct (find_request id s) as [q|]; [|reflexivity].
    destruct (callAnilistStudio o) as [p l].
    set (s1 := set_console _ _).
    destruct (commit_state (settle_request q p s1)) as (_ & -> & _).
    destruct (settle_request_count q p s1) as (-> & _). reflexivity.
  - left. apply unmount_state.
Qed.

(** X1.  The counter is never negative: it starts at 0 and only
    [handleIncrement] and [handleReset] write it. *)
Theorem count_never_negative :
  forall evs : list Event, 0 <= count (run evs mount).
Proof.
  intros evs.
  assert (H : forall s, 0 <= count s -> 0 <= count (run evs s)).
  { induction evs as [|e evs IH]; intros s Hs; cbn; [exact Hs|].
    apply IH. destruct (step_count e s) as [-> | [_ [-> | ->]]]; lia. }
  apply H. cbn. lia.
Qed.

(** X2.  While [disableButtons] is set no transition changes the counter:
    the increment and reset buttons are rendered disabled, and nothing
    else writes [count]. *)
Theorem disabled_buttons_freeze_counter :
  forall (e : Event) (s : App),
    disableButtons (uiState s) = true -> count (step e s) = count s.
Proof.
  intros e s Hd.
  destruct (step_count e s) as [H | [H _]]; [exact H | congruence].
Qed.

Lemma disabled_buttons_freeze_counter_witness :
  let s := run [ClickIncrement; ClickToggle] mount in
  count (step ClickIncrement s) = 1 /\ count (step ClickReset s) = 1.
Proof.
  cbv zeta. split.
  - exact (disabled_buttons_freeze_counter ClickIncrement
             (run [ClickIncrement; ClickToggle] mount) eq_refl).
  - exact (disabled_buttons_freeze_counter ClickReset
             (run [ClickIncrement; ClickToggle] mount) eq_refl).
Defined.

(** Once the component is unmounted and no timer is armed, a transition
    changes no component state and makes no call. *)
Lemma unmounted_step (e : Event) (s : App) :
  alive s = false -> timers s = [] ->
  let s' := step e s in
  alive s' = false /\ timers s' = []
  /\ count s' = count s /\ uiState s' = uiState s /\ isSaving s' = isSaving s
  /\ attempts s' = attempts s.
Proof.
  intros Ha Ht s'. subst s'.
  destruct e; cbn; rewrite ?Ha; cbn; try tauto.
  - destruct (Z.lt_ge_cases dt 0).
    + rewrite elapse_negative by assumption. tauto.
    + rewrite elapse_no_timer by assumption. cbn. tauto.
  - unfold settle, deliver.
    destruct (find_request id s) as [q|]; [|tauto].
    destruct (callAnilistStudio o) as [p l].
    unfold commit.
    assert (Hal : forall x, alive x = false ->
              alive (settle_request q p x) = false
              /\ timers (settle_request q p x) = timers x
              /\ count (settle_request q p x) = count x
              /\ uiState (settle_request q p x) = uiState x
              /\ isSaving (settle_request q p x) = isSaving x
              /\ attempts (settle_request q p x) = attempts x).
    { intros x Hx. unfold_handlers. destruct x; cbn in *. subst.
      break_ifs; repeat split; first [reflexivity | cbn in *; congruence]. }
    destruct (Hal (set_console (console s ++ l) (remove_request id s)) Ha)
      as (A & T & C & U & S & At).
    rewrite A. cbn. rewrite A, T, C, U, S, At. cbn. tauto.
  - unfold unmount. rewrite Ha. cbn. tauto.
Qed.

Lemma unmount_alive (s : App) : alive (unmount s) = false.
Proof. unfold unmount. destruct (alive s) eqn:Ha; cbn; [reflexivity | exact Ha]. Qed.

(** X3.  Unmounting is final: whatever happens afterwards (clicks, time
    passing, requests settling), the counter, the flag and [isSaving] stay
    as they were, no timer is armed and [callAnilistStudio] is never called
    again. *)
Theorem unmount_is_final :
  forall (before after : list Event),
    let u := step Unmount (run before mount) in
    let s := run after u in
    count s = count u /\ uiState s = uiState u /\ isSaving s = isSaving u
    /\ attempts s = attempts u /\ timers s = [] /\ alive s = false.
Proof.
  intros before after u s.
  assert (Hu : alive u = false /\ timers u = []).
  { subst u. cbn. split; [apply unmount_alive|].
    apply unmount_timers, run_Inv, mount_Inv. }
  clearbody u. subst s. revert u Hu.
  induction after as [|e after IH]; intros u [Ha Ht]; [cbn; tauto|].
  change (run (e :: after) u) with (run after (step e u)).
  destruct (unmounted_step e u Ha Ht) as (A & T & C & U & S & At).
  destruct (IH (step e u) (conj A T)) as (-> & -> & -> & -> & -> & ->).
  tauto.
Qed.

(** X4.  The "Count Animes Buttons" button calls [toggleDisabled] and is
    itself disabled by the flag: clicking it leaves the flag set, and a
    second click does nothing. *)
Theorem count_animes_button_only_disables :
  forall s : App,
    (alive s = true -> disableButtons (uiState (step ClickCountAnimes s)) = true)
    /\ step ClickCountAnimes (step ClickCountAnimes s) = step ClickCountAnimes s.
Proof.
  intros s.
  assert (Hflag : alive s = true ->
                  disableButtons (uiState (step ClickCountAnimes s)) = true).
  { intros Ha. cbn. rewrite Ha. cbn.
    destruct (disableButtons (uiState s)) eqn:Hd; cbn; [exact Hd|].
    destruct (commit_state (toggleDisabled s)) as (-> & _).
    unfold toggleDisabled, uiDispatch. rewrite Ha. cbn. now rewrite Hd. }
  split; [exact Hflag|].
  destruct (alive s && negb (disableButtons (uiState s))) eqn:E.
  - apply andb_prop in E as [Ha _]. specialize (Hflag Ha).
    cbn [step] in *. rewrite Hflag. now rewrite andb_false_r.
  - cbn [step]. rewrite E. now rewrite E.
Qed.

Lemma count_animes_button_only_disables_witness :
  disableButtons (uiState (step ClickCountAnimes mount)) = true.
Proof.
  exact (proj1 (count_animes_button_only_disables mount) eq_refl).
Defined.

(* ===================================================================== *)
(** * Calls per transition *)
(* ===================================================================== *)

Lemma one_call_same (s s' : App) : attempts s' = attempts s -> one_call s s'.
Proof. intros H. now left. Qed.

Lemma step_one_call (e : Event) (s : App) : Inv s -> one_call s (step e s).
Proof.
  intros HI. pose proof (Inv_Core _ HI) as HC. destruct (inv_deps _ HI) as [Hd Hc].
  assert (Hcount : forall v, alive s = true -> one_call s (commit (set_count v s))).
  { intros v Ha.
    destruct (Z.eq_dec v (count s)) as [->|Hv].
    - rewrite commit_unchanged; [now left|]. destruct s; split; assumption.
    - destruct (count_changed_spec s v HI Ha Hv) as (_ & _ & _ & A & _). now left. }
  assert (Hdis : forall s0, attempts s0 = attempts s -> Core s0 ->
                   (alive s0 = false -> dep_disable s0 = disableButtons (uiState s0)) ->
                   dep_count s0 = count s0 -> one_call s (commit s0)).
  { intros s0 E (Hn & Ht & Hat & Hrq) Hdead Hc0.
    destruct (Bool.bool_dec (dep_disable s0) (disableButtons (uiState s0))) as [Hd0|Hd0].
    - rewrite commit_unchanged by (split; assumption). now left.
    - assert (Ha : alive s0 = true).
      { destruct (alive s0); [reflexivity|]. now specialize (Hdead eq_refl). }
      destruct (disable_change_commit s0 Ha Hd0 Hc0 Hn Ht Hat Hrq)
        as (_ & _ & _ & _ & _ & _ & _ & _ & _ & _ & A).
      destruct (Bool.eqb (prevDisableRef s0) (disableButtons (uiState s0)));
        destruct A as (A & _); rewrite E in A.
      + now left.
      + right. left. eexists. exact A. }
  destruct e; cbn.
  - destruct (alive s && negb (disableButtons (uiState s))) eqn:E; [|now left].
    apply andb_prop in E as [Ha _].
    unfold handleIncrement, setCount. rewrite Ha. now apply Hcount.
  - destruct (alive s && negb (disableButtons (uiState s))) eqn:E; [|now left].
    apply andb_prop in E as [Ha _].
    unfold handleReset, setCount. rewrite Ha. now apply Hcount.
  - destruct (alive s) eqn:Ha; [|now left].
    unfold toggleDisabled, uiDispatch. rewrite Ha.
    apply Hdis; try reflexivity; try assumption. cbn. congruence.
  - destruct (alive s && negb (disableButtons (uiState s))) eqn:E; [|now left].
    apply andb_prop in E as [Ha _].
    unfold toggleDisabled, uiDispatch. rewrite Ha.
    apply Hdis; try reflexivity; try assumption. cbn. congruence.
  - destruct (Z.lt_ge_cases dt 0) as [Hneg|Hpos].
    { rewrite elapse_negative by assumption. now left. }
    destruct (inv_timers _ HI) as [Ht | (t & Ht & _)].
    { rewrite elapse_no_timer by assumption. now left. }
    destruct (Z.lt_ge_cases (now s + dt) (timer_due t)).
    { rewrite (elapse_before_due dt s t) by assumption. now left. }
    rewrite (elapse_fires dt s t) by assumption.
    destruct (fire_timer_spec s t HI Ht) as (_ & _ & A & _).
    right. right. exists t. rewrite Ht. split; [now left | exact A].
  - unfold settle, deliver.
    destruct (find_request id s) as [q|] eqn:Hf; [|now left].
    apply find_request_id in Hf as [<- _].
    destruct (callAnilistStudio o) as [p l].
    set (s1 := set_console (console s ++ l) (remove_request (req_id q) s)).
    destruct (settle_request_count q p s1) as (E1 & E2 & E3 & E4 & E5).
    destruct (settle_request_frame q p l s) as (_ & _ & F3).
    apply Hdis; try assumption.
    + now apply settle_request_Core.
    + rewrite E4, E3. intros Ha. rewrite (E5 Ha). exact Hd.
    + rewrite E1, E2. exact Hc.
  - left. apply unmount_attempts.
Qed.

Lemma attempt_timers_app (l1 l2 : list Attempt) :
  attempt_timers (l1 ++ l2) = attempt_timers l1 ++ attempt_timers l2.
Proof.
  induction l1 as [|[d|tid c] l1 IH]; cbn; [reflexivity | exact IH | now rewrite IH].
Qed.

Lemma attempt_timers_In (l : list Attempt) (tid : Z) :
  In tid (attempt_timers l) -> exists c, In (CountAttempt tid c) l.
Proof.
  induction l as [|[d|tid' c] l IH]; cbn; [tauto | |].
  - intros H. destruct (IH H) as [c' Hc]. exists c'. now right.
  - intros [<- | H]; [exists c; now left|].
    destruct (IH H) as [c' Hc]. exists c'. now right.
Qed.

(** X5.  In every execution each timer handle accounts for at most one
    call of [callAnilistStudio] by the counter path (a timer fires at most
    once), and a single transition makes at most one call. *)
Theorem each_timer_at_most_one_attempt :
  forall evs : list Event,
    NoDup (attempt_timers (attempts (run evs mount)))
    /\ forall e, one_call (run evs mount) (step e (run evs mount)).
Proof.
  intros evs.
  assert (H : forall s, Inv s -> NoDup (attempt_timers (attempts s)) ->
                        Inv (run evs s) /\ NoDup (attempt_timers (attempts (run evs s)))).
  { induction evs as [|e evs IH]; intros s HI Hnd; cbn; [tauto|].
    apply IH; [now apply step_Inv|].
    destruct (step_one_call e s HI) as [-> | [[d ->] | (t & Hin & ->)]].
    - exact Hnd.
    - rewrite attempt_timers_app. cbn. now rewrite app_nil_r.
    - rewrite attempt_timers_app. cbn.
      apply NoDup_app. split; [exact Hnd|]. split; [|apply NoDup_singleton].
      intros tid Hold Hnew. apply list_elem_of_In in Hold, Hnew.
      destruct Hnew as [<- | []].
      apply attempt_timers_In in Hold as [c Hc].
      destruct (inv_attempts _ HI _ _ Hc) as [_ Hne].
      exact (Hne t Hin eq_refl). }
  destruct (H mount mount_Inv) as [HI Hnd]; [constructor|].
  split; [exact Hnd|]. intros e. now apply step_one_call.
Qed.

(* ===================================================================== *)
(** * Rounds of the toggle notifier *)
(* ===================================================================== *)

Lemma settle_request_requests (q : Request) (p : Settled bool) (l : list LogEntry)
    (s : App) :
  let s' := settle_request q p (set_console (console s ++ l) (remove_request (req_id q) s)) in
  next_req s' = next_req s
  /\ inflight s' = List.filter (fun q' => negb (Nat.eqb (req_id q') (req_id q))) (inflight s)
  /\ toggle_cleanup s' = toggle_cleanup s.
Proof.
  unfold_handlers; destruct s; cbn; break_ifs; repeat split; reflexivity.
Qed.

(** A toggle from a settled state: the effect issues its attempt and
    waits. *)
Lemma toggle_from_settled (s : App) :
  Inv s -> alive s = true -> prevDisableRef s = disableButtons (uiState s) ->
  let s1 := step ClickToggle s in
  Inv s1 /\ awaiting_toggle s1
  /\ disableButtons (uiState s1) = negb (disableButtons (uiState s))
  /\ attempts s1 = attempts s ++ [ToggleAttempt (negb (disableButtons (uiState s)))]
  /\ inflight s1 = inflight s ++ [mkRequest (next_req s)
                                    (ToggleReq (negb (disableButtons (uiState s))))
                                    (length (mounted_vars s))]
  /\ isSaving s1 = true /\ count s1 = count s.
Proof.
  intros HI Ha Hprev s1.
  destruct HI as [[Hd Hc] Hn Ht Hat Hrq].
  assert (E1 : s1 = commit (set_uiState (mkUIState (negb (disableButtons (uiState s)))) s)).
  { subst s1. cbn. rewrite Ha. unfold toggleDisabled, uiDispatch. now rewrite Ha. }
  clearbody s1.
  set (s0 := set_uiState (mkUIState (negb (disableButtons (uiState s)))) s) in E1.
  assert (Hd0 : dep_disable s0 <> disableButtons (uiState s0)).
  { cbn. rewrite Hd. destruct (disableButtons (uiState s)); discriminate. }
  destruct (disable_change_commit s0 Ha Hd0 Hc Hn Ht Hat Hrq)
    as (I1 & _ & _ & C1 & U1 & _ & P1 & _ & _ & A1 & R1).
  rewrite <- E1 in I1, C1, U1, P1, A1, R1.
  assert (Hneq : Bool.eqb (prevDisableRef s0) (disableButtons (uiState s0)) = false).
  { cbn. rewrite Hprev. destruct (disableButtons (uiState s)); reflexivity. }
  rewrite Hneq in R1. destruct R1 as (At & In1 & S1 & Cl1 & M1).
  cbn in At, In1, U1, P1, M1, C1, Cl1.
  split; [exact I1|].
  split.
  { split; [exact A1|]. split; [rewrite P1, U1, Hprev; cbn; now rewrite negb_involutive|].
    exists (inflight s), (next_req s), (length (mounted_vars s)).
    rewrite U1. cbn. repeat split; try assumption. }
  rewrite U1. cbn. tauto.
Qed.

(** The awaited attempt fails: the flag is rolled back, [.finally] stores
    the value the attempt was issued for, and the effect, seeing a change,
    issues the next attempt. *)
Lemma awaited_toggle_fails (s : App) (o : FetchOutcome) :
  Inv s -> awaiting_toggle s -> fst (callAnilistStudio o) = Fulfilled false ->
  let s' := settle_latest o s in
  Inv s' /\ awaiting_toggle s'
  /\ disableButtons (uiState s') = negb (disableButtons (uiState s))
  /\ attempts s' = attempts s ++ [ToggleAttempt (negb (disableButtons (uiState s)))]
  /\ isSaving s' = true /\ count s' = count s.
Proof.
  intros HI (Ha & Hprev & older & id & m & Hin & Hfresh & Hm & Hcl) Hres s'.
  set (q := mkRequest id (ToggleReq (disableButtons (uiState s))) m) in *.
  assert (E : s' = let (p, l) := callAnilistStudio o in
                   commit (settle_request q p
                             (set_console (console s ++ l) (remove_request (req_id q) s)))).
  { subst s'. unfold settle_latest. rewrite Hin, rev_unit. cbn [step].
    unfold settle, deliver, find_request. rewrite Hin.
    rewrite find_new_request by exact Hfresh. reflexivity. }
  clearbody s'.
  destruct (callAnilistStudio o) as [p l]. cbn in Hres. subst p s'.
  set (sc := settle_request q (Fulfilled false)
               (set_console (console s ++ l) (remove_request (req_id q) s))).
  assert (Hlive : uiState sc = mkUIState (prevDisableRef s)
                  /\ isSaving sc = false
                  /\ prevDisableRef sc = disableButtons (uiState s))
    by exact (toggle_chain_live s id (disableButtons (uiState s)) m false l Ha Hm).
  destruct Hlive as (Uc & Sc & Pc).
  assert (Hframe : count sc = count s /\ dep_count sc = dep_count s
                   /\ dep_disable sc = dep_disable s /\ alive sc = alive s)
    by (destruct (settle_request_count q (Fulfilled false)
                    (set_console (console s ++ l) (remove_request (req_id q) s)))
          as (? & ? & ? & ? & _); tauto).
  destruct Hframe as (Cc & Dc & Dd & Ac).
  assert (Atc : attempts sc = attempts s)
    by exact (proj2 (proj2 (settle_request_frame q (Fulfilled false) l s))).
  assert (HCc : Core sc) by exact (settle_request_Core q (Fulfilled false) l s (Inv_Core _ HI)).
  destruct HCc as (Hn & Ht & Hat & Hrq).
  destruct (inv_deps _ HI) as [Hd Hc].
  assert (Hflag : disableButtons (uiState sc) = negb (disableButtons (uiState s)))
    by (rewrite Uc; cbn; exact Hprev).
  assert (Hd0 : dep_disable sc <> disableButtons (uiState sc)).
  { rewrite Dd, Hd, Hflag. destruct (disableButtons (uiState s)); discriminate. }
  assert (Hc0 : dep_count sc = count sc) by (rewrite Dc, Cc; exact Hc).
  assert (Hac : alive sc = true) by (rewrite Ac; exact Ha).
  destruct (disable_change_commit sc Hac Hd0 Hc0 Hn Ht Hat Hrq)
    as (I1 & _ & _ & C1 & U1 & _ & P1 & _ & _ & A1 & R1).
  assert (Hneq : Bool.eqb (prevDisableRef sc) (disableButtons (uiState sc)) = false).
  { rewrite Pc, Hflag. destruct (disableButtons (uiState s)); reflexivity. }
  rewrite Hneq in R1. destruct R1 as (At & In1 & S1 & Cl1 & M1).
  split; [exact I1|].
  split.
  { split; [exact A1|].
    split; [rewrite P1, U1, Pc, Hflag; now rewrite negb_involutive|].
    exists (inflight sc), (next_req sc), (length (mounted_vars sc)).
    rewrite U1. repeat split; assumption. }
  rewrite U1, At, Atc, Hflag, C1, Cc. tauto.
Qed.

(** The awaited attempt succeeds: the flag stays, the component is
    settled again. *)
Lemma awaited_toggle_succeeds (s : App) (o : FetchOutcome) :
  Inv s -> awaiting_toggle s -> fst (callAnilistStudio o) = Fulfilled true ->
  let s' := settle_latest o s in
  Inv s' /\ alive s' = true
  /\ uiState s' = uiState s
  /\ prevDisableRef s' = disableButtons (uiState s')
  /\ attempts s' = attempts s
  /\ isSaving s' = false /\ count s' = count s.
Proof.
  intros HI (Ha & Hprev & older & id & m & Hin & Hfresh & Hm & Hcl) Hres s'.
  set (q := mkRequest id (ToggleReq (disableButtons (uiState s))) m) in *.
  assert (E : s' = let (p, l) := callAnilistStudio o in
                   commit (settle_request q p
                             (set_console (console s ++ l) (remove_request (req_id q) s)))).
  { subst s'. unfold settle_latest. rewrite Hin, rev_unit. cbn [step].
    unfold settle, deliver, find_request. rewrite Hin.
    rewrite find_new_request by exact Hfresh. reflexivity. }
  clearbody s'.
  destruct (callAnilistStudio o) as [p l]. cbn in Hres. subst p s'.
  set (sc := settle_request q (Fulfilled true)
               (set_console (console s ++ l) (remove_request (req_id q) s))).
  assert (Hlive : uiState sc = uiState s
                  /\ isSaving sc = false
                  /\ prevDisableRef sc = disableButtons (uiState s))
    by exact (toggle_chain_live s id (disableButtons (uiState s)) m true l Ha Hm).
  destruct Hlive as (Uc & Sc & Pc).
  assert (Hframe : count sc = count s /\ dep_count sc = dep_count s
                   /\ dep_disable sc = dep_disable s /\ alive sc = alive s)
    by (destruct (settle_request_count q (Fulfilled true)
                    (set_console (console s ++ l) (remove_request (req_id q) s)))
          as (? & ? & ? & ? & _); tauto).
  destruct Hframe as (Cc & Dc & Dd & Ac).
  assert (Atc : attempts sc = attempts s)
    by exact (proj2 (proj2 (settle_request_frame q (Fulfilled true) l s))).
  assert (HCc : Core sc) by exact (settle_request_Core q (Fulfilled true) l s (Inv_Core _ HI)).
  destruct (inv_deps _ HI) as [Hd Hc].
  assert (Hdeps : deps_committed sc).
  { split; [now rewrite Dd, Uc | now rewrite Dc, Cc]. }
  rewrite commit_unchanged by exact Hdeps.
  split; [now apply Core_Inv|].
  rewrite Ac, Uc, Pc, Atc, Sc, Cc. tauto.
Qed.

(** X6.  Toggles that are each answered by a success before the next
    click: [n] rounds make exactly [n] calls, the flag has flipped [n]
    times, and the component is settled again ([prevDisableRef] holds the
    flag, [isSaving] is cleared), so that every further toggle notifies. *)
Theorem answered_toggles_notify_each_time :
  forall (n : nat) (s : App) (o : FetchOutcome),
    Inv s -> alive s = true ->
    prevDisableRef s = disableButtons (uiState s) ->
    fst (callAnilistStudio o) = Fulfilled true ->
    let s' := Nat.iter n (toggle_round o) s in
    disableButtons (uiState s')
      = (if Nat.even n then disableButtons (uiState s)
         else negb (disableButtons (uiState s)))
    /\ length (attempts s') = (length (attempts s) + n)%nat
    /\ prevDisableRef s' = disableButtons (uiState s')
    /\ (n <> 0%nat -> isSaving s' = false)
    /\ count s' = count s.
Proof.
  intros n s o HI Ha Hprev Hres.
  assert (H : let s' := Nat.iter n (toggle_round o) s in
              Inv s' /\ alive s' = true
              /\ disableButtons (uiState s')
                 = (if Nat.even n then disableButtons (uiState s)
                    else negb (disableButtons (uiState s)))
              /\ length (attempts s') = (length (attempts s) + n)%nat
              /\ prevDisableRef s' = disableButtons (uiState s')
              /\ (n <> 0%nat -> isSaving s' = false)
              /\ count s' = count s).
  { induction n as [|n IH]; cbn zeta.
    - cbn. rewrite Nat.add_0_r. tauto.
    - cbv zeta in IH. rewrite Nat.iter_succ.
      destruct IH as (I & A & F & L & P & _ & C).
      set (sn := Nat.iter n (toggle_round o) s) in *.
      destruct (toggle_from_settled sn I A P) as (I1 & W1 & F1 & At1 & _ & _ & C1).
      destruct (awaited_toggle_succeeds _ o I1 W1 Hres)
        as (I2 & A2 & U2 & P2 & At2 & S2 & C2).
      unfold toggle_round.
      split; [exact I2|]. split; [exact A2|].
      split.
      { rewrite U2, F1, F, Nat.even_succ, <- Nat.negb_even.
        destruct (Nat.even n); cbn; [reflexivity | apply negb_involutive]. }
      split; [rewrite At2, At1, length_app, L; cbn; lia|].
      split; [exact P2|].
      split; [intros _; exact S2 | now rewrite C2, C1]. }
  cbv zeta in *. tauto.
Qed.

Lemma answered_toggles_notify_each_time_witness :
  let s' := Nat.iter 3 (toggle_round fetch_ok) mount in
  disableButtons (uiState s') = true /\ length (attempts s') = 3%nat.
Proof.
  cbv zeta.
  destruct (answered_toggles_notify_each_time 3 mount fetch_ok mount_Inv
              eq_refl eq_refl eq_refl) as (F & L & _).
  split; [exact F | exact L].
Defined.

(** X7.  A toggle whose attempts keep failing: every failure rolls the
    flag back to the value [prevDisableRef] holds, [.finally] then stores
    the value the attempt was issued for, and the effect, seeing a change,
    issues a further attempt.  After the toggle and [n] failures the flag
    has its pre-toggle value for odd [n] and its post-toggle value for even
    [n], [n + 1] calls have been made, and [isSaving] is set. *)
Theorem failing_toggle_alternates :
  forall (n : nat) (s : App) (o : FetchOutcome),
    Inv s -> alive s = true ->
    prevDisableRef s = disableButtons (uiState s) ->
    fst (callAnilistStudio o) = Fulfilled false ->
    let s' := Nat.iter n (settle_latest o) (step ClickToggle s) in
    disableButtons (uiState s')
      = (if Nat.even n then negb (disableButtons (uiState s))
         else disableButtons (uiState s))
    /\ length (attempts s') = (length (attempts s) + S n)%nat
    /\ isSaving s' = true
    /\ count s' = count s.
Proof.
  intros n s o HI Ha Hprev Hres.
  assert (H : let s' := Nat.iter n (settle_latest o) (step ClickToggle s) in
              Inv s' /\ awaiting_toggle s'
              /\ disableButtons (uiState s')
                 = (if Nat.even n then negb (disableButtons (uiState s))
                    else disableButtons (uiState s))
              /\ length (attempts s') = (length (attempts s) + S n)%nat
              /\ isSaving s' = true
              /\ count s' = count s).
  { induction n as [|n IH]; cbn zeta.
    - change (Nat.iter 0 (settle_latest o) (step ClickToggle s))
        with (step ClickToggle s). cbn [Nat.even].
      destruct (toggle_from_settled s HI Ha Hprev) as (I1 & W1 & F1 & At1 & _ & S1 & C1).
      repeat (split; [assumption|]).
      split; [rewrite At1, length_app; cbn; lia | tauto].
    - cbv zeta in IH. rewrite Nat.iter_succ.
      destruct IH as (I & W & F & L & _ & C).
      set (sn := Nat.iter n (settle_latest o) (step ClickToggle s)) in *.
      destruct (awaited_toggle_fails sn o I W Hres) as (I2 & W2 & F2 & At2 & S2 & C2).
      split; [exact I2|]. split; [exact W2|].
      split.
      { rewrite F2, F, Nat.even_succ, <- Nat.negb_even.
        destruct (Nat.even n); cbn; [apply negb_involutive | reflexivity]. }
      split; [rewrite At2, length_app, L; cbn; lia|].
      split; [exact S2 | now rewrite C2]. }
  cbv zeta in *. tauto.
Qed.

Lemma failing_toggle_alternates_witness :
  let s' := Nat.iter 2 (settle_latest fetch_http_error) (step ClickToggle mount) in
  disableButtons (uiState s') = true /\ length (attempts s') = 3%nat.
Proof.
  cbv zeta.
  destruct (failing_toggle_alternates 2 mount fetch_http_error mount_Inv
              eq_refl eq_refl eq_refl) as (F & L & _).
  split; [exact F | exact L].
Defined.

(** A click on the toggle button of a mounted component, as a commit. *)
Lemma toggle_click_commit (s : App) :
  Inv s -> alive s = true ->
  let s0 := set_uiState (mkUIState (negb (disableButtons (uiState s)))) s in
  let s' := step ClickToggle s in
  Inv s' /\ alive s' = true
  /\ disableButtons (uiState s') = negb (disableButtons (uiState s))
  /\ prevDisableRef s' = prevDisableRef s
  /\ count s' = count s
  /\ (if Bool.eqb (prevDisableRef s) (negb (disableButtons (uiState s)))
      then attempts s' = attempts s /\ inflight s' = inflight s
           /\ isSaving s' = isSaving s /\ toggle_cleanup s' = None
      else attempts s' = attempts s ++ [ToggleAttempt (negb (disableButtons (uiState s)))]
           /\ isSaving s' = true).
Proof.
  intros HI Ha s0 s'.
  destruct HI as [[Hd Hc] Hn Ht Hat Hrq].
  assert (E1 : s' = commit s0).
  { subst s' s0. cbn. rewrite Ha. unfold toggleDisabled, uiDispatch. now rewrite Ha. }
  clearbody s'. subst s'.
  assert (Hd0 : dep_disable s0 <> disableButtons (uiState s0)).
  { cbn. rewrite Hd. destruct (disableButtons (uiState s)); discriminate. }
  destruct (disable_change_commit s0 Ha Hd0 Hc Hn Ht Hat Hrq)
    as (I1 & _ & _ & C1 & U1 & _ & P1 & _ & _ & A1 & R1).
  cbn in C1, U1, P1, R1.
  split; [exact I1|]. split; [exact A1|].
  split; [now rewrite U1|]. split; [exact P1|]. split; [exact C1|].
  destruct (Bool.eqb (prevDisableRef s) (negb (disableButtons (uiState s)))); tauto.
Qed.

(** The attempt of a torn-down toggle effect settles: only the ref moves,
    to the value the attempt was issued for. *)
Lemma torn_down_toggle_settles (s : App) (id : nat) (q : Request) (d : bool)
    (o : FetchOutcome) :
  Inv s -> find_request id s = Some q -> req_kind q = ToggleReq d ->
  read_mounted (req_mounted q) s = false ->
  let s' := step (Settle id o) s in
  Inv s' /\ alive s' = alive s
  /\ uiState s' = uiState s /\ isSaving s' = isSaving s
  /\ prevDisableRef s' = d /\ attempts s' = attempts s /\ count s' = count s.
Proof.
  intros HI Hf Hk Hm s'. subst s'. cbn [step]. unfold settle, deliver. rewrite Hf.
  apply find_request_id in Hf as [<- _].
  destruct (callAnilistStudio_fulfilled o) as (b & l & ->).
  destruct (inv_deps _ HI) as [Hd Hc].
  set (sc := settle_request q (Fulfilled b)
               (set_console (console s ++ l) (remove_request (req_id q) s))).
  assert (Hframe : count sc = count s /\ dep_count sc = dep_count s
                   /\ dep_disable sc = dep_disable s /\ alive sc = alive s)
    by (destruct (settle_request_count q (Fulfilled b)
                    (set_console (console s ++ l) (remove_request (req_id q) s)))
          as (? & ? & ? & ? & _); tauto).
  destruct Hframe as (Cc & Dc & Dd & Ac).
  assert (Atc : attempts sc = attempts s)
    by exact (proj2 (proj2 (settle_request_frame q (Fulfilled b) l s))).
  assert (HCc : Core sc) by exact (settle_request_Core q (Fulfilled b) l s (Inv_Core _ HI)).
  assert (Hst : uiState sc = uiState s /\ isSaving sc = isSaving s /\ prevDisableRef sc = d).
  { subst sc. destruct q as [qid k m]. cbn in Hk, Hm. subst k. cbn [req_id].
    destruct (toggle_chain_torn_down s qid d m b l Hm) as (U & S & _).
    split; [exact U|]. split; [exact S|].
    unfold settle_request, promise_chain, toggle_finally. cbn [req_kind req_mounted].
    destruct (read_mounted m _); reflexivity. }
  destruct Hst as (Uc & Sc & Pc).
  rewrite commit_unchanged by (split; [now rewrite Dd, Uc | now rewrite Dc, Cc]).
  split; [apply Core_Inv; [exact HCc | split; [now rewrite Dd, Uc | now rewrite Dc, Cc]]|].
  tauto.
Qed.

(** X8.  A toggle undone by a second click before its attempt settles.
    The second click issues no attempt and tears the first effect down.
    When the first attempt then settles (with any outcome) the flag is
    untouched, but [isSaving] stays set although nothing is in flight for
    the flag, and [prevDisableRef] is left at the value of the undone
    toggle, so that the next toggle is not notified. *)
Theorem undone_toggle_leaves_saving_set :
  forall (s : App) (o : FetchOutcome),
    Inv s -> alive s = true ->
    prevDisableRef s = disableButtons (uiState s) ->
    let pre := disableButtons (uiState s) in
    let s2 := step ClickToggle (step ClickToggle s) in
    let s3 := settle_latest o s2 in
    let s4 := step ClickToggle s3 in
    (disableButtons (uiState s2) = pre
     /\ attempts s2 = attempts s ++ [ToggleAttempt (negb pre)])
    /\ (disableButtons (uiState s3) = pre /\ isSaving s3 = true
        /\ prevDisableRef s3 = negb pre /\ attempts s3 = attempts s2)
    /\ (disableButtons (uiState s4) = negb pre /\ attempts s4 = attempts s2).
Proof.
  intros s o HI Ha Hprev pre s2 s3 s4.
  destruct (toggle_from_settled s HI Ha Hprev)
    as (I1 & (A1 & P1 & older & id & m & In1 & Fr1 & M1 & Cl1) & F1 & At1 & _ & S1 & _).
  set (s1 := step ClickToggle s) in *.
  fold pre in F1, At1.
  assert (Hm : (m < length (mounted_vars s1))%nat).
  { unfold read_mounted in M1.
    destruct (mounted_vars s1 !! m) as [b|] eqn:E; [|discriminate].
    now apply lookup_lt_Some in E. }
  pose proof (toggle_teardown_clears_mounted s1 m I1 A1 Cl1 Hm) as M2.
  destruct (toggle_click_commit s1 I1 A1) as (I2 & A2 & F2 & P2 & _ & R2).
  fold s2 in M2, I2, A2, F2, P2, R2.
  rewrite P1, Bool.eqb_reflx in R2. destruct R2 as (At2 & In2 & S2 & _).
  rewrite F1, negb_involutive in F2.
  assert (E3 : s3 = step (Settle id o) s2).
  { subst s3. unfold settle_latest. now rewrite In2, In1, rev_unit. }
  assert (Hf : find_request id s2
               = Some (mkRequest id (ToggleReq (disableButtons (uiState s1))) m)).
  { unfold find_request. rewrite In2, In1.
    exact (find_new_request older (mkRequest id _ m) Fr1). }
  destruct (torn_down_toggle_settles s2 id _ _ o I2 Hf eq_refl M2)
    as (I3 & A3 & U3 & S3 & P3 & At3 & _).
  rewrite <- E3 in I3, A3, U3, S3, P3, At3.
  rewrite A2 in A3.
  destruct (toggle_click_commit s3 I3 A3) as (_ & _ & F4 & _ & _ & R4).
  fold s4 in F4, R4.
  rewrite P3, U3, F2, F1, Bool.eqb_reflx in R4. destruct R4 as (At4 & _).
  split; [split; [exact F2 | now rewrite At2]|].
  split.
  - rewrite U3, S3, S2, P3, F1. tauto.
  - rewrite F4, U3, F2, At4, At3. tauto.
Qed.

Lemma undone_toggle_leaves_saving_set_witness :
  let s3 := settle_latest fetch_ok (step ClickToggle (step ClickToggle mount)) in
  isSaving s3 = true /\ inflight s3 = []
  /\ attempts (step ClickToggle s3) = [ToggleAttempt true].
Proof.
  cbv zeta.
  destruct (undone_toggle_leaves_saving_set mount fetch_ok mount_Inv eq_refl eq_refl)
    as ((_ & At2) & (_ & S3 & _) & (_ & At4)).
  split; [exact S3|]. split; [vm_compute; reflexivity|].
  rewrite At4. exact At2.
Defined.

(* ===================================================================== *)
(** * Further properties of [callAnilistStudio] *)
(* ===================================================================== *)

Lemma get_prop_defined (v : JsValue) (k : string) :
  truthy v = true -> exists x, get_prop v k = Ret x.
Proof.
  destruct v; cbn; try discriminate; intros _; try (eexists; reflexivity).
  destruct (lookup_field k fields); eexists; reflexivity.
Qed.

(** X9.  What reaches the console.  One line is logged exactly when
    [fetch] throws, [res.json()] throws, or the parsed body is [null] (the
    read of [json.errors] is then a [TypeError]); in every other case
    nothing is logged.  In particular [json.data.Studio] never throws: it
    is only read when [json.data] is truthy. *)
Theorem callAnilistStudio_logs_exceptions_only :
  forall o : FetchOutcome,
    snd (callAnilistStudio o) =
      match o with
      | FetchThrows => [ErrNetworkOrParsing NetworkError]
      | FetchResponse true JsonThrows => [ErrNetworkOrParsing ParseError]
      | FetchResponse true (JsonValue VNull)
      | FetchResponse true (JsonValue VUndefined) => [ErrNetworkOrParsing TypeError]
      | _ => []
      end.
Proof.
  intros [|[|] [|json]]; try reflexivity.
  unfold callAnilistStudio, callAnilistStudio_try. cbn.
  assert (Hobj : forall k, json <> VNull -> json <> VUndefined ->
                           exists x, get_prop json k = Ret x).
  { intros k H1 H2. destruct json; try contradiction; cbn; try (eexists; reflexivity).
    destruct (lookup_field k fields); eexists; reflexivity. }
  destruct json; try reflexivity;
    (destruct (Hobj "errors"%string ltac:(discriminate) ltac:(discriminate)) as [e ->];
     destruct (Hobj "data"%string ltac:(discriminate) ltac:(discriminate)) as [d ->];
     cbn; destruct (truthy e); [reflexivity|];
     destruct (truthy d) eqn:Td; [|reflexivity];
     destruct (get_prop_defined d "Studio" Td) as [st ->]; reflexivity).
Qed.

(** X10.  Of the parsed body only [errors] and [data] are read: two bodies
    on which these two reads agree give the same result and the same
    log, whatever else they contain. *)
Theorem callAnilistStudio_reads_errors_and_data :
  forall (ok : bool) (json1 json2 : JsValue),
    get_prop json1 "errors" = get_prop json2 "errors" ->
    get_prop json1 "data" = get_prop json2 "data" ->
    callAnilistStudio (FetchResponse ok (JsonValue json1))
    = callAnilistStudio (FetchResponse ok (JsonValue json2)).
Proof.
  intros ok json1 json2 He Hd.
  unfold callAnilistStudio, callAnilistStudio_try. cbn.
  destruct ok; cbn; [|reflexivity].
  now rewrite He, Hd.
Qed.

Lemma callAnilistStudio_reads_errors_and_data_witness :
  callAnilistStudio
    (FetchResponse true
       (JsonValue (VObj [("extensions"%string, VNum 1);
                         ("data"%string, VObj [("Studio"%string, VBool true)])])))
  = callAnilistStudio
      (FetchResponse true
         (JsonValue (VObj [("data"%string, VObj [("Studio"%string, VBool true)]);
                           ("other"%string, VNull)]))).
Proof.
  apply callAnilistStudio_reads_errors_and_data; reflexivity.
Defined.

(** X11.  A body that parses to something other than an object (a number,
    a string, a boolean, an array) has neither [errors] nor [data]: the
    call returns [false] and logs nothing. *)
Theorem callAnilistStudio_non_object_body :
  forall json : JsValue,
    json <> VNull -> json <> VUndefined ->
    (forall fields, json <> VObj fields) ->
    callAnilistStudio (FetchResponse true (JsonValue json)) = (Fulfilled false, []).
Proof.
  intros json Hn Hu Hobj.
  destruct json; try reflexivity; try contradiction.
  exfalso. now apply (Hobj fields).
Qed.

Lemma callAnilistStudio_non_object_body_witness :
  callAnilistStudio (FetchResponse true (JsonValue (VArr [VNum 1]))) = (Fulfilled false, []).
Proof.
  apply callAnilistStudio_non_object_body; discriminate.
Defined.

(* ===================================================================== *)
(** * A history of [UIAction]s *)
(* ===================================================================== *)

Lemma dispatch_all_app (a1 a2 : list UIAction) (s : UIState) :
  dispatch_all (a1 ++ a2) s = dispatch_all a2 (dispatch_all a1 s).
Proof. unfold dispatch_all. apply fold_left_app. Qed.

Lemma dispatch_toggles (n : nat) (s : UIState) :
  dispatch_all (repeat TOGGLE_DISABLE n) s
  = mkUIState (if Nat.even n then disableButtons s else negb (disableButtons s)).
Proof.
  revert s. induction n as [|n IH]; intros [b]; [reflexivity|].
  change (dispatch_all (repeat TOGGLE_DISABLE (S n)) (mkUIState b))
    with (dispatch_all (repeat TOGGLE_DISABLE n) (mkUIState (negb b))).
  rewrite IH, Nat.even_succ, <- Nat.negb_even. cbn.
  destruct (Nat.even n); cbn; [reflexivity | now rewrite negb_involutive].
Qed.

(** X12.  [SET_DISABLE] makes the past irrelevant and toggles count by
    parity: after any actions, a [SET_DISABLE b] and then [n]
    [TOGGLE_DISABLE]s, the flag is [b] for even [n] and [not b] for odd
    [n], from every starting state. *)
Theorem uiReducer_history :
  forall (before : list UIAction) (b : bool) (n : nat) (s : UIState),
    dispatch_all (before ++ SET_DISABLE b :: repeat TOGGLE_DISABLE n) s
    = mkUIState (if Nat.even n then b else negb b).
Proof.
  intros before b n s.
  rewrite dispatch_all_app.
  change (dispatch_all (SET_DISABLE b :: repeat TOGGLE_DISABLE n) (dispatch_all before s))
    with (dispatch_all (repeat TOGGLE_DISABLE n) (mkUIState b)).
  apply dispatch_toggles.
Qed.

(* ===================================================================== *)
(** * Button.tsx and what App renders *)
(* ===================================================================== *)

Lemma append_nonempty (a b : string) : a <> EmptyString -> (a ++ b)%string <> EmptyString.
Proof. destruct a; [contradiction | discriminate]. Qed.

(** X13.  Every button has an accessible name: [aria-label] is the
    [ariaLabel] prop when that is a non-empty string, and otherwise (prop
    left out, or the empty string) ["Button: "] followed by the text; it is
    never empty.  [aria-disabled] always equals [disabled], and a button
    whose [disabled] and [type] props are left out is enabled and
    rendered like a [primary] one. *)
Theorem Button_accessible_name :
  forall (H : Type) (styles : string -> option string) (props : ButtonTsx.ButtonProps H),
    let b := ButtonTsx.Button styles props in
    ButtonTsx.aria_label b <> EmptyString
    /\ (forall l, ButtonTsx.ariaLabel props = Some l -> l <> EmptyString ->
                  ButtonTsx.aria_label b = l)
    /\ (ButtonTsx.ariaLabel props = None \/ ButtonTsx.ariaLabel props = Some EmptyString ->
        ButtonTsx.aria_label b = ("Button: " ++ ButtonTsx.text props)%string)
    /\ ButtonTsx.aria_disabled b = ButtonTsx.el_disabled b
    /\ (ButtonTsx.disabled props = None -> ButtonTsx.el_disabled b = false)
    /\ (ButtonTsx.type props = None ->
        ButtonTsx.className b
        = ButtonTsx.className
            (ButtonTsx.Button styles
               (ButtonTsx.mkButtonProps (ButtonTsx.text props) (ButtonTsx.onClick props)
                  (Some ButtonTsx.primary) (ButtonTsx.disabled props)
                  (ButtonTsx.ariaLabel props)))).
Proof.
  intros H styles [text onClick type disabled ariaLabel] b. subst b.
  unfold ButtonTsx.Button, ButtonTsx.or_else. cbn.
  split.
  { destruct ariaLabel as [l|]; [|discriminate].
    destruct (String.eqb_spec l EmptyString); [discriminate | assumption]. }
  split.
  { intros l [= ->] Hl. destruct (String.eqb_spec l EmptyString); [contradiction | reflexivity]. }
  split; [intros [-> | ->]; reflexivity|].
  split; [reflexivity|].
  split; [intros ->; reflexivity | intros ->; reflexivity].
Qed.

Lemma Button_accessible_name_witness :
  ButtonTsx.aria_label
    (ButtonTsx.Button (fun _ => None)
       (ButtonTsx.mkButtonProps "Save"%string tt None None (Some EmptyString)))
  = "Button: Save"%string.
Proof.
  refine (proj1 (proj2 (proj2 (Button_accessible_name unit (fun _ => None)
            (ButtonTsx.mkButtonProps "Save"%string tt None None (Some EmptyString))))) _).
  now right.
Defined.

(** X14.  The transitions of the component are the clicks on what it
    renders: for each of the four buttons of the JSX, in order, a click on
    the rendered element (which does nothing when the element is disabled)
    is the corresponding transition.  The toggle button, given no
    [disabled] prop, is never disabled. *)
Theorem App_clicks_are_steps :
  forall (styles : string -> option string) (s : App),
    List.map (fun b => click_button b s) (App_render styles s)
    = [step ClickIncrement s; step ClickReset s; step ClickToggle s;
       step ClickCountAnimes s]
    /\ List.map ButtonTsx.el_disabled (App_render styles s)
       = [disableButtons (uiState s); disableButtons (uiState s); false;
          disableButtons (uiState s)].
Proof.
  intros styles s. split; [|reflexivity].
  unfold App_render, App_buttons, click_button. cbn.
  rewrite andb_true_r. reflexivity.
Qed.

(* ===================================================================== *)
(** * examples/HooksExample.tsx *)
(* ===================================================================== *)

Lemma template_number_inj (a b : Z) : template_number a = template_number b -> a = b.
Proof.
  unfold template_number. intros H.
  assert (E : Some (Z.to_int a) = Some (Z.to_int b)).
  { rewrite <- !NilEmpty.isi. now rewrite H. }
  injection E as E.
  rewrite <- (DecimalZ.of_to a), <- (DecimalZ.of_to b). now rewrite E.
Qed.

Lemma HooksExample_step_synced (e : HooksExample.Event) (s : HooksExample.State) :
  HooksExample.dep_count s = HooksExample.count s ->
  HooksExample.title s
    = ("Count: " ++ template_number (HooksExample.count s))%string ->
  let s' := HooksExample.step e s in
  HooksExample.dep_count s' = HooksExample.count s'
  /\ HooksExample.title s'
     = ("Count: " ++ template_number (HooksExample.count s'))%string.
Proof.
  intros Hd Ht s'. subst s'.
  destruct s as [c n t d]. cbn in Hd, Ht. subst d t.
  destruct e; cbn; unfold HooksExample.commit; cbn;
    match goal with
    | |- context [?a =? ?b] => destruct (Z.eqb_spec a b) as [E|E]
    end; cbn; try (exfalso; lia); try subst c; split; reflexivity.
Qed.

(** X15.  [document.title] tracks the counter: after the mount and any
    clicks and edits of the name, the title is ["Count: "] followed by the
    current count in decimal, whatever the title was before; editing the
    name never changes it; and two reachable states with the same title
    have the same count. *)
Theorem HooksExample_title_tracks_count :
  forall (title0 : string) (evs : list HooksExample.Event),
    let s := HooksExample.run evs (HooksExample.mount title0) in
    HooksExample.title s
      = ("Count: " ++ template_number (HooksExample.count s))%string
    /\ (forall v, HooksExample.title (HooksExample.step (HooksExample.ChangeName v) s)
                  = HooksExample.title s)
    /\ (forall title1 evs',
          let s' := HooksExample.run evs' (HooksExample.mount title1) in
          HooksExample.title s' = HooksExample.title s ->
          HooksExample.count s' = HooksExample.count s).
Proof.
  assert (Hinv : forall title0 evs,
            let s := HooksExample.run evs (HooksExample.mount title0) in
            HooksExample.dep_count s = HooksExample.count s
            /\ HooksExample.title s
               = ("Count: " ++ template_number (HooksExample.count s))%string).
  { intros title0 evs.
    assert (G : forall s, HooksExample.dep_count s = HooksExample.count s ->
                  HooksExample.title s
                    = ("Count: " ++ template_number (HooksExample.count s))%string ->
                  HooksExample.dep_count (HooksExample.run evs s)
                    = HooksExample.count (HooksExample.run evs s)
                  /\ HooksExample.title (HooksExample.run evs s)
                     = ("Count: "
                          ++ template_number (HooksExample.count (HooksExample.run evs s)))%string).
    { induction evs as [|e evs IH]; intros s Hd Ht; [cbn; tauto|].
      change (HooksExample.run (e :: evs) s)
        with (HooksExample.run evs (HooksExample.step e s)).
      destruct (HooksExample_step_synced e s Hd Ht) as [Hd' Ht'].
      now apply IH. }
    apply G; reflexivity. }
  intros title0 evs s.
  destruct (Hinv title0 evs) as [Hd Ht]. fold s in Hd, Ht.
  split; [exact Ht|]. split.
  - intros v. cbn. unfold HooksExample.commit. cbn.
    rewrite Hd, Z.eqb_refl. reflexivity.
  - intros title1 evs' s' Heq.
    destruct (Hinv title1 evs') as [_ Ht']. fold s' in Ht'.
    rewrite Ht, Ht' in Heq. cbn in Heq.
    injection Heq as Heq. now apply template_number_inj.
Qed.

Lemma HooksExample_title_tracks_count_witness :
  HooksExample.count
    (HooksExample.run [HooksExample.ChangeName "Ada"; HooksExample.ClickIncrement]
       (HooksExample.mount "b"))
  = HooksExample.count
      (HooksExample.run [HooksExample.ClickIncrement] (HooksExample.mount "a")).
Proof.
  exact (proj2 (proj2 (HooksExample_title_tracks_count "a"
                         [HooksExample.ClickIncrement]))
           "b"%string [HooksExample.ChangeName "Ada"; HooksExample.ClickIncrement]
           eq_refl).
Defined.

(* ===================================================================== *)
(** * examples/CounterReducer.tsx *)
(* ===================================================================== *)

Lemma CounterReducer_dispatch_app (a1 a2 : list CounterReducer.Action)
    (s : CounterReducer.State) :
  CounterReducer.dispatch_all (a1 ++ a2) s
  = CounterReducer.dispatch_all a2 (CounterReducer.dispatch_all a1 s).
Proof. unfold CounterReducer.dispatch_all. apply fold_left_app. Qed.

Lemma round_double_exact (z : Z) :
  Z.abs z <= 2 ^ 53 -> CounterReducer.round_double z = z.
Proof.
  intros H. unfold CounterReducer.round_double.
  destruct (Z.leb_spec (Z.abs z) (2 ^ 53)); [reflexivity | lia].
Qed.

(** Above 2^53 the doubles are spaced by more than 1: an increment of
    2^53 is rounded back to 2^53. *)
Example CounterReducer_precision_limit :
  CounterReducer.reducer (CounterReducer.mkState (2 ^ 53)) CounterReducer.increment
  = CounterReducer.mkState (2 ^ 53).
Proof. vm_compute. reflexivity. Qed.

(** X16.  As long as the count stays within the integers a double holds
    exactly (the magnitude of the starting count plus the number of
    actions is at most 2^53), and without a [reset], the count after a list
    of actions is the starting count plus the number of [increment]s minus
    the number of [decrement]s; in particular the order of the actions does
    not matter. *)
Theorem CounterReducer_net_count :
  forall (actions : list CounterReducer.Action) (s : CounterReducer.State),
    ~ In CounterReducer.reset actions ->
    Z.abs (CounterReducer.count s) + Z.of_nat (length actions) <= 2 ^ 53 ->
    CounterReducer.count (CounterReducer.dispatch_all actions s)
    = CounterReducer.count s
      + CounterReducer.dispatched CounterReducer.increment actions
      - CounterReducer.dispatched CounterReducer.decrement actions
    /\ forall actions',
         Permutation actions actions' ->
         CounterReducer.dispatch_all actions' s = CounterReducer.dispatch_all actions s.
Proof.
  assert (Hnet : forall actions s,
            ~ In CounterReducer.reset actions ->
            Z.abs (CounterReducer.count s) + Z.of_nat (length actions) <= 2 ^ 53 ->
            CounterReducer.count (CounterReducer.dispatch_all actions s)
            = CounterReducer.count s
              + CounterReducer.dispatched CounterReducer.increment actions
              - CounterReducer.dispatched CounterReducer.decrement actions).
  { unfold CounterReducer.dispatched.
    induction actions as [|a actions IH]; intros s Hr Hb; [cbn; lia|].
    change (CounterReducer.dispatch_all (a :: actions) s)
      with (CounterReducer.dispatch_all actions (CounterReducer.reducer s a)).
    assert (Hlen : Z.of_nat (length (a :: actions)) = Z.of_nat (length actions) + 1)
      by (cbn [length]; lia).
    rewrite Hlen in Hb.
    destruct a; cbn [count_occ CounterReducer.reducer CounterReducer.count].
    - rewrite IH; cbn [CounterReducer.count].
      + rewrite round_double_exact by lia.
        destruct (CounterReducer.Action_eq_dec _ _); [|contradiction].
        destruct (CounterReducer.Action_eq_dec _ _); [discriminate|]. lia.
      + intros Hin; apply Hr; now right.
      + rewrite round_double_exact by lia. lia.
    - rewrite IH; cbn [CounterReducer.count].
      + rewrite round_double_exact by lia.
        destruct (CounterReducer.Action_eq_dec _ _); [discriminate|].
        destruct (CounterReducer.Action_eq_dec _ _); [|contradiction]. lia.
      + intros Hin; apply Hr; now right.
      + rewrite round_double_exact by lia. lia.
    - exfalso. apply Hr. now left. }
  intros actions s Hr Hb. split; [now apply Hnet|].
  intros actions' Hp.
  assert (Hr' : ~ In CounterReducer.reset actions').
  { intros Hin. apply Hr. eapply Permutation_in; [symmetry; exact Hp | exact Hin]. }
  assert (Hb' : Z.abs (CounterReducer.count s) + Z.of_nat (length actions') <= 2 ^ 53)
    by (rewrite <- (Permutation_length Hp); exact Hb).
  pose proof (Hnet actions s Hr Hb) as E1. pose proof (Hnet actions' s Hr' Hb') as E2.
  unfold CounterReducer.dispatched in *.
  pose proof (proj1 (Permutation_count_occ CounterReducer.Action_eq_dec actions actions') Hp)
    as Hocc.
  rewrite <- !Hocc in E2.
  destruct (CounterReducer.dispatch_all actions' s) as [c'],
           (CounterReducer.dispatch_all actions s) as [c].
  cbn in *. f_equal. lia.
Qed.

Lemma CounterReducer_net_count_witness :
  CounterReducer.count
    (CounterReducer.dispatch_all
       [CounterReducer.increment; CounterReducer.decrement; CounterReducer.increment]
       CounterReducer.initial) = 1.
Proof.
  exact (proj1 (CounterReducer_net_count
                  [CounterReducer.increment; CounterReducer.decrement;
                   CounterReducer.increment]
                  CounterReducer.initial
                  ltac:(cbn; intros [H | [H | [H | []]]]; discriminate H)
                  ltac:(vm_compute; discriminate))).
Defined.

(** X17.  [reset] forgets everything before it: the state after a list of
    actions that contains a [reset] is the state the actions after that
    [reset] lead to from the initial count 0, whatever the starting state
    and the actions before it. *)
Theorem CounterReducer_reset_forgets :
  forall (before after : list CounterReducer.Action) (s : CounterReducer.State),
    CounterReducer.dispatch_all (before ++ CounterReducer.reset :: after) s
    = CounterReducer.dispatch_all after CounterReducer.initial.
Proof.
  intros before after s. now rewrite CounterReducer_dispatch_app.
Qed.

(* ===================================================================== *)
(** * The value a counter attempt is made for *)
(* ===================================================================== *)

(** What a transition does to the armed timers: it keeps them, clears
    them, or (on a counter change) arms one timer for the new value. *)
Lemma step_timers (e : Event) (s : App) :
  Inv s ->
  (timers (step e s) = timers s /\ count (step e s) = count s)
  \/ timers (step e s) = []
  \/ timers (step e s)
     = [mkTimer (next_timer s) (now s + debounce_delay) (count (step e s))].
Proof.
  intros HI. pose proof (Inv_Core _ HI) as HC. destruct (inv_deps _ HI) as [Hd Hc].
  assert (Hcount : forall v, alive s = true ->
            let s' := commit (set_count v s) in
            (timers s' = timers s /\ count s' = count s)
            \/ timers s' = []
            \/ timers s' = [mkTimer (next_timer s) (now s + debounce_delay) (count s')]).
  { intros v Ha s'. subst s'.
    destruct (Z.eq_dec v (count s)) as [->|Hv].
    - left. rewrite commit_unchanged; [destruct s; split; reflexivity|].
      destruct s; split; assumption.
    - destruct (count_changed_spec s v HI Ha Hv) as (_ & C & T & _).
      rewrite T, C. destruct (prevCountRef s =? v); tauto. }
  assert (Hdis : forall s0, timers s0 = timers s -> count s0 = count s -> Core s0 ->
                   (alive s0 = false -> dep_disable s0 = disableButtons (uiState s0)) ->
                   dep_count s0 = count s0 ->
                   timers (commit s0) = timers s /\ count (commit s0) = count s).
  { intros s0 ET EC (Hn & Ht & Hat & Hrq) Hdead Hc0.
    destruct (commit_state s0) as (_ & -> & _). split; [|exact EC].
    destruct (Bool.bool_dec (dep_disable s0) (disableButtons (uiState s0))) as [Hd0|Hd0].
    - rewrite commit_unchanged by (split; assumption). exact ET.
    - assert (Ha : alive s0 = true).
      { destruct (alive s0); [reflexivity|]. now specialize (Hdead eq_refl). }
      destruct (disable_change_commit s0 Ha Hd0 Hc0 Hn Ht Hat Hrq) as (_ & T & _).
      now rewrite T. }
  destruct e; cbn [step].
  - destruct (alive s && negb (disableButtons (uiState s))) eqn:E; [|tauto].
    apply andb_prop in E as [Ha _].
    unfold handleIncrement, setCount. rewrite Ha. now apply Hcount.
  - destruct (alive s && negb (disableButtons (uiState s))) eqn:E; [|tauto].
    apply andb_prop in E as [Ha _].
    unfold handleReset, setCount. rewrite Ha. now apply Hcount.
  - left. destruct (alive s) eqn:Ha; [|tauto].
    unfold toggleDisabled, uiDispatch. rewrite Ha.
    apply Hdis; try reflexivity; try assumption. cbn. congruence.
  - left. destruct (alive s && negb (disableButtons (uiState s))) eqn:E; [|tauto].
    apply andb_prop in E as [Ha _].
    unfold toggleDisabled, uiDispatch. rewrite Ha.
    apply Hdis; try reflexivity; try assumption. cbn. congruence.
  - destruct (Z.lt_ge_cases dt 0) as [Hneg|Hpos].
    { rewrite elapse_negative by assumption. tauto. }
    destruct (inv_timers _ HI) as [Ht | (t & Ht & _)].
    { rewrite elapse_no_timer by assumption. left. split; reflexivity. }
    destruct (Z.lt_ge_cases (now s + dt) (timer_due t)).
    { rewrite (elapse_before_due dt s t) by assumption. left. split; reflexivity. }
    rewrite (elapse_fires dt s t) by assumption.
    destruct (fire_timer_spec s t HI Ht) as (_ & T & _).
    right. left. exact T.
  - left. unfold settle, deliver.
    destruct (find_request id s) as [q|] eqn:Hf; [|tauto].
    apply find_request_id in Hf as [<- _].
    destruct (callAnilistStudio o) as [p l].
    set (s1 := set_console (console s ++ l) (remove_request (req_id q) s)).
    destruct (settle_request_count q p s1) as (E1 & E2 & E3 & E4 & E5).
    destruct (settle_request_frame q p l s) as (_ & F2 & _).
    apply Hdis; try assumption.
    + now apply settle_request_Core.
    + rewrite E4, E3. intros Ha. rewrite (E5 Ha). exact Hd.
    + rewrite E1, E2. exact Hc.
  - right. left. now apply unmount_timers.
Qed.

(** X18.  A counter notification is never made for a stale value: in every
    execution the armed timer (if any) closes over the current counter
    value, so whenever a transition adds a call by the counter path, the
    value it is made for is the value the counter has at that moment. *)
Theorem count_attempt_is_for_current_value :
  forall (evs : list Event),
    let s := run evs mount in
    (forall t, In t (timers s) -> timer_count t = count s)
    /\ forall e tid c,
         attempts (step e s) = attempts s ++ [CountAttempt tid c] ->
         c = count s.
Proof.
  intros evs s.
  assert (H : forall s0, Inv s0 ->
                (forall t, In t (timers s0) -> timer_count t = count s0) ->
                Inv (run evs s0)
                /\ forall t, In t (timers (run evs s0)) -> timer_count t = count (run evs s0)).
  { induction evs as [|e evs IH]; intros s0 HI Hcur; [cbn; tauto|].
    change (run (e :: evs) s0) with (run evs (step e s0)).
    apply IH; [now apply step_Inv|].
    destruct (step_timers e s0 HI) as [[-> ->] | [-> | ->]].
    - exact Hcur.
    - intros t [].
    - intros t [<- | []]. reflexivity. }
  destruct (H mount mount_Inv) as [HI Hcur]; [intros t []|].
  fold s in HI, Hcur.
  split; [exact Hcur|].
  intros e tid c Hadd.
  destruct (step_one_call e s HI) as [E | [[d E] | (t & Hin & E)]]; rewrite E in Hadd.
  - exfalso. apply (f_equal (@length _)) in Hadd.
    rewrite length_app in Hadd. cbn in Hadd. lia.
  - apply app_inv_head in Hadd. discriminate Hadd.
  - apply app_inv_head in Hadd. injection Hadd as <- <-. now apply Hcur.
Qed.

Lemma count_attempt_is_for_current_value_witness :
  1 = count (run [ClickIncrement] mount).
Proof.
  exact (proj2 (count_attempt_is_for_current_value [ClickIncrement])
           (Elapse 300) 1 1 eq_refl).
Defined.

(* ===================================================================== *)
(** * The debounce among other events *)
(* ===================================================================== *)

Lemma count_attempts_app (l1 l2 : list Attempt) :
  count_attempts (l1 ++ l2) = count_attempts l1 ++ count_attempts l2.
Proof. apply List.filter_app. Qed.

Lemma set_count_same (s : App) : set_count (count s) s = s.
Proof. now destruct s. Qed.

Lemma set_now_attempts (n : Z) (s : App) : attempts (set_now n s) = attempts s.
Proof. now destruct s. Qed.

(** A commit in which at most the flag changed touches neither the timers
    nor the clock, and no call is made by the counter path. *)
Lemma commit_flag_only (s : App) :
  Core s -> dep_count s = count s ->
  (alive s = false -> dep_disable s = disableButtons (uiState s)) ->
  timers (commit s) = timers s /\ now (commit s) = now s
  /\ count (commit s) = count s
  /\ count_attempts (attempts (commit s)) = count_attempts (attempts s).
Proof.
  intros (Hn & Ht & Hat & Hrq) Hc Hdead.
  destruct (Bool.bool_dec (dep_disable s) (disableButtons (uiState s))) as [Hd|Hd].
  - rewrite commit_unchanged by (split; assumption). tauto.
  - assert (Ha : alive s = true).
    { destruct (alive s); [reflexivity|]. now specialize (Hdead eq_refl). }
    destruct (disable_change_commit s Ha Hd Hc Hn Ht Hat Hrq)
      as (_ & T & _ & C & _ & _ & _ & _ & N & _ & R).
    split; [exact T|]. split; [exact N|]. split; [exact C|].
    destruct (Bool.eqb (prevDisableRef s) (disableButtons (uiState s))).
    + destruct R as (-> & _). reflexivity.
    + destruct R as (-> & _). rewrite count_attempts_app. cbn. now rewrite app_nil_r.
Qed.

Lemma settle_request_now (q : Request) (p : Settled bool) (s : App) :
  now (settle_request q p s) = now s.
Proof.
  unfold settle_request, promise_chain, toggle_then, toggle_catch, toggle_finally,
    count_then, count_catch, count_finally, uiDispatch, setIsSaving, console_log.
  destruct (req_kind q), p as [[]|]; cbn;
    repeat match goal with
           | |- context [if ?b then _ else _] => destruct b; cbn
           end; reflexivity.
Qed.

(** A click on the toggle or the "Count Animes" button, a settling request,
    or a click that leaves the counter as it is: the timers and the clock
    are as before and the counter path makes no call. *)
Lemma step_quiet (e : Event) (s : App) :
  Inv s ->
  (forall dt, e <> Elapse dt) -> e <> Unmount ->
  count (step e s) = count s ->
  timers (step e s) = timers s /\ now (step e s) = now s
  /\ count_attempts (attempts (step e s)) = count_attempts (attempts s).
Proof.
  intros HI Hel Hun Hcount.
  pose proof (Inv_Core _ HI) as HC. destruct (inv_deps _ HI) as [Hd Hc].
  assert (Hclick : forall c, count (step (click_event c) s) = count s ->
            timers (step (click_event c) s) = timers s
            /\ now (step (click_event c) s) = now s
            /\ count_attempts (attempts (step (click_event c) s))
               = count_attempts (attempts s)).
  { intros c Hcnt.
    destruct (alive s && negb (disableButtons (uiState s))) eqn:E.
    - apply andb_prop in E as [Ha Hen]. apply negb_true_iff in Hen.
      rewrite count_click_enabled in * by assumption.
      destruct (Z.eq_dec (click_value c (count s)) (count s)) as [Ev|Hv].
      + rewrite Ev, set_count_same, commit_unchanged by (split; assumption). tauto.
      + destruct (count_changed_spec s _ HI Ha Hv) as (_ & C & _). congruence.
    - rewrite count_click_blocked by assumption. tauto. }
  assert (Htoggle : alive s = true ->
            timers (commit (toggleDisabled s)) = timers s
            /\ now (commit (toggleDisabled s)) = now s
            /\ count_attempts (attempts (commit (toggleDisabled s)))
               = count_attempts (attempts s)).
  { intros Ha. unfold toggleDisabled, uiDispatch. rewrite Ha.
    destruct (commit_flag_only (set_uiState (uiReducer (uiState s) TOGGLE_DISABLE) s))
      as (T & N & _ & A); try assumption.
    - cbn. congruence.
    - split; [exact T|]. split; [exact N | exact A]. }
  destruct e; cbn [step] in *.
  - exact (Hclick BtnIncrement Hcount).
  - exact (Hclick BtnReset Hcount).
  - destruct (alive s) eqn:Ha; [now apply Htoggle | tauto].
  - destruct (alive s && negb (disableButtons (uiState s))) eqn:E; [|tauto].
    apply andb_prop in E as [Ha _]. now apply Htoggle.
  - now destruct (Hel dt).
  - unfold settle, deliver in *.
    destruct (find_request id s) as [q|] eqn:Hf; [|tauto].
    apply find_request_id in Hf as [<- _].
    destruct (callAnilistStudio o) as [p l].
    set (s1 := set_console (console s ++ l) (remove_request (req_id q) s)) in *.
    destruct (settle_request_count q p s1) as (E1 & E2 & E3 & E4 & E5).
    destruct (settle_request_frame q p l s) as (_ & F2 & F3).
    fold s1 in F2, F3.
    pose proof (settle_request_now q p s1) as F4.
    destruct (commit_flag_only (settle_request q p s1)) as (T & N & _ & A).
    + now apply settle_request_Core.
    + rewrite E1, E2. exact Hc.
    + rewrite E4, E3. intros Ha. rewrite (E5 Ha). exact Hd.
    + rewrite T, N, A, F2, F3, F4. tauto.
  - now destruct Hun.
Qed.

(** Only the increment and the reset button change the counter. *)
Lemma count_change_is_click (e : Event) (s : App) :
  count (step e s) <> count s -> exists c, e = click_event c.
Proof.
  intros H. destruct e; cbn [step] in H.
  - now exists BtnIncrement.
  - now exists BtnReset.
  - exfalso. apply H. destruct (alive s); [|reflexivity].
    destruct (commit_state (toggleDisabled s)) as (_ & -> & _).
    unfold toggleDisabled, uiDispatch. now destruct (alive s), s.
  - exfalso. apply H. destruct (alive s && _); [|reflexivity].
    destruct (commit_state (toggleDisabled s)) as (_ & -> & _).
    unfold toggleDisabled, uiDispatch. now destruct (alive s), s.
  - exfalso. apply H. apply elapse_state.
  - exfalso. apply H. unfold settle, deliver.
    destruct (find_request id s) as [q|]; [|reflexivity].
    destruct (callAnilistStudio o) as [p l].
    destruct (commit_state (settle_request q p
                (set_console (console s ++ l) (remove_request id s)))) as (_ & -> & _).
    now destruct (settle_request_count q p
                    (set_console (console s ++ l) (remove_request id s))) as (-> & _).
  - exfalso. apply H. apply unmount_state.
Qed.

(** A click that changes the counter starts a burst. *)
Lemma count_click_burst_armed (s : App) (c : CountClick) :
  Inv s -> count (step (click_event c) s) <> count s ->
  Inv (step (click_event c) s)
  /\ burst_armed 0 (prevCountRef s) (step (click_event c) s)
  /\ attempts (step (click_event c) s) = attempts s.
Proof.
  intros HI Hne.
  destruct (count_click_changes s c HI Hne) as (Ha & Hen & Hv).
  rewrite count_click_enabled in * by assumption.
  destruct (count_changed_spec s _ HI Ha Hv)
    as (I' & C & T & A & _ & _ & _ & _ & N & _).
  split; [exact I'|]. split; [|exact A].
  split; [unfold debounce_delay; lia|].
  rewrite C, T, N.
  destruct (Z.eqb_spec (prevCountRef s) (click_value c (count s))) as [E|E].
  - left. now split.
  - right. split; [exact E|]. exists (next_timer s). do 2 f_equal. lia.
Qed.

(** Time passing without reaching the due time of the armed timer. *)
Lemma elapse_within_burst (since g dt : Z) (s : App) :
  burst_armed since g s -> 0 <= dt -> since + dt < debounce_delay ->
  elapse dt s = set_now (now s + dt) s.
Proof.
  intros [Hs [[_ Ht] | (_ & id & Ht)]] Hdt Hlt.
  - now apply elapse_no_timer.
  - apply (elapse_before_due dt s _ Hdt Ht). cbn. lia.
Qed.

Lemma set_now_burst_armed (since g dt : Z) (s : App) :
  burst_armed since g s -> 0 <= dt -> since + dt < debounce_delay ->
  burst_armed (since + dt) g (set_now (now s + dt) s).
Proof.
  intros [Hs H] Hdt Hlt. split; [lia|].
  destruct H as [[Hg Ht] | (Hg & id & Ht)].
  - left. destruct s; cbn in *. now split.
  - right. destruct s; cbn in *. split; [exact Hg|]. exists id.
    rewrite Ht. do 2 f_equal. lia.
Qed.

(** Throughout a burst the counter path makes no call, and the timer armed
    (or not) by the last change stays as that change left it. *)
Lemma burst_spec (evs : list Event) :
  forall (s : App) (since g since' g' : Z),
    Inv s -> burst_armed since g s ->
    burst since g evs s = Some (since', g') ->
    Inv (run evs s) /\ burst_armed since' g' (run evs s)
    /\ count_attempts (attempts (run evs s)) = count_attempts (attempts s).
Proof.
  induction evs as [|e evs IH]; intros s since g since' g' HI HB Hb.
  - cbn in Hb. injection Hb as <- <-. cbn. tauto.
  - change (run (e :: evs) s) with (run evs (step e s)).
    assert (Hother : (forall dt, e <> Elapse dt) -> e <> Unmount ->
              (if count (step e s) =? count s
               then burst since g evs (step e s)
               else burst 0 (prevCountRef s) evs (step e s)) = Some (since', g') ->
              Inv (run evs (step e s)) /\ burst_armed since' g' (run evs (step e s))
              /\ count_attempts (attempts (run evs (step e s)))
                 = count_attempts (attempts s)).
    { intros Hel Hun Hb'.
      destruct (Z.eqb_spec (count (step e s)) (count s)) as [Hc|Hc].
      - destruct (step_quiet e s HI Hel Hun Hc) as (T & N & A).
        rewrite <- A. apply (IH _ since g); [now apply step_Inv | | exact Hb'].
        destruct HB as [Hs HB]. split; [exact Hs|].
        rewrite Hc, T, N. exact HB.
      - destruct (count_change_is_click e s Hc) as [c ->].
        destruct (count_click_burst_armed s c HI Hc) as (I' & B' & A').
        rewrite <- A'. now apply (IH _ 0 (prevCountRef s)). }
    destruct e; cbn [burst] in Hb;
      try (apply Hother; [intros ?; discriminate | discriminate | exact Hb]).
    + destruct ((0 <=? dt) && (since + dt <? debounce_delay)) eqn:E; [|discriminate].
      apply andb_prop in E as [E1 E2]. apply Z.leb_le in E1. apply Z.ltb_lt in E2.
      assert (Es : step (Elapse dt) s = set_now (now s + dt) s)
        by (cbn [step]; now apply (elapse_within_burst since g)).
      rewrite <- (set_now_attempts (now s + dt) s), <- Es.
      apply (IH _ (since + dt) g); [now apply step_Inv | | exact Hb].
      rewrite Es. now apply set_now_burst_armed.
    + discriminate.
Qed.

(** C1, amended.  Take a burst of counter changes: a click that changes the
    counter, followed by any events (further clicks on any button, requests
    that settle, time passing) during which the component stays mounted and
    the time passed since the last change of the counter stays below 300.
    During the burst, and as long as less than 300 have passed since the
    last change, the counter path makes no call of [callAnilistStudio].
    Once 300 have passed since the last change, it has made exactly one
    call, for the final counter value, provided that value differs from the
    value [g] that [prevCountRef] held when the last change was made
    ([prevCountRef] starts at 0 and is assigned by [.finally] whenever a
    counter request settles, also during the burst); if the final value
    equals [g], the pending timer was cancelled without a new one and no
    call is made. *)
Theorem debounce_fires_once_for_settled_value :
  forall (s : App) (c : CountClick) (evs : list Event) (since g d : Z),
    Inv s ->
    count (step (click_event c) s) <> count s ->
    burst 0 (prevCountRef s) evs (step (click_event c) s) = Some (since, g) ->
    0 <= d ->
    let s' := run evs (step (click_event c) s) in
    count_attempts (attempts s') = count_attempts (attempts s)
    /\ (since + d < debounce_delay ->
        count_attempts (attempts (step (Elapse d) s')) = count_attempts (attempts s))
    /\ (debounce_delay <= since + d ->
        if count s' =? g
        then count_attempts (attempts (step (Elapse d) s')) = count_attempts (attempts s)
        else one_count_attempt (count s') (count_attempts (attempts s))
               (count_attempts (attempts (step (Elapse d) s')))).
Proof.
  intros s c evs since g d HI Hne Hb Hd s'.
  destruct (count_click_burst_armed s c HI Hne) as (I1 & B1 & A1).
  destruct (burst_spec evs _ _ _ _ _ I1 B1 Hb) as (I2 & B2 & A2).
  fold s' in I2, B2, A2. rewrite A1 in A2.
  split; [exact A2|]. split.
  - intros Hlt. cbn [step].
    rewrite (elapse_within_burst since g) by assumption.
    now rewrite set_now_attempts.
  - intros Hge. cbn [step]. rewrite <- A2.
    destruct B2 as [Hs [[Hg Ht] | (Hg & id & Ht)]].
    + rewrite Hg, Z.eqb_refl, elapse_no_timer by assumption.
      now rewrite set_now_attempts.
    + destruct (Z.eqb_spec (count s') g) as [E|_]; [congruence|].
      rewrite (elapse_fires d s' _ Hd Ht) by (cbn; lia).
      destruct (fire_timer_spec s' _ I2 Ht) as (_ & _ & A & _).
      exists id. cbn [timer_id timer_count] in A.
      rewrite set_now_attempts, A, count_attempts_app. reflexivity.
Qed.

(** Two bursts.  The scenario of the specification: 0, 1, 2, 3 within 100
    units each.  And a burst during which the request for the value 1
    settles (so that [prevCountRef] becomes 1) before the counter is reset:
    the call is made for 0, 300 after the reset. *)
Lemma debounce_fires_once_for_settled_value_witness :
  (let s' := run [Elapse 100; ClickIncrement; Elapse 100; ClickIncrement]
               (step ClickIncrement mount) in
   count_attempts (attempts (step (Elapse 299) s')) = []
   /\ one_count_attempt 3 [] (count_attempts (attempts (step (Elapse 300) s'))))
  /\ (let s := run [ClickIncrement; Elapse 300] mount in
      let s' := run [Elapse 100; Settle 0 fetch_ok; ClickReset; Elapse 200; ClickToggle]
                  (step ClickIncrement s) in
      count_attempts (attempts s) = [CountAttempt 1 1]
      /\ count_attempts (attempts (step (Elapse 99) s')) = [CountAttempt 1 1]
      /\ one_count_attempt 0 [CountAttempt 1 1]
           (count_attempts (attempts (step (Elapse 100) s')))).
Proof.
  cbv zeta. split.
  - pose proof (debounce_fires_once_for_settled_value mount BtnIncrement
                  [Elapse 100; ClickIncrement; Elapse 100; ClickIncrement] 0 0) as H.
    split.
    + refine (proj1 (proj2 (H 299 mount_Inv _ _ _)) _).
      * vm_compute. discriminate.
      * vm_compute. reflexivity.
      * lia.
      * unfold debounce_delay. lia.
    + refine (proj2 (proj2 (H 300 mount_Inv _ _ _)) _).
      * vm_compute. discriminate.
      * vm_compute. reflexivity.
      * lia.
      * unfold debounce_delay. lia.
  - assert (HI : Inv (run [ClickIncrement; Elapse 300] mount))
      by (apply run_Inv, mount_Inv).
    pose proof (debounce_fires_once_for_settled_value
                  (run [ClickIncrement; Elapse 300] mount) BtnIncrement
                  [Elapse 100; Settle 0 fetch_ok; ClickReset; Elapse 200; ClickToggle]
                  200 1) as H.
    split; [vm_compute; reflexivity|].
    split.
    + refine (proj1 (proj2 (H 99 HI _ _ _)) _).
      * vm_compute. discriminate.
      * vm_compute. reflexivity.
      * lia.
      * unfold debounce_delay. lia.
    + refine (proj2 (proj2 (H 100 HI _ _ _)) _).
      * vm_compute. discriminate.
      * vm_compute. reflexivity.
      * lia.
      * unfold debounce_delay. lia.
Defined.

(* ===================================================================== *)
(** * Results that arrive after the toggle effect was torn down *)
(* ===================================================================== *)

Lemma count_cleanup_run_view (s : App) (b : bool) :
  let s' := if b then count_cleanup_run s else s in
  mounted_vars s' = mounted_vars s /\ inflight s' = inflight s
  /\ toggle_cleanup s' = toggle_cleanup s /\ alive s' = alive s
  /\ prevDisableRef s' = prevDisableRef s /\ uiState s' = uiState s
  /\ next_req s' = next_req s.
Proof.
  destruct b; cbn; [|tauto].
  unfold count_cleanup_run, window_clearTimeout, ref_truthy.
  destruct (countTimeoutRef s) as [id|]; [|tauto].
  destruct (negb (id =? 0)); [|tauto].
  destruct s; cbn. tauto.
Qed.

Lemma count_effect_view (s : App) : toggle_view (count_effect s) = toggle_view s.
Proof.
  unfold count_effect, window_setTimeout, window_clearTimeout, ref_truthy, toggle_view.
  destruct (prevCountRef s =? count s); [now destruct s|].
  destruct (countTimeoutRef s) as [id|]; [destruct (negb (id =? 0))|];
    now destruct s.
Qed.

Lemma toggle_effect_view (s : App) :
  toggle_view (toggle_effect s) =
    if Bool.eqb (prevDisableRef s) (disableButtons (uiState s))
    then (mounted_vars s, inflight s, None, alive s)
    else (mounted_vars s ++ [true],
          inflight s ++ [mkRequest (next_req s) (ToggleReq (disableButtons (uiState s)))
                           (length (mounted_vars s))],
          Some (length (mounted_vars s)), alive s).
Proof.
  unfold toggle_effect, new_mounted, setIsSaving, start_request, toggle_view.
  destruct (Bool.eqb (prevDisableRef s) (disableButtons (uiState s)));
    [now destruct s|].
  destruct s as [? ? ? ? ? ? ? ? ? ? ? ? ? ? ? ? ? ? []]; reflexivity.
Qed.

(** What a commit does to the [mounted] variables, the requests in flight
    and the registered cleanup: nothing, unless the flag changed; then the
    registered cleanup clears its variable and the effect runs again. *)
Lemma commit_view (s : App) :
  toggle_view (commit s) =
    if alive s && negb (Bool.eqb (dep_disable s) (disableButtons (uiState s))) then
      let vars1 := cleared (toggle_cleanup s) (mounted_vars s) in
      if Bool.eqb (prevDisableRef s) (disableButtons (uiState s))
      then (vars1, inflight s, None, true)
      else (vars1 ++ [true],
            inflight s ++ [mkRequest (next_req s) (ToggleReq (disableButtons (uiState s)))
                             (length vars1)],
            Some (length vars1), true)
    else toggle_view s.
Proof.
  unfold commit.
  destruct (alive s) eqn:Ha; cbn [negb andb]; [|reflexivity].
  set (s1 := match toggle_cleanup s with
             | Some m => toggle_cleanup_run m s
             | None => s
             end).
  assert (H1 : mounted_vars s1 = cleared (toggle_cleanup s) (mounted_vars s)
               /\ inflight s1 = inflight s /\ alive s1 = alive s
               /\ prevDisableRef s1 = prevDisableRef s /\ uiState s1 = uiState s
               /\ next_req s1 = next_req s /\ count_cleanup s1 = count_cleanup s).
  { subst s1. unfold toggle_cleanup_run, write_mounted, cleared.
    destruct (toggle_cleanup s); [destruct s; cbn|]; tauto. }
  destruct H1 as (V1 & I1 & A1 & P1 & U1 & N1 & _).
  destruct (Bool.eqb (dep_disable s) (disableButtons (uiState s))); cbn [negb].
  - destruct (dep_count s =? count s); cbn [negb]; [reflexivity|].
    transitivity (toggle_view (count_effect (if count_cleanup s then count_cleanup_run s else s)));
      [unfold toggle_view; now destruct (count_effect _)|].
    rewrite count_effect_view. unfold toggle_view.
    destruct (count_cleanup_run_view s (count_cleanup s)) as (-> & -> & -> & -> & _).
    reflexivity.
  - set (s2 := if negb (dep_count s =? count s)
               then (if count_cleanup s1 then count_cleanup_run s1 else s1)
               else s1).
    assert (H2 : mounted_vars s2 = mounted_vars s1 /\ inflight s2 = inflight s1
                 /\ toggle_cleanup s2 = toggle_cleanup s1 /\ alive s2 = alive s1
                 /\ prevDisableRef s2 = prevDisableRef s1 /\ uiState s2 = uiState s1
                 /\ next_req s2 = next_req s1).
    { subst s2. destruct (negb (dep_count s =? count s)); [|tauto].
      apply count_cleanup_run_view. }
    destruct H2 as (V2 & I2 & _ & A2 & P2 & U2 & N2).
    set (s3 := set_dep_disable (disableButtons (uiState s2)) (toggle_effect s2)).
    assert (H3 : toggle_view s3 = toggle_view (toggle_effect s2))
      by (subst s3; unfold toggle_view; now destruct (toggle_effect s2)).
    assert (H4 : toggle_view (if negb (dep_count s =? count s)
                              then set_dep_count (count s3) (count_effect s3)
                              else s3) = toggle_view s3).
    { destruct (negb (dep_count s =? count s)); [|reflexivity].
      rewrite <- (count_effect_view s3). unfold toggle_view.
      now destruct (count_effect s3). }
    rewrite H4, H3, toggle_effect_view.
    rewrite V2, I2, A2, P2, U2, N2, V1, I1, A1, P1, U1, N1, Ha.
    reflexivity.
Qed.

Lemma toggle_view_eq (s s' : App) :
  toggle_view s' = toggle_view s ->
  mounted_vars s' = mounted_vars s /\ inflight s' = inflight s
  /\ toggle_cleanup s' = toggle_cleanup s /\ alive s' = alive s.
Proof. unfold toggle_view. intros H. injection H as -> -> -> ->. tauto. Qed.

Lemma settle_request_view (q : Request) (p : Settled bool) (s : App) :
  toggle_view (settle_request q p s) = toggle_view s.
Proof.
  unfold settle_request, promise_chain, toggle_then, toggle_catch, toggle_finally,
    count_then, count_catch, count_finally, uiDispatch, setIsSaving, console_log,
    read_mounted, toggle_view.
  destruct (req_kind q), p as [[]|], s; cbn;
    repeat match goal with
           | |- context [if ?b then _ else _] => destruct b; cbn
           | |- context [match ?x with _ => _ end] => destruct x; cbn
           end; reflexivity.
Qed.

Lemma uiState_flag (u u' : UIState) :
  disableButtons u = disableButtons u' -> u = u'.
Proof. destruct u, u'; cbn. now intros ->. Qed.

(** A commit, seen on the [mounted] variables and the requests. *)
Lemma commit_view_step (s0 s : App) :
  mounted_vars s0 = mounted_vars s ->
  (forall q, In q (inflight s0) -> In q (inflight s)) ->
  toggle_cleanup s0 = toggle_cleanup s -> alive s0 = alive s ->
  (alive s0 = false \/ dep_disable s0 = disableButtons (uiState s0) -> uiState s0 = uiState s) ->
  view_step s (commit s0).
Proof.
  intros V I C A U.
  pose proof (commit_view s0) as H.
  destruct (commit_state s0) as (Us & _).
  destruct (alive s0) eqn:Ha; cbn [andb] in H.
  - destruct (Bool.eqb (dep_disable s0) (disableButtons (uiState s0))) eqn:Hd;
      cbn [negb] in H.
    + apply toggle_view_eq in H as (V' & I' & C' & A').
      apply view_kept; try congruence.
      * intros q Hq. apply I. now rewrite <- I'.
      * rewrite Us. apply U. right. now apply Bool.eqb_prop.
    + cbv zeta in H. rewrite V, C in H.
      destruct (Bool.eqb (prevDisableRef s0) (disableButtons (uiState s0)));
        unfold toggle_view in H; injection H as V' I' C' A'.
      * apply view_rerun_skip; try assumption.
        intros q Hq. apply I. now rewrite <- I'.
      * now apply (view_rerun_request s (commit s0) (next_req s0)
                     (disableButtons (uiState s0)) (inflight s0)).
  - apply toggle_view_eq in H as (V' & I' & C' & A').
    apply view_kept; try congruence.
    + intros q Hq. apply I. now rewrite <- I'.
    + rewrite Us. apply U. now left.
Qed.

Lemma view_step_ext (s s' s'' : App) :
  view_step s s' ->
  mounted_vars s'' = mounted_vars s' -> inflight s'' = inflight s' ->
  toggle_cleanup s'' = toggle_cleanup s' -> alive s'' = alive s' ->
  uiState s'' = uiState s' ->
  view_step s s''.
Proof.
  intros H V I C A U.
  destruct H as [V' I' C' A' U' | id c V' I' C' A' U' | V' I' C' A'
                | id d reqs V' R' I' C' A' | V' I' C' A' U'];
    rewrite <- V in V'; rewrite <- I in I'; rewrite <- C in C'; rewrite <- A in A';
    try rewrite <- U in U'.
  - now apply view_kept.
  - now apply (view_count_request s s'' id c).
  - now apply view_rerun_skip.
  - now apply (view_rerun_request s s'' id d reqs).
  - now apply view_unmount.
Qed.

Lemma view_step_refl (s : App) : view_step s s.
Proof. now apply view_kept. Qed.

Lemma fire_timer_view_step (t : Timer) (s : App) :
  Inv s -> timers s = [t] -> view_step s (fire_timer t s).
Proof.
  intros HI Ht. destruct (inv_deps _ HI) as [Hd _].
  unfold fire_timer. rewrite Ht. cbn [existsb]. rewrite Z.eqb_refl. cbn [orb].
  set (s1 := set_now _ _).
  set (s0 := fst (count_timeout_callback (timer_id t) (timer_count t) s1)).
  assert (H0 : toggle_view s0
               = (mounted_vars s ++ [true],
                  inflight s ++ [mkRequest (next_req s) (CountReq (timer_count t))
                                   (length (mounted_vars s))],
                  toggle_cleanup s, alive s)
               /\ dep_disable s0 = dep_disable s /\ uiState s0 = uiState s).
  { subst s0 s1.
    unfold count_timeout_callback, new_mounted, setIsSaving, start_request,
      window_clearTimeout, toggle_view.
    destruct s as [? ? ? ? ? ? ? ? ? ? ? ? ? ? ? ? ? ? []]; cbn; tauto. }
  destruct H0 as (V0 & D0 & U0). clearbody s0.
  pose proof (commit_view s0) as H.
  rewrite D0, U0, Hd, Bool.eqb_reflx, andb_false_r, V0 in H.
  unfold toggle_view in H. injection H as V I C A.
  destruct (commit_state s0) as (Us & _).
  apply (view_count_request s (commit s0) (next_req s) (timer_count t));
    congruence.
Qed.

Lemma set_now_view_step (n : Z) (s s' : App) :
  view_step s s' -> view_step s (set_now n s').
Proof. intros H. apply (view_step_ext s s'); now destruct s'. Qed.

Lemma elapse_view_step (dt : Z) (s : App) :
  Inv s -> view_step s (elapse dt s).
Proof.
  intros HI.
  destruct (Z.lt_ge_cases dt 0) as [Hneg|Hpos].
  { rewrite elapse_negative by assumption. apply view_step_refl. }
  destruct (inv_timers _ HI) as [Ht | (t & Ht & _)].
  { rewrite elapse_no_timer by assumption. apply set_now_view_step, view_step_refl. }
  destruct (Z.lt_ge_cases (now s + dt) (timer_due t)).
  { rewrite (elapse_before_due dt s t) by assumption.
    apply set_now_view_step, view_step_refl. }
  rewrite (elapse_fires dt s t) by assumption.
  now apply set_now_view_step, fire_timer_view_step.
Qed.

Lemma toggle_cleanup_run_view (s : App) :
  let s1 := match toggle_cleanup s with
            | Some m => toggle_cleanup_run m s
            | None => s
            end in
  mounted_vars s1 = cleared (toggle_cleanup s) (mounted_vars s)
  /\ inflight s1 = inflight s /\ uiState s1 = uiState s
  /\ count_cleanup s1 = count_cleanup s.
Proof.
  unfold toggle_cleanup_run, write_mounted, cleared.
  destruct (toggle_cleanup s); [destruct s; cbn|]; tauto.
Qed.

Lemma unmount_view_step (s : App) : view_step s (unmount s).
Proof.
  unfold unmount. destruct (alive s) eqn:Ha; cbn [negb]; [|apply view_step_refl].
  destruct (toggle_cleanup_run_view s) as (V1 & I1 & U1 & _).
  set (s1 := match toggle_cleanup s with
             | Some m => toggle_cleanup_run m s
             | None => s
             end) in *.
  destruct (count_cleanup_run_view s1 (count_cleanup s1)) as (V2 & I2 & _ & _ & _ & U2 & _).
  set (s2 := if count_cleanup s1 then count_cleanup_run s1 else s1) in *.
  clearbody s2 s1.
  apply view_unmount; destruct s2; cbn in *; congruence.
Qed.

Lemma setCount_view (f : Z -> Z) (s : App) :
  mounted_vars (setCount f s) = mounted_vars s
  /\ inflight (setCount f s) = inflight s
  /\ toggle_cleanup (setCount f s) = toggle_cleanup s
  /\ alive (setCount f s) = alive s
  /\ uiState (setCount f s) = uiState s.
Proof. unfold setCount. destruct (alive s) eqn:Ha, s; cbn in *; tauto. Qed.

Lemma toggleDisabled_view (s : App) :
  mounted_vars (toggleDisabled s) = mounted_vars s
  /\ inflight (toggleDisabled s) = inflight s
  /\ toggle_cleanup (toggleDisabled s) = toggle_cleanup s
  /\ alive (toggleDisabled s) = alive s
  /\ dep_disable (toggleDisabled s) = dep_disable s
  /\ (alive s = true ->
      disableButtons (uiState (toggleDisabled s)) = negb (disableButtons (uiState s))).
Proof.
  unfold toggleDisabled, uiDispatch. destruct (alive s) eqn:Ha, s; cbn in *;
    repeat split; congruence.
Qed.

(** Every transition is one of the five kinds of [view_step]. *)
Lemma step_view (e : Event) (s : App) : Inv s -> view_step s (step e s).
Proof.
  intros HI. destruct (inv_deps _ HI) as [Hd Hc].
  assert (Hcount : forall f, view_step s (commit (setCount f s))).
  { intros f. destruct (setCount_view f s) as (V & I & C & A & U).
    apply commit_view_step; try assumption; [intros q; now rewrite I | tauto]. }
  assert (Htoggle : alive s = true -> view_step s (commit (toggleDisabled s))).
  { intros Ha. destruct (toggleDisabled_view s) as (V & I & C & A & D & F).
    apply commit_view_step; try assumption; [intros q; now rewrite I|].
    intros [Hdead | Hsame]; [congruence|].
    rewrite D, Hd, (F Ha) in Hsame. now destruct (disableButtons (uiState s)). }
  destruct e; cbn [step].
  - destruct (alive s && _); [apply Hcount | apply view_step_refl].
  - destruct (alive s && _); [apply Hcount | apply view_step_refl].
  - destruct (alive s) eqn:Ha; [now apply Htoggle | apply view_step_refl].
  - destruct (alive s && _) eqn:E; [|apply view_step_refl].
    apply andb_prop in E as [Ha _]. now apply Htoggle.
  - now apply elapse_view_step.
  - unfold settle, deliver.
    destruct (find_request id s) as [q|] eqn:Hf; [|apply view_step_refl].
    destruct (callAnilistStudio o) as [p l].
    set (s1 := set_console (console s ++ l) (remove_request id s)).
    destruct (settle_request_count q p s1) as (_ & _ & E3 & E4 & E5).
    destruct (toggle_view_eq _ _ (settle_request_view q p s1)) as (V & I & C & A).
    apply commit_view_step.
    + rewrite V. reflexivity.
    + rewrite I. intros q' Hq'. cbn in Hq'. now apply List.filter_In in Hq' as [Hq' _].
    + rewrite C. reflexivity.
    + rewrite A. reflexivity.
    + intros [Hdead | Hsame].
      * rewrite E4 in Hdead. now rewrite (E5 Hdead).
      * apply uiState_flag. rewrite <- Hsame, E3. cbn. now rewrite Hd.
  - apply unmount_view_step.
Qed.

Lemma cleared_length (cl : option nat) (vars : list bool) :
  length (cleared cl vars) = length vars.
Proof. destruct cl; cbn; [apply length_insert | reflexivity]. Qed.

Lemma cleared_false (cl : option nat) (vars : list bool) (m : nat) :
  vars !! m = Some false -> cleared cl vars !! m = Some false.
Proof.
  intros H. destruct cl as [k|]; cbn; [|exact H].
  rewrite list_lookup_insert. now destruct (decide _).
Qed.

Lemma app_false (vars l : list bool) (m : nat) :
  vars !! m = Some false -> (vars ++ l) !! m = Some false.
Proof.
  intros H. rewrite lookup_app_l; [exact H|]. now apply lookup_lt_Some in H.
Qed.

(** After the registered cleanup has run, the variable of every toggle
    request in flight holds [false]. *)
Lemma cleared_all (vars : list bool) (reqs : list Request) (cl : option nat) (al : bool) :
  tracked vars reqs cl al ->
  forall q d, In q reqs -> req_kind q = ToggleReq d ->
    cleared cl vars !! req_mounted q = Some false.
Proof.
  intros (K & L & J & D) q d Hin Hk.
  pose proof (L q Hin) as Hlt.
  destruct (proj2 (lookup_lt_is_Some vars (req_mounted q)) Hlt) as [[] Hb].
  - rewrite (J q d Hin Hk Hb). cbn. rewrite list_lookup_insert.
    destruct (decide _) as [_|Hn]; [reflexivity|]. exfalso. apply Hn. now split.
  - now apply cleared_false.
Qed.

Lemma view_step_tracked (s s' : App) :
  view_step s s' -> mounted_tracked s -> mounted_tracked s'.
Proof.
  intros H HT. pose proof (cleared_all _ _ _ _ HT) as Hall.
  pose proof (cleared_length (toggle_cleanup s) (mounted_vars s)) as Hlen.
  destruct HT as (K & L & J & D). unfold mounted_tracked, tracked.
  destruct H as [V I C A U | id c V I C A U | V I C A
                | id d reqs V R I C A | V I C A U]; rewrite V, ?I, C, A.
  - repeat split; auto.
    intros q d Hin. apply J. now apply I.
  - split; [|split; [|split]].
    + intros m Hm. rewrite length_app. specialize (K m Hm). cbn. lia.
    + intros q Hin. rewrite length_app. cbn.
      apply in_app_or in Hin as [Hin | [<- | []]]; [specialize (L q Hin); lia | cbn; lia].
    + intros q d Hin Hk Hb. apply in_app_or in Hin as [Hin | [<- | []]]; [|discriminate Hk].
      apply (J q d Hin Hk). rewrite lookup_app_l in Hb; [exact Hb | now apply L].
    + exact D.
  - split; [|split; [|split]].
    + intros m Hm. discriminate Hm.
    + intros q Hin. rewrite Hlen. now apply L, I.
    + intros q d Hin Hk Hb. rewrite (Hall q d (I q Hin) Hk) in Hb. discriminate Hb.
    + reflexivity.
  - split; [|split; [|split]].
    + intros m Hm. injection Hm as <-. rewrite length_app. cbn. lia.
    + intros q Hin. rewrite length_app, Hlen. cbn.
      apply in_app_or in Hin as [Hin | [<- | []]]; [|cbn; rewrite Hlen; lia].
      specialize (L q (R q Hin)). lia.
    + intros q d' Hin Hk Hb.
      apply in_app_or in Hin as [Hin | [<- | []]]; [|reflexivity].
      rewrite (app_false _ _ _ (Hall q d' (R q Hin) Hk)) in Hb. discriminate Hb.
    + intros Hf. discriminate Hf.
  - split; [|split; [|split]].
    + intros m Hm. discriminate Hm.
    + intros q Hin. rewrite Hlen. now apply L.
    + intros q d Hin Hk Hb. rewrite (Hall q d Hin Hk) in Hb. discriminate Hb.
    + reflexivity.
Qed.

(** A [mounted] variable that was set to [false] stays [false]. *)
Lemma view_step_torn_down (s s' : App) (m : nat) :
  view_step s s' -> torn_down m s -> torn_down m s'.
Proof.
  unfold torn_down. intros H Hm.
  destruct H as [V I C A U | id c V I C A U | V I C A
                | id d reqs V R I C A | V I C A U]; rewrite V.
  - exact Hm.
  - now apply app_false.
  - now apply cleared_false.
  - now apply app_false, cleared_false.
  - now apply cleared_false.
Qed.

(** A transition that changes the flag or leaves the component unmounted
    leaves the variable of every toggle request that was in flight at
    [false]. *)
Lemma view_step_tears_down (s s' : App) (q : Request) (d : bool) :
  view_step s s' -> mounted_tracked s ->
  disableButtons (uiState s') <> disableButtons (uiState s) \/ alive s' = false ->
  In q (inflight s) -> req_kind q = ToggleReq d ->
  torn_down (req_mounted q) s'.
Proof.
  intros H HT Hdown Hin Hk. pose proof (cleared_all _ _ _ _ HT q d Hin Hk) as Hall.
  assert (Hdead : alive s = false -> mounted_vars s !! req_mounted q = Some false).
  { intros Ha. destruct HT as (_ & _ & _ & D). rewrite (D Ha) in Hall. exact Hall. }
  unfold torn_down.
  destruct H as [V I C A U | id c V I C A U | V I C A
                | id d' reqs V R I C A | V I C A U]; rewrite V.
  - destruct Hdown as [Hf | Ha]; [now rewrite U in Hf|].
    apply Hdead. now rewrite <- A.
  - destruct Hdown as [Hf | Ha]; [now rewrite U in Hf|].
    apply app_false, Hdead. now rewrite <- A.
  - exact Hall.
  - now apply app_false.
  - exact Hall.
Qed.

Lemma mount_tracked : mounted_tracked mount.
Proof.
  unfold mounted_tracked, tracked. cbn.
  repeat split; try discriminate; intros ? []; try discriminate.
Qed.

Lemma run_tracked (evs : list Event) :
  forall s, Inv s -> mounted_tracked s -> mounted_tracked (run evs s).
Proof.
  induction evs as [|e evs IH]; intros s HI HT; [exact HT|].
  change (run (e :: evs) s) with (run evs (step e s)).
  apply IH; [now apply step_Inv|].
  apply (view_step_tracked s); [now apply step_view | exact HT].
Qed.

Lemma run_torn_down (evs : list Event) (m : nat) :
  forall s, Inv s -> torn_down m s -> torn_down m (run evs s).
Proof.
  induction evs as [|e evs IH]; intros s HI Hm; [exact Hm|].
  change (run (e :: evs) s) with (run evs (step e s)).
  apply IH; [now apply step_Inv|].
  apply (view_step_torn_down s); [now apply step_view | exact Hm].
Qed.

(** C3.  In every execution from the initial mount: if a request of the
    toggle effect is in flight when the effect is torn down (the component
    is unmounted, or the flag changes so that the effect is run again), and
    is still in flight after any further events, then its result, whatever
    the outcome of the [fetch] (an answer with or without success, an HTTP
    error, a [fetch] or a [res.json()] that throws), changes neither
    [uiState.disableButtons] nor [isSaving] nor [count] when it arrives.
    [callAnilistStudio] turns every outcome into a fulfilled promise, so
    the handlers that run are [.then] and [.finally], both guarded by
    [mounted]. *)
Theorem torn_down_toggle_result_discarded :
  forall (before between : list Event) (teardown : Event)
         (id : nat) (q : Request) (d : bool) (o : FetchOutcome),
    let s := run before mount in
    let s' := run between (step teardown s) in
    find_request id s = Some q -> req_kind q = ToggleReq d ->
    tears_down teardown s ->
    find_request id s' = Some q ->
    uiState (step (Settle id o) s') = uiState s'
    /\ isSaving (step (Settle id o) s') = isSaving s'
    /\ count (step (Settle id o) s') = count s'.
Proof.
  intros before between teardown id q d o s s' Hf Hk Htd Hf'.
  assert (HI : Inv s) by (apply run_Inv, mount_Inv).
  assert (HT : mounted_tracked s) by (apply run_tracked; [apply mount_Inv | apply mount_tracked]).
  assert (HI1 : Inv (step teardown s)) by now apply step_Inv.
  assert (HI' : Inv s') by now apply run_Inv.
  apply find_request_id in Hf as [_ Hin].
  assert (Hdown : torn_down (req_mounted q) (step teardown s)).
  { apply (view_step_tears_down s _ q d); try assumption; [now apply step_view|].
    destruct Htd as [-> | Hflag]; [right; apply unmount_alive | now left]. }
  pose proof (run_torn_down between _ _ HI1 Hdown) as Hdown'. fold s' in Hdown'.
  apply (toggle_late_result_ignored s' id q d o HI' Hf' Hk).
  unfold read_mounted. unfold torn_down in Hdown'. now rewrite Hdown'.
Qed.

(** Toggle and unmount at once; and a toggle superseded by two more, whose
    [fetch] then throws. *)
Lemma torn_down_toggle_result_discarded_witness :
  (let s' := run [] (step Unmount (run [ClickToggle] mount)) in
   find_request 0 s' = Some (mkRequest 0 (ToggleReq true) 0)
   /\ uiState (step (Settle 0 fetch_http_error) s') = uiState s'
   /\ isSaving (step (Settle 0 fetch_http_error) s') = isSaving s'
   /\ count (step (Settle 0 fetch_http_error) s') = count s')
  /\ (let s' := run [ClickToggle] (step ClickToggle (run [ClickToggle] mount)) in
      find_request 0 s' = Some (mkRequest 0 (ToggleReq true) 0)
      /\ uiState (step (Settle 0 FetchThrows) s') = uiState s'
      /\ isSaving (step (Settle 0 FetchThrows) s') = isSaving s'
      /\ count (step (Settle 0 FetchThrows) s') = count s').
Proof.
  cbv zeta. split.
  - split; [vm_compute; reflexivity|].
    apply (torn_down_toggle_result_discarded [ClickToggle] [] Unmount 0
             (mkRequest 0 (ToggleReq true) 0) true fetch_http_error).
    + vm_compute. reflexivity.
    + reflexivity.
    + now left.
    + vm_compute. reflexivity.
  - split; [vm_compute; reflexivity|].
    apply (torn_down_toggle_result_discarded [ClickToggle] [ClickToggle] ClickToggle 0
             (mkRequest 0 (ToggleReq true) 0) true FetchThrows).
    + vm_compute. reflexivity.
    + reflexivity.
    + right. vm_compute. discriminate.
    + vm_compute. reflexivity.
Defined.
